(** * STEER-evaluation: response engine, API client, model loader

    A shallow embedding of [src/utils/inference_utils.py] and
    [src/utils/model_utils.py], and the properties of the evaluation code
    that are settled on it.

    Conventions of the embedding.
    - Python [int] is [Z]; loop counters that only count up from 0 are [nat].
    - Python [float] is read as a real number ([R]): rounding, overflow and
      NaN are not modelled; quantities the loader turns into text are
      rationals ([Q]) so that the text can be computed.
    - [str] is [string] (a byte string); [upper]/[lower] act on ASCII letters.
    - A [dict] is an insertion-ordered association list with distinct
      keys, as Python's is; the process environment, which is only looked
      up, is a [gmap]; mutable objects that are shared live in a store
      indexed by references.
    - A call that may raise returns a [result]; code that also performs
      calls to the outside world threads a log of those calls. *)

From Stdlib Require Import ZArith QArith Reals Lra Lia List String Ascii Bool.
From Stdlib Require Import DecimalString.
From Stdlib Require DecimalZ.
From stdpp Require Import base option list strings gmap.
From Equations Require Import Equations.

Import ListNotations.
Local Open Scope Z_scope.

(** ** Python exceptions and results *)

Inductive exn : Type :=
| ValueError (msg : string)
| IndexError
| KeyError (key : string)
| TypeError
| AttributeError (attr : string)
| NameError
| FileNotFoundError (path : string)
| RuntimeError (msg : string)
| KeyboardInterrupt.

(** [except Exception] catches every class above but [KeyboardInterrupt],
    which derives from [BaseException] only. *)
Definition is_Exception (e : exn) : bool :=
  match e with
  | KeyboardInterrupt => false
  | _ => true
  end.

Inductive result (A : Type) : Type :=
| Return (a : A)
| Raise (e : exn).
Arguments Return {A} a.
Arguments Raise {A} e.

Definition returns {A} (r : result A) : Prop := exists a, r = Return a.

(** [l[i]] for a non-negative index. *)
Definition index {A} (l : list A) (i : nat) : result A :=
  match nth_error l i with
  | Some a => Return a
  | None => Raise IndexError
  end.

(** [str(n)] for an integer. *)
Definition str_of_Z (z : Z) : string := NilZero.string_of_int (Z.to_int z).
Definition str_of_nat (n : nat) : string := str_of_Z (Z.of_nat n).

(** ** Sequencing computations that may raise *)

#[global] Instance result_ret : MRet result := fun A a => Return a.
#[global] Instance result_bind : MBind result := fun A B f r =>
  match r with
  | Return a => f a
  | Raise e => Raise e
  end.

(** A computation over a state [S] (a log of outside calls, or a store of
    shared objects) that may raise; the state reached when the exception
    is raised is kept. *)
Definition ST (St A : Type) : Type := St -> result A * St.

#[global] Instance ST_ret {St} : MRet (ST St) := fun A a s => (Return a, s).
#[global] Instance ST_bind {St} : MBind (ST St) := fun A B f m s =>
  match m s with
  | (Return a, s') => f a s'
  | (Raise e, s') => (Raise e, s')
  end.

Definition lift {St A} (r : result A) : ST St A := fun s => (r, s).
Definition raise {St A} (e : exn) : ST St A := fun s => (Raise e, s).

(** [for i, x in enumerate(xs)], from index [i] on, threading the loop's
    variables [v]. *)
Fixpoint for_enumerate {St X V} (body : nat -> X -> V -> ST St V)
    (i : nat) (xs : list X) (v : V) : ST St V :=
  match xs with
  | [] => mret v
  | x :: xs' => v' ← body i x v; for_enumerate body (S i) xs' v'
  end.

(** ** Strings *)

Definition newline : string := String (ascii_of_nat 10) EmptyString.

Definition upper_ascii (c : ascii) : ascii :=
  let n := nat_of_ascii c in
  if (97 <=? n)%nat && (n <=? 122)%nat then ascii_of_nat (n - 32) else c.

Definition lower_ascii (c : ascii) : ascii :=
  let n := nat_of_ascii c in
  if (65 <=? n)%nat && (n <=? 90)%nat then ascii_of_nat (n + 32) else c.

Fixpoint map_string (f : ascii -> ascii) (s : string) : string :=
  match s with
  | EmptyString => EmptyString
  | String c s' => String (f c) (map_string f s')
  end.

(** [s.upper()] and [s.lower()] on ASCII text; other bytes are left as
    they are. *)
Definition upper (s : string) : string := map_string upper_ascii s.
Definition lower (s : string) : string := map_string lower_ascii s.

(** [s.startswith(p)]. *)
Definition startswith (s p : string) : bool := String.prefix p s.

(** ** Insertion-ordered dictionaries with string keys *)

Definition odict (V : Type) : Type := list (string * V).

(** [d.get(k)] *)
Fixpoint dict_get {V} (k : string) (d : odict V) : option V :=
  match d with
  | [] => None
  | (k', v) :: d' => if String.eqb k' k then Some v else dict_get k d'
  end.

(** [d[k] = v]: an existing key keeps its place, a new key goes last. *)
Fixpoint dict_set {V} (k : string) (v : V) (d : odict V) : odict V :=
  match d with
  | [] => [(k, v)]
  | (k', v') :: d' =>
      if String.eqb k' k then (k', v) :: d' else (k', v') :: dict_set k v d'
  end.

(** [del d[k]], for a key that may be absent. *)
Fixpoint dict_del {V} (k : string) (d : odict V) : odict V :=
  match d with
  | [] => []
  | (k', v') :: d' =>
      if String.eqb k' k then d' else (k', v') :: dict_del k d'
  end.

Definition dict_keys {V} (d : odict V) : list string := map fst d.

(** A dictionary with float values, such as a probability distribution. *)
Definition dict : Type := odict R.

(** A chat turn, [{'role': ..., 'content': ...}]. *)
Record message : Type := { role : string; content : string }.

(** ** The retry helper: [exponential_backoff_decorator] *)

Module Backoff.

(** What the wrapper does to the outside world, in order. *)
Inductive event : Type :=
| Invoke (call : nat)                       (* the call of the wrapped func *)
| PrintAttemptFailed (attempt : nat) (e : exn)
| PrintRetrying (delay : R)
| Sleep (delay : R)
| PrintMaxRetries.

Section Wrapper.
Context {A : Type}.
Variable max_retries : Z.
Variable base_delay : R.
(** The outcome of the wrapped function at its [n]-th invocation
    (counted from 0), and the [n]-th draw of [random.uniform(0, 1)]. *)
Variable func : nat -> result A.
Variable uniform : nat -> R.

Definition delay_of (retries : nat) (draw : nat) : R :=
  (base_delay * 2 ^ retries + uniform draw)%R.

(** The [while retries < max_retries] loop of [wrapper]. The wrapped
    function is invoked once per iteration, so its invocation number is
    [retries]; so is the number of the random draw. *)
Equations? wrapper_loop (retries : nat) (log : list event)
  : result (option A) * list event
  by wf (Z.to_nat (max_retries - Z.of_nat retries)) lt :=
  wrapper_loop retries log with Z_lt_dec (Z.of_nat retries) max_retries := {
    | right _ => (Return None, log ++ [PrintMaxRetries])
    | left _ with func retries := {
      | Return result_func => (Return (Some result_func), log ++ [Invoke retries])
      | Raise e with is_Exception e := {
        | false => (Raise e, log ++ [Invoke retries])
        | true =>
            wrapper_loop (S retries)
              (log ++ [Invoke retries;
                       PrintAttemptFailed (retries + 1) e;
                       PrintRetrying (delay_of (S retries) retries);
                       Sleep (delay_of (S retries) retries)])
        }
      }
    }.
Proof. lia. Qed.

Definition wrapper : result (option A) * list event := wrapper_loop 0 [].
End Wrapper.

(** Every invocation of the wrapped function raises an exception that
    [except Exception] catches. *)
Definition always_fails {A} (func : nat -> result A) : Prop :=
  forall n, exists e, func n = Raise e /\ is_Exception e = true.

Definition is_invoke (ev : event) : bool :=
  match ev with Invoke _ => true | _ => false end.

(** How many times the wrapped function was invoked, and the delays slept. *)
Definition invocations (log : list event) : nat :=
  length (List.filter is_invoke log).

Definition slept (log : list event) : list R :=
  omap (fun ev => match ev with Sleep d => Some d | _ => None end) log.

(** The events of one failed attempt, and of [n] failed attempts in a row
    starting at attempt number [retries]. *)
Definition failed_round {A} (base_delay : R) (func : nat -> result A)
    (uniform : nat -> R) (retries : nat) : list event :=
  match func retries with
  | Raise e =>
      [Invoke retries;
       PrintAttemptFailed (retries + 1) e;
       PrintRetrying (delay_of base_delay uniform (S retries) retries);
       Sleep (delay_of base_delay uniform (S retries) retries)]
  | Return _ => [Invoke retries]
  end.

Fixpoint failed_rounds {A} (base_delay : R) (func : nat -> result A)
    (uniform : nat -> R) (retries n : nat) : list event :=
  match n with
  | O => []
  | S n' => failed_round base_delay func uniform retries
            ++ failed_rounds base_delay func uniform (S retries) n'
  end.

End Backoff.

(** ** The hosted-API client: [GPTClient] *)

Module Client.

(** The two SDK clients the constructor can build. *)
Inductive sdk_client : Type :=
| AzureOpenAI (api_key api_version azure_endpoint : string)
| OpenAI (api_key : string).

(** An instance of [GPTClient]. The attribute [self.client] exists only
    once it has been assigned. *)
Record GPTClient : Type := { client : option sdk_client }.

(** [os.environ[key]]. *)
Definition environ_get (environ : gmap string string) (key : string)
  : result string :=
  match environ !! key with
  | Some v => Return v
  | None => Raise (KeyError key)
  end.

(** [GPTClient.__init__(self, client='azure')]. *)
Definition init (environ : gmap string string) (flag : string)
  : result GPTClient :=
  if String.eqb (lower flag) "azure" then
    api_key ← environ_get environ "AZURE_OPENAI_API_KEY";
    azure_endpoint ← environ_get environ "AZURE_OPENAI_ENDPOINT";
    mret {| client := Some (AzureOpenAI api_key "2024-02-01" azure_endpoint) |}
  else if String.eqb (lower flag) "openai" then
    api_key ← environ_get environ "OPENAI_API_KEY";
    mret {| client := Some (OpenAI api_key) |}
  else
    mret {| client := None |}.

(** The keyword arguments shared by the three methods, with their
    defaults. [None] is Python's [None]. *)
Record options : Type := {
  max_tokens : option Z;
  temperature : R;
  stop : option string;
  seed : Z;
  tools : list string;
  logprobs : option bool;
  top_logprobs : option Z
}.

Definition default_options : options :=
  {| max_tokens := Some 500; temperature := 0%R; stop := None; seed := 123;
     tools := []; logprobs := None; top_logprobs := None |}.

(** The [params] dictionary sent to the service; ["tools"] is a key of it
    only when [tools] is truthy. *)
Record request : Type := {
  req_model : string;
  req_messages : list message;
  req_max_tokens : option Z;
  req_temperature : R;
  req_stop : option string;
  req_seed : Z;
  req_logprobs : option bool;
  req_top_logprobs : option Z;
  req_tools : option (list string)
}.

(** The part of a completion the client reads:
    [choices[k].message.content] and
    [choices[k].logprobs.content[j].top_logprobs]. *)
Record TopLogprob : Type := { token : string; logprob : R }.
Record TokenLogprob : Type := { top_logprobs_of : list TopLogprob }.
Record Choice : Type := {
  message_content : string;
  logprobs_content : option (list TokenLogprob)
}.
Record Completion : Type := { choices : list Choice }.

(** The service ([client.chat.completions.create]) and the helper
    [normalize_dict] of [utils/utils.py], a file that is not part of the
    source tree. *)
Class Service : Type := {
  chat_completions_create : sdk_client -> request -> result Completion;
  normalize_dict : dict -> result dict
}.

(** Modelled from the spec: [utils/utils.py], where [normalize_dict] is
    defined, is not part of the source tree. The spec has it rescale "a
    mapping of non-negative
    numeric values so they form a valid proportional distribution",
    keeping the ratios between the values; the total it rescales to is
    given by example only ("e.g., 100") and is the parameter [scale]. *)
Definition normalize_dict_spec (scale : R) (d : dict) : result dict :=
  let total := fold_right Rplus 0%R (map snd d) in
  Return (map (fun kv => (fst kv, (snd kv / total * scale)%R)) d).

Section Methods.
Context {service : Service}.

(** [self.client]: an attribute error when it was never assigned. *)
Definition self_client (self : GPTClient) : result sdk_client :=
  match client self with
  | Some c => Return c
  | None => Raise (AttributeError "client")
  end.

Definition get_completion (self : GPTClient) (messages : list message)
    (model : string) (o : options) : result Completion :=
  let params :=
    {| req_model := model; req_messages := messages;
       req_max_tokens := max_tokens o; req_temperature := temperature o;
       req_stop := stop o; req_seed := seed o;
       req_logprobs := logprobs o; req_top_logprobs := top_logprobs o;
       req_tools := match tools o with [] => None | ts => Some ts end |} in
  c ← self_client self;
  chat_completions_create c params.

Definition get_explanation (self : GPTClient) (messages : list message)
    (model : string) (o : options) : result string :=
  response ← get_completion self messages model o;
  choice ← index (choices response) 0;
  mret (message_content choice).

(** The inner [for valid_token in valid_tokens] of [get_answer], for one
    candidate [c]. *)
Fixpoint scan_valid (c : TopLogprob) (valid_tokens : list string)
    (output : dict) : dict :=
  match valid_tokens with
  | [] => output
  | valid_token :: rest =>
      scan_valid c rest
        (if startswith valid_token (upper (token c))
         then dict_set (token c) (exp (logprob c) * 100)%R output
         else output)
  end.

(** The outer [for logprob in top_responses] with its [break]; the
    second component is the list of candidates the loop never reached. *)
Fixpoint scan (valid_tokens : list string) (top_responses : list TopLogprob)
    (output : dict) : dict * list TopLogprob :=
  match top_responses with
  | [] => (output, [])
  | c :: rest =>
      let output' := scan_valid c valid_tokens output in
      if (length output' =? length valid_tokens)%nat
      then (output', rest)
      else scan valid_tokens rest output'
  end.

(** A candidate matches when its upper-cased text is a prefix of some
    valid token; [store_candidate] is what one round of the outer loop
    amounts to, and [stored] the dictionary after some rounds. *)
Definition matches (valid_tokens : list string) (c : TopLogprob) : bool :=
  existsb (fun valid_token => startswith valid_token (upper (token c)))
          valid_tokens.

Definition store_candidate (valid_tokens : list string) (output : dict)
    (c : TopLogprob) : dict :=
  if matches valid_tokens c
  then dict_set (token c) (exp (logprob c) * 100)%R output
  else output.

Definition stored (valid_tokens : list string) (cs : list TopLogprob) : dict :=
  fold_left (store_candidate valid_tokens) cs [].

(** The last candidate of [cs] that matches and whose text is [k]. *)
Definition last_match (valid_tokens : list string) (k : string)
    (cs : list TopLogprob) : option TopLogprob :=
  List.find (fun c => String.eqb (token c) k && matches valid_tokens c)
            (rev cs).

(** [max(output, key=output.get)]: the first key, in iteration order,
    whose value is largest; a [ValueError] on an empty dictionary. *)
Definition key_value (d : dict) (k : string) : R :=
  default 0%R (dict_get k d).

Fixpoint max_from (d : dict) (best : string) (keys : list string) : string :=
  match keys with
  | [] => best
  | k :: keys' =>
      if Rlt_dec (key_value d best) (key_value d k)
      then max_from d k keys'
      else max_from d best keys'
  end.

Definition max_key (d : dict) : result string :=
  match dict_keys d with
  | [] => Raise (ValueError "max() arg is an empty sequence")
  | k :: keys => Return (max_from d k keys)
  end.

(** [min(5, top_logprobs)]; comparing with [None] is a type error. *)
Definition min5 (top : option Z) : result Z :=
  match top with
  | Some n => Return (Z.min 5 n)
  | None => Raise TypeError
  end.

(** The candidates read from a response,
    [response.choices[0].logprobs.content[0].top_logprobs]. *)
Definition top_responses_of (response : Completion) : result (list TopLogprob) :=
  choice ← index (choices response) 0;
  content ← match logprobs_content choice with
            | Some content => Return content
            | None => Raise (AttributeError "content")
            end;
  first ← index content 0;
  mret (top_logprobs_of first).

(** What [get_answer] does with the response of the service. *)
Definition answer_of (valid_tokens : list string) (response : Completion)
  : result (string * dict) :=
  top_responses ← top_responses_of response;
  let output := fst (scan valid_tokens top_responses []) in
  output ← normalize_dict output;
  best ← max_key output;
  mret (best, output).

Definition get_answer (self : GPTClient) (valid_tokens : list string)
    (messages : list message) (model : string) (o : options)
  : result (string * dict) :=
  top ← min5 (top_logprobs o);
  response ← get_completion self messages model
    {| max_tokens := max_tokens o; temperature := temperature o;
       stop := stop o; seed := seed o; tools := tools o;
       logprobs := logprobs o; top_logprobs := Some top |};
  answer_of valid_tokens response.
End Methods.

(** A rescaling keeps the keys of the dictionary it is given. *)
Definition keeps_keys (normalize : dict -> result dict) : Prop :=
  forall d d', normalize d = Return d' -> dict_keys d' = dict_keys d.

(** No candidate that the service reports for the first token matches a
    valid token. *)
Definition no_candidate_matches {service : Service}
    (valid_tokens : list string) : Prop :=
  forall c request response cs,
    chat_completions_create c request = Return response ->
    top_responses_of response = Return cs ->
    Forall (fun c => matches valid_tokens c = false) cs.

(** *** An example service *)

(** A completion whose first generated token has the candidates [cs], a
    service that always answers with it and normalises to a total of 100,
    a client built for the OpenAI service, and the keyword arguments of a
    constrained one-token answer over [n] options. *)
Definition completion_with (cs : list TopLogprob) : Completion :=
  {| choices :=
       [{| message_content := "";
           logprobs_content := Some [{| top_logprobs_of := cs |}] |}] |}.

Definition service_with (cs : list TopLogprob) : Service :=
  {| chat_completions_create := fun _ _ => Return (completion_with cs);
     normalize_dict := normalize_dict_spec 100 |}.

Definition openai_client : GPTClient := {| client := Some (OpenAI "sk-example") |}.

Definition answer_options (n : Z) : options :=
  {| max_tokens := Some 1; temperature := 0%R; stop := None; seed := 123;
     tools := []; logprobs := Some true; top_logprobs := Some (n * 2) |}.

Definition candidate (tok : string) (lp : R) : TopLogprob :=
  {| token := tok; logprob := lp |}.

End Client.

(** ** The response generation engine: [get_response], [get_response_hf] *)

Module Engine.

(** What [reconstruct_context] returns: a list of chat turns, or one
    string, depending on the chat type. *)
Inductive context : Type :=
| Chat (turns : list message)
| Flat (text : string).

(** A row appended to [parsed_results]: explanation, answer, probabilities. *)
Definition row (P : Type) : Type := (string * string * P)%type.

(** [np.array(parsed_results).T.tolist()]: the rows turned into columns. An
    array built from no row has one axis of length 0, and so has its
    transpose: the result is the empty list, not three empty columns. *)
Inductive cell (P : Type) : Type :=
| Text (s : string)
| Probs (p : P).
Arguments Text {P} s.
Arguments Probs {P} p.

Definition transpose_rows {P} (parsed_results : list (row P))
  : list (list (cell P)) :=
  match parsed_results with
  | [] => []
  | _ =>
      [map (fun r => Text (fst (fst r))) parsed_results;
       map (fun r => Text (snd (fst r))) parsed_results;
       map (fun r => Probs (snd r)) parsed_results]
  end.

Definition is_sequential (question_type : string) : bool :=
  String.eqb question_type "sequential-hidden"
  || String.eqb question_type "sequential-shown".

(** Helpers of [utils.question_utils], [utils.response_utils] and
    [utils.parsing_utils] that the engine calls; these files are not part
    of the source tree. [Prefix] is the type of the few-shot prefix and
    [Prompt] of what [append_question] builds. Each call of
    [reconstruct_context] is taken to build a context of its own. *)
Class Helpers (Prefix Prompt : Type) : Type := {
  reconstruct_context : Prefix -> list string -> list string -> string -> context;
  append_question : context -> string -> string -> Prompt;
  parse_response : string -> list (list string) -> nat -> string * string;
  find_answer_letter : string -> string
}.

(** The 26 upper-case letters, [OPTIONS = list(ascii_uppercase)]. *)
Definition OPTIONS : list string :=
  map (fun n => String (ascii_of_nat (65 + n)) EmptyString) (seq 0 26).

(** Modelled from the spec: [utils/utils.py], where [get_option_letters]
    is defined, is not part of the source tree. The spec: it "returns, per
    question, the list of valid uppercase letters corresponding to that
    question's option count". *)
Definition get_option_letters (options_lst : list (list string))
  : list (list string) :=
  map (fun options => firstn (length options) OPTIONS) options_lst.

(** *** The hosted-API entry point *)

(** The [client] argument: any object with the two methods. The keyword
    arguments the engine passes are those recorded in [call]. *)
Inductive call : Type :=
| GetAnswer (valid_tokens : list string) (model : string)
    (messages : list message) (max_tokens : Z) (logprobs : bool)
    (top_logprobs : Z)
| GetExplanation (model : string) (messages : list message).

Class ClientObject : Type := {
  get_answer : list string -> string -> list message -> Z -> bool -> Z
               -> result (string * dict);
  get_explanation : string -> list message -> result string
}.

(** The client [eval_models] passes is a [GPTClient]; the keyword
    arguments the engine does not give keep their defaults, and the
    explanation is asked with [max_tokens = None]. *)
Definition GPTClient_object {service : Client.Service}
    (self : Client.GPTClient) : ClientObject :=
  {| get_answer := fun valid_tokens model messages max_tokens logprobs top =>
       Client.get_answer self valid_tokens messages model
         {| Client.max_tokens := Some max_tokens; Client.temperature := 0%R;
            Client.stop := None; Client.seed := 123; Client.tools := [];
            Client.logprobs := Some logprobs;
            Client.top_logprobs := Some top |};
     get_explanation := fun model messages =>
       Client.get_explanation self messages model
         {| Client.max_tokens := None; Client.temperature := 0%R;
            Client.stop := None; Client.seed := 123; Client.tools := [];
            Client.logprobs := None; Client.top_logprobs := None |} |}.

Section Hosted.
Context {Prefix Prompt : Type} {helpers : Helpers Prefix Prompt}
        {client_object : ClientObject}.

Definition call_get_answer (valid_tokens : list string) (model : string)
    (messages : list message) (top : Z) : ST (list call) (string * dict) :=
  fun log =>
    (get_answer valid_tokens model messages 1 true top,
     log ++ [GetAnswer valid_tokens model messages 1 true top]).

Definition call_get_explanation (model : string) (messages : list message)
  : ST (list call) string :=
  fun log =>
    (get_explanation model messages, log ++ [GetExplanation model messages]).

(** Adding the question to the reconstructed context: a new user turn
    when there is more than one turn, otherwise onto the content of the
    first turn. A string context has no [append] and no string keys. *)
Definition add_question (ctx : context) (question : string)
  : result (list message) :=
  match ctx with
  | Chat turns =>
      if (1 <? length turns)%nat then
        Return (turns ++ [{| role := "user"; content := question |}])
      else
        match turns with
        | [] => Raise IndexError
        | m :: rest =>
            Return ({| role := role m;
                       content := content m +:+ newline +:+ question |}
                    :: rest)
        end
  | Flat text =>
      if (1 <? String.length text)%nat then Raise (AttributeError "append")
      else if (String.length text =? 0)%nat then Raise IndexError
      else Raise TypeError
  end.

(** The loop variables are [outputs] and [parsed_results]. *)
Definition get_response_body (model : string) (prefix : Prefix)
    (questions : list string) (question_type : string)
    (options_lst : list (list string)) (chat_type : string)
    (i : nat) (question : string)
    (v : list string * list (row dict))
  : ST (list call) (list string * list (row dict)) :=
  let '(outputs, parsed_results) := v in
  let ctx := reconstruct_context prefix (firstn i questions) outputs chat_type in
  messages ← lift (add_question ctx question);
  if String.eqb question_type "mc" then
    valid_tokens ← lift (index (get_option_letters options_lst) i);
    options ← lift (index options_lst i);
    '(answer, probs) ← call_get_answer valid_tokens model messages
                         (Z.of_nat (length options) * 2);
    mret (outputs ++ [answer], parsed_results ++ [("", answer, probs)])
  else if String.eqb question_type "explanation" then
    output ← call_get_explanation model messages;
    let '(explanation, answer) := parse_response output options_lst i in
    mret (outputs ++ [output], parsed_results ++ [(explanation, answer, [])])
  else if (i mod 2 =? 0)%nat && is_sequential question_type then
    output ← call_get_explanation model messages;
    mret (outputs ++ [output], parsed_results)
  else if (i mod 2 =? 1)%nat && is_sequential question_type then
    valid_tokens ← lift (index (get_option_letters options_lst) (i / 2));
    options ← lift (index options_lst (i / 2));
    '(answer, probs) ← call_get_answer valid_tokens model messages
                         (Z.of_nat (length options) * 2);
    explanation ← lift (index (outputs ++ [answer]) (i - 1));
    mret (outputs ++ [answer], parsed_results ++ [(explanation, answer, probs)])
  else
    mret (outputs, parsed_results).

(** One run of [get_response]. The decorator
    [backoff.on_exception(backoff.expo, openai.RateLimitError)] runs the
    function again, from the start, when a run raises a rate-limit error. *)
Definition get_response (model : string) (prefix : Prefix)
    (questions : list string) (question_type : string)
    (options_lst : list (list string)) (chat_type : string)
  : ST (list call) (list (list (cell dict))) :=
  '(_, parsed_results) ←
    for_enumerate
      (get_response_body model prefix questions question_type options_lst
         chat_type)
      0 questions ([], []);
  mret (transpose_rows parsed_results).
End Hosted.

(** *** The local-model entry point *)

(** The local model behind [HF_RESPONSE] and [get_explanation_probs] (of
    [utils.response_utils], not part of the source tree). The model, the
    tokenizer and the device are the same for a whole call of
    [get_response_hf] and are left out of the records. [P] is the type of
    the probabilities the local model reports. *)
Inductive hf_call (Prompt : Type) : Type :=
| HFAnswer (mode : string) (prompt : Prompt) (options : list string)
    (chat_type : string)
| HFExplanation (prompt : Prompt) (chat_type : string)
| HFExplanationProbs (ctx : context) (output : string) (options : list string).
Arguments HFAnswer {Prompt} mode prompt options chat_type.
Arguments HFExplanation {Prompt} prompt chat_type.
Arguments HFExplanationProbs {Prompt} ctx output options.

Class LocalModel (Prompt P : Type) : Type := {
  HF_RESPONSE_answer : string -> Prompt -> list string -> string
                       -> result (string * P);
  HF_RESPONSE_explanation : Prompt -> string -> result string;
  get_explanation_probs : context -> string -> list string
                          -> result (string * P)
}.

Section Local.
Context {Prefix Prompt P : Type} {helpers : Helpers Prefix Prompt}
        {local_model : LocalModel Prompt P}.

Definition call_hf_answer (mode : string) (prompt : Prompt)
    (options : list string) (chat_type : string)
  : ST (list (hf_call Prompt)) (string * P) :=
  fun log =>
    (HF_RESPONSE_answer mode prompt options chat_type,
     log ++ [HFAnswer mode prompt options chat_type]).

Definition call_hf_explanation (prompt : Prompt) (chat_type : string)
  : ST (list (hf_call Prompt)) string :=
  fun log =>
    (HF_RESPONSE_explanation prompt chat_type,
     log ++ [HFExplanation prompt chat_type]).

Definition call_get_explanation_probs (ctx : context) (output : string)
    (options : list string) : ST (list (hf_call Prompt)) (string * P) :=
  fun log =>
    (get_explanation_probs ctx output options,
     log ++ [HFExplanationProbs ctx output options]).

Definition get_response_hf_body (prefix : Prefix)
    (questions : list string) (question_type : string)
    (options_lst : list (list string)) (chat_type : string)
    (i : nat) (question : string)
    (v : list string * list (row P))
  : ST (list (hf_call Prompt)) (list string * list (row P)) :=
  let '(outputs, parsed_results) := v in
  let ctx := reconstruct_context prefix (firstn i questions) outputs chat_type in
  let prompt := append_question ctx question chat_type in
  if String.eqb question_type "mc" || String.eqb question_type "mc-separate" then
    options ← lift (index options_lst i);
    '(answer, probs) ← call_hf_answer question_type prompt options chat_type;
    mret (outputs ++ [answer], parsed_results ++ [("", answer, probs)])
  else if String.eqb question_type "explanation" then
    output ← call_hf_explanation prompt chat_type;
    let answer_letter := find_answer_letter output in
    options ← lift (index options_lst i);
    '(_, probs) ← call_get_explanation_probs ctx output options;
    mret (outputs ++ [output], parsed_results ++ [(output, answer_letter, probs)])
  else if (i mod 2 =? 0)%nat && is_sequential question_type then
    output ← call_hf_explanation prompt chat_type;
    mret (outputs ++ [output], parsed_results)
  else if (i mod 2 =? 1)%nat && is_sequential question_type then
    options ← lift (index options_lst i);
    '(answer, probs) ← call_hf_answer "mc" prompt options chat_type;
    explanation ← lift (index (outputs ++ [answer]) (i - 1));
    mret (outputs ++ [answer], parsed_results ++ [(explanation, answer, probs)])
  else
    mret (outputs, parsed_results).

Definition get_response_hf (prefix : Prefix)
    (questions : list string) (question_type : string)
    (options_lst : list (list string)) (chat_type : string)
  : ST (list (hf_call Prompt)) (list (list (cell P))) :=
  '(_, parsed_results) ←
    for_enumerate
      (get_response_hf_body prefix questions question_type options_lst
         chat_type)
      0 questions ([], []);
  mret (transpose_rows parsed_results).
End Local.

(** *** What the sequential properties are stated with *)

(** The context builder hands the hosted entry point at least one chat
    turn, whatever questions and outputs it is given. *)
Definition chat_contexts {Prefix Prompt} {helpers : Helpers Prefix Prompt}
    (prefix : Prefix) (chat_type : string) : Prop :=
  forall qs outs, exists m turns,
    reconstruct_context prefix qs outs chat_type = Chat (m :: turns).

(** The backends answer every call. *)
Definition client_returns {client_object : ClientObject} : Prop :=
  (forall v m msgs k b t, returns (get_answer v m msgs k b t))
  /\ (forall m msgs, returns (get_explanation m msgs)).

Definition local_model_returns {Prompt P} {local_model : LocalModel Prompt P}
  : Prop :=
  (forall mode p o c, returns (HF_RESPONSE_answer mode p o c))
  /\ (forall p c, returns (HF_RESPONSE_explanation p c)).

(** One round of the loop, at index [i], in a sequential mode: at an even
    index a new output and no record; at an odd index the answer as new
    output and one record, made of the output recorded at index [i - 1]
    and of the answer and the probabilities the round obtained. *)
Definition sequential_round {C P}
    (body : nat -> string -> list string * list (row P)
            -> ST (list C) (list string * list (row P))) : Prop :=
  forall i question outputs parsed log outputs' parsed' log',
    length outputs = i ->
    body i question (outputs, parsed) log = (Return (outputs', parsed'), log') ->
    if (i mod 2 =? 0)%nat then
      parsed' = parsed /\ exists output, outputs' = outputs ++ [output]
    else
      exists explanation answer probs,
        nth_error outputs (i - 1) = Some explanation
        /\ outputs' = outputs ++ [answer]
        /\ parsed' = parsed ++ [(explanation, answer, probs)].

(** The valid tokens of the constrained answers asked of the client, and
    the options of those asked of the local model, in the order asked. *)
Definition answer_tokens (log : list call) : list (list string) :=
  omap (fun c => match c with
                 | GetAnswer valid_tokens _ _ _ _ _ => Some valid_tokens
                 | GetExplanation _ _ => None
                 end) log.

Definition hf_answer_options {Prompt} (log : list (hf_call Prompt))
  : list (list string) :=
  omap (fun c => match c with
                 | HFAnswer _ _ options _ => Some options
                 | _ => None
                 end) log.

(** *** Example backends *)

(** A context builder that opens with a system turn and replays the
    earlier questions and outputs; a client that always explains with the
    same sentence and answers with the first valid token; a local model
    that answers with the first letter and reports the options it was
    given. *)
Fixpoint replay (qs outs : list string) : list message :=
  match qs, outs with
  | q :: qs', o :: outs' =>
      {| role := "user"; content := q |}
      :: {| role := "assistant"; content := o |} :: replay qs' outs'
  | _, _ => []
  end.

Definition example_helpers : Helpers (list message) (context * string) :=
  {| reconstruct_context := fun prefix qs outs _ =>
       Chat ({| role := "system"; content := "Answer the questions." |}
             :: prefix ++ replay qs outs);
     append_question := fun ctx question _ => (ctx, question);
     parse_response := fun output _ _ => (output, "A");
     find_answer_letter := fun _ => "A" |}.

Definition example_client : ClientObject :=
  {| get_answer := fun valid_tokens _ _ _ _ _ =>
       Return (hd "" valid_tokens, map (fun t => (t, 0%R)) valid_tokens);
     get_explanation := fun _ _ => Return "Because." |}.

Definition example_local_model : LocalModel (context * string) (list string) :=
  {| HF_RESPONSE_answer := fun _ _ options _ => Return ("A", options);
     HF_RESPONSE_explanation := fun _ _ => Return "Because.";
     get_explanation_probs := fun _ output options => Return (output, options) |}.

(** Four questions, explanation and answer in turn, and one list of
    options per question, of 2, 3, 4 and 5 options. *)
Definition example_questions : list string :=
  ["Explain Q0."; "Answer Q0."; "Explain Q1."; "Answer Q1."].

Definition example_options : list (list string) :=
  [["yes"; "no"];
   ["red"; "green"; "blue"];
   ["north"; "east"; "south"; "west"];
   ["one"; "two"; "three"; "four"; "five"]].

(** A context builder for a chat type without turns: the prefix, the
    earlier questions and the outputs, joined into one string. *)
Definition flat_helpers : Helpers string string :=
  {| reconstruct_context := fun prefix qs outs _ =>
       Flat (fold_left (fun acc s => acc +:+ newline +:+ s) (qs ++ outs) prefix);
     append_question := fun ctx question _ =>
       match ctx with
       | Flat text => text +:+ newline +:+ question
       | Chat _ => question
       end;
     parse_response := fun output _ _ => (output, "A");
     find_answer_letter := fun _ => "A" |}.

End Engine.

(** ** The orchestrator: parameter grid and results records *)

Module Orchestrator.

(** The values stored in parameter dictionaries and results records. *)
Inductive value : Type :=
| VStr (s : string)
| VInt (z : Z)
| VBool (b : bool)
| VNum (x : R)
| VDict (d : dict)
| VList (l : list R).

(** A dictionary with string keys, such as a parameter combination or a
    results record, and a table as its list of rows. *)
Abbreviation record := (odict value).
Abbreviation table := (list (odict value)).

(** Modelled from the spec: [utils/utils.py], where [ParameterGrid] is
    defined, is not part of the source tree. The spec: "given a list of
    option-set mappings, each
    key mapped to a list of candidate values, produces a lazy sequence of
    every combination (Cartesian product) across all supplied option sets,
    each combination expressed as a flat mapping". *)
Fixpoint combinations (grid : list (string * list value)) : list record :=
  match grid with
  | [] => [[]]
  | (key, values) :: grid' =>
      flat_map (fun v => map (dict_set key v) (combinations grid')) values
  end.

Definition ParameterGrid (grids : list (list (string * list value)))
  : list record :=
  flat_map combinations grids.

(** The grid [eval_models] sets up; [num_sample] is [args['num_sample']]. *)
Definition param_grid (num_sample : Z) : list record :=
  ParameterGrid
    [[("num_shots", [VInt 0]);
      ("allow_explanation", [VBool false]);
      ("question_type", [VStr "mc"; VStr "mc-separate"]);
      ("num_sample", [VInt num_sample])]].

(** *** Shared dictionaries *)

(** Dictionaries are objects: a variable holds a reference to one, and an
    assignment through one reference is seen through every other. The
    store lists the dictionaries allocated so far. *)
Definition ref : Type := nat.
Definition store : Type := list (odict value).

Definition deref (r : ref) : ST store record :=
  fun h =>
    match h !! r with
    | Some d => (Return d, h)
    | None => (Raise (RuntimeError "dangling reference"), h)
    end.

Definition alloc (d : record) : ST store ref :=
  fun h => (Return (length h), h ++ [d]).

(** [d.copy()] *)
Definition copy (r : ref) : ST store ref := d ← deref r; alloc d.

(** An update in place of the dictionary [r] refers to. *)
Definition update (r : ref) (f : record -> record) : ST store unit :=
  fun h =>
    match h !! r with
    | Some d => (Return tt, <[r := f d]> h)
    | None => (Raise (RuntimeError "dangling reference"), h)
    end.

(** [d[key] = v] *)
Definition setitem (r : ref) (key : string) (v : value) : ST store unit :=
  update r (dict_set key v).

(** [d[key]] *)
Definition getitem (r : ref) (key : string) : ST store value :=
  d ← deref r;
  match dict_get key d with
  | Some v => mret v
  | None => raise (KeyError key)
  end.

(** [d.pop(key)] *)
Definition pop (r : ref) (key : string) : ST store value :=
  v ← getitem r key;
  update r (dict_del key);;
  mret v.

(** What is stored under [key] in the dictionary [r] refers to. *)
Definition field (r : ref) (key : string) (h : store) : option value :=
  d ← h !! r; dict_get key d.

(** [a - b] on numbers; a boolean counts as 0 or 1. *)
Definition value_sub (a b : value) : result value :=
  let int_of v :=
    match v with
    | VInt z => Some z
    | VBool b => Some (if b then 1 else 0)
    | _ => None
    end in
  match int_of a, int_of b, a, b with
  | Some x, Some y, _, _ => Return (VInt (x - y))
  | Some x, None, _, VNum y => Return (VNum (IZR x - y))
  | None, Some y, VNum x, _ => Return (VNum (x - IZR y))
  | None, None, VNum x, VNum y => Return (VNum (x - y))
  | _, _, _, _ => Raise TypeError
  end.

(** Helpers of [utils.response_utils] and [utils.question_utils] that the
    records are built with; these files are not part of the source tree.
    The answers table [ANSWERS_DF] is a global that does not change while
    records are built, and is part of the functions. [Perms] is the type
    of [permutations]. *)
Class Scoring (Perms : Type) : Type := {
  get_correct : value -> value -> value;
  get_random_acc : value -> value;
  get_true_labels : value -> list R;
  convert_probabilities : value -> nat -> Perms -> list R;
  compute_ece : list R -> list R -> value
}.

Section Records.
Context {Perms : Type} {scoring : Scoring Perms}.

(** [results = params] binds a second name to the caller's dictionary:
    every assignment below is made in that one dictionary, and the
    reference returned is the one received. *)
Definition create_results_dict (params : ref) (task_name model_name : value)
    (base_id : string) (sub_id : nat)
    (permuted_answer model_answer model_explanation probabilities : value)
    (permutations : Perms) : ST store ref :=
  let results := params in
  setitem results "task_name" task_name;;
  setitem results "model" model_name;;
  setitem results "question_id" (VStr (base_id +:+ "_" +:+ str_of_nat sub_id));;
  setitem results "permuted_answer" permuted_answer;;
  setitem results "model_answer" model_answer;;
  setitem results "model_explanation" model_explanation;;
  setitem results "probabilities" probabilities;;
  question_id ← getitem results "question_id";
  setitem results "accuracy" (get_correct question_id permuted_answer);;
  accuracy ← getitem results "accuracy";
  question_id ← getitem results "question_id";
  normalized ← lift (value_sub accuracy (get_random_acc question_id));
  setitem results "normalized_accuracy" normalized;;
  question_id ← getitem results "question_id";
  let true_labels := get_true_labels question_id in
  let probabilities_list :=
    convert_probabilities probabilities sub_id permutations in
  setitem results "expected_calibration"
    (compute_ece probabilities_list true_labels);;
  mret results.

(** [for data in task_data: result_params[data] = task_data[data]] *)
Fixpoint update_from (r : ref) (task_data : list (string * value))
  : ST store unit :=
  match task_data with
  | [] => mret tt
  | (data, v) :: rest => setitem r data v;; update_from r rest
  end.

(** The part of [eval_models] that stores the results of one base
    question: the per-row parameters, the list comprehension over
    [enumerate(permuted_answers)], [pd.DataFrame.from_records], which
    reads the dictionaries the list refers to, and [pd.concat], which
    appends the rows read. *)
Definition build_results (result_params : ref) (task_name model_name : value)
    (base_id : string)
    (permuted_answers model_answers model_explanations probabilities
       : list value)
    (permutations : Perms) : ST store (list ref) :=
  for_enumerate
    (fun i permuted_answer results =>
       model_answer ← lift (index model_answers i);
       model_explanation ← lift (index model_explanations i);
       probabilities_i ← lift (index probabilities i);
       r ← create_results_dict result_params task_name model_name base_id i
             permuted_answer model_answer model_explanation probabilities_i
             permutations;
       mret (results ++ [r]))
    0 permuted_answers [].

Definition from_records (results : list ref) : ST store table :=
  mapM deref results.

Definition store_results (params : ref) (task_data : list (string * value))
    (task_name model_name : value) (base_id : string)
    (permuted_answers model_answers model_explanations probabilities
       : list value)
    (permutations : Perms) (results_df : table) : ST store table :=
  result_params ← copy params;
  update_from result_params task_data;;
  pop result_params "num_sample";;
  results ← build_results result_params task_name model_name base_id
              permuted_answers model_answers model_explanations
              probabilities permutations;
  rows ← from_records results;
  mret (results_df ++ rows).
End Records.

(** The keys [create_results_dict] assigns. *)
Definition results_keys : list string :=
  ["task_name"; "model"; "question_id"; "permuted_answer"; "model_answer";
   "model_explanation"; "probabilities"; "accuracy"; "normalized_accuracy";
   "expected_calibration"].

(** *** Metadata records *)

(** The part of [eval_models] that builds the metadata of one base
    question. The dictionary display in the comprehension makes a new
    dictionary for each permutation; [prompt] is [test_questions], the
    same list in every row. *)
Section Metadata.
Context {Perm : Type}.

Record metadata_row : Type := {
  task_name : value;
  model_name : value;
  question_id : string;
  permutation : Perm;
  prompt : list string;
  inference_time : R
}.

Definition result_metadata (args_task_name model : value) (base_id : string)
    (permutations : list Perm) (test_questions : list string)
    (elapsed : R) : list metadata_row :=
  imap (fun i permutation_i =>
          {| task_name := args_task_name;
             model_name := model;
             question_id := base_id +:+ "_" +:+ str_of_nat i;
             permutation := permutation_i;
             prompt := test_questions;
             inference_time := elapsed |})
       permutations.
End Metadata.
Arguments metadata_row Perm : clear implicits.

(** *** An example run *)

(** A scoring that marks every answer correct; the first parameter
    combination of the grid for 5 samples; the classification fields of a
    base question; and the base question "7" with two answered
    sub-questions: the model answered A then B, which the permutations
    turn into C and D. *)
Definition example_scoring : Scoring unit :=
  {| get_correct := fun _ _ => VInt 1;
     get_random_acc := fun _ => VInt 0;
     get_true_labels := fun _ => [];
     convert_probabilities := fun _ _ _ => [];
     compute_ece := fun _ _ => VInt 0 |}.

Definition example_params : record :=
  hd [] (param_grid 5).

Definition example_task_data : list (string * value) :=
  [("domain", VStr "physics"); ("type", VStr "recall");
   ("difficulty_level", VStr "easy")].

(** The record both rows of the example end up with. *)
Definition example_row : record :=
  [("question_type", VStr "mc"); ("allow_explanation", VBool false);
   ("num_shots", VInt 0); ("domain", VStr "physics");
   ("type", VStr "recall"); ("difficulty_level", VStr "easy");
   ("task_name", VStr "steer"); ("model", VStr "gpt-4");
   ("question_id", VStr "7_1"); ("permuted_answer", VStr "D");
   ("model_answer", VStr "B"); ("model_explanation", VStr "");
   ("probabilities", VDict []); ("accuracy", VInt 1);
   ("normalized_accuracy", VInt 1); ("expected_calibration", VInt 0)].

Definition example_run : ST store table :=
  store_results (scoring := example_scoring) 0%nat example_task_data
    (VStr "steer") (VStr "gpt-4") "7"
    [VStr "C"; VStr "D"] [VStr "A"; VStr "B"]
    [VStr ""; VStr ""] [VDict []; VDict []] tt [].

End Orchestrator.

(** ** The local model loader: [build_kwargs], [load_model],
       [load_model_tokenizer] *)

Module Loader.

Inductive dtype : Type := float32 | float16.

(** The [kwargs] dictionary: ["torch_dtype"] is always a key of it,
    ["device_map"] and ["max_memory"] only once assigned. ["max_memory"]
    maps device numbers to text, in the order of [range(num_gpus)]. *)
Record kwargs : Type := {
  torch_dtype : dtype;
  device_map : option string;
  max_memory : option (list (Z * string))
}.

(** [range(n)] *)
Definition range (n : Z) : list Z := map Z.of_nat (seq 0 (Z.to_nat n)).

(** [int(x)] on a float: truncation towards zero. *)
Definition int_of_Q (x : Q) : Z := Z.quot (Qnum x) (Z.pos (Qden x)).

(** [str(int(free * 0.85)) + "GiB"] *)
Definition cap_of (free : Q) : string :=
  str_of_Z (int_of_Q (free * (85 # 100))) +:+ "GiB".

(** [os.path.join(a, b)] on a POSIX system. *)
Definition path_join (a b : string) : string :=
  if String.prefix "/" b then b
  else if (String.length a =? 0)%nat then b
  else if String.eqb (substring (String.length a - 1) 1 a) "/" then a +:+ b
  else a +:+ "/" +:+ b.

(** What the loader prints. *)
Inductive printed : Type :=
| SkippingModel (base_path : string)
| LoadingModelFrom (model_path : string)
| ErrorLoadingModel (error : exn).

(** The machine the loader runs on: [get_gpu_memory] of [utils.utils]
    (not part of the source tree: the free memory, in GiB, of the devices
    it was asked about), the file system, and the [transformers]
    loaders, which read the checkpoint with [local_files_only=True] and
    [trust_remote_code=True]. *)
Class Machine (Model Tokenizer : Type) : Type := {
  get_gpu_memory : Z -> list Q;
  path_exists : string -> bool;
  listdir : string -> result (list string);
  AutoTokenizer_from_pretrained : string -> result Tokenizer;
  AutoModelForCausalLM_from_pretrained : string -> kwargs -> result Model;
  AutoModel_from_pretrained_low_cpu_mem : string -> kwargs -> result Model;
  model_to : Model -> string -> result unit
}.

(** A pair [(model, tokenizer)], or the pair [(False, False)]. *)
Inductive loaded (Model Tokenizer : Type) : Type :=
| Loaded (model : Model) (tokenizer : Tokenizer)
| FalseFalse.
Arguments Loaded {Model Tokenizer} model tokenizer.
Arguments FalseFalse {Model Tokenizer}.

Section Loading.
Context {Model Tokenizer : Type} {machine : Machine Model Tokenizer}.

Definition print {A} (p : printed) (a : A) : ST (list printed) A :=
  fun out => (Return a, out ++ [p]).

Definition build_kwargs (device : string) (num_gpus : Z)
    (max_gpu_mem : option string) : result kwargs :=
  if String.eqb device "cpu" then
    mret {| torch_dtype := float32; device_map := None; max_memory := None |}
  else if String.eqb device "cuda" then
    if negb (num_gpus =? 1) then
      match max_gpu_mem with
      | None =>
          let available_gpu_memory := get_gpu_memory num_gpus in
          caps ← mapM (fun i => free ← index available_gpu_memory (Z.to_nat i);
                                mret (i, cap_of free))
                      (range num_gpus);
          mret {| torch_dtype := float16; device_map := Some "sequential";
                  max_memory := Some caps |}
      | Some cap =>
          mret {| torch_dtype := float16; device_map := Some "auto";
                  max_memory := Some (map (fun i => (i, cap)) (range num_gpus)) |}
      end
    else
      mret {| torch_dtype := float16; device_map := None; max_memory := None |}
  else
    Raise (ValueError ("Invalid device: " +:+ device)).

Definition load_model (base_path : string) (from_pretrained_kwargs : kwargs)
  : ST (list printed) (loaded Model Tokenizer) :=
  if negb (path_exists base_path) then
    print (SkippingModel base_path) FalseFalse
  else
    tokenizer ← lift (AutoTokenizer_from_pretrained base_path);
    model ← lift
      match AutoModelForCausalLM_from_pretrained base_path from_pretrained_kwargs with
      | Raise NameError =>
          AutoModel_from_pretrained_low_cpu_mem base_path from_pretrained_kwargs
      | r => r
      end;
    mret (Loaded model tokenizer).

(** [try: ... except Exception as error: print(...); return False, False]
    around the call of [load_model], and nothing else. *)
Definition try_load_model (model_path : string) (kw : kwargs)
  : ST (list printed) (loaded Model Tokenizer) :=
  fun out =>
    match load_model model_path kw out with
    | (Raise error, out') =>
        if is_Exception error
        then print (ErrorLoadingModel error) FalseFalse out'
        else (Raise error, out')
    | r => r
    end.

Definition load_model_tokenizer (model_path device : string) (num_gpus : Z)
    (max_gpu_mem : option string)
  : ST (list printed) (loaded Model Tokenizer) :=
  kw ← lift (build_kwargs device num_gpus max_gpu_mem);
  let model_path := path_join model_path "snapshots/" in
  entries ← lift (listdir model_path);
  first ← lift (index entries 0);
  let model_path := path_join model_path first in
  print (LoadingModelFrom model_path) tt;;
  r ← try_load_model model_path kw;
  match r with
  | Loaded model tokenizer =>
      if String.eqb device "cuda" && (num_gpus =? 1) then
        lift (model_to model device);;
        mret (Loaded model tokenizer)
      else mret (Loaded model tokenizer)
  | FalseFalse => mret FalseFalse
  end.
End Loading.

(** *** Example machines *)

(** A machine with three devices that have 24, 12.5 and 8 GiB free, whose
    checkpoints all load, and on which listing a directory gives
    [entries]. *)
Definition machine_with (entries : result (list string)) : Machine unit unit :=
  {| get_gpu_memory := fun n => firstn (Z.to_nat n) [24 # 1; 25 # 2; 8 # 1];
     path_exists := fun _ => true;
     listdir := fun _ => entries;
     AutoTokenizer_from_pretrained := fun _ => Return tt;
     AutoModelForCausalLM_from_pretrained := fun _ _ => Return tt;
     AutoModel_from_pretrained_low_cpu_mem := fun _ _ => Return tt;
     model_to := fun _ _ => Return tt |}.

(** The same machine when the model directory has no "snapshots" entry. *)
Definition machine_without_snapshots : Machine unit unit :=
  {| get_gpu_memory := fun n => firstn (Z.to_nat n) [24 # 1; 25 # 2; 8 # 1];
     path_exists := fun _ => false;
     listdir := fun path => Raise (FileNotFoundError path);
     AutoTokenizer_from_pretrained := fun _ => Return tt;
     AutoModelForCausalLM_from_pretrained := fun _ _ => Return tt;
     AutoModel_from_pretrained_low_cpu_mem := fun _ _ => Return tt;
     model_to := fun _ _ => Return tt |}.

(** A machine whose model directory has the one snapshot "abc123", and
    whose loaders and move to the device do as given. *)
Definition machine_loading (tokenizer causal_lm auto_model : result unit)
    (moved : result unit) : Machine unit unit :=
  {| get_gpu_memory := fun n => firstn (Z.to_nat n) [24 # 1; 25 # 2; 8 # 1];
     path_exists := fun _ => true;
     listdir := fun _ => Return ["abc123"];
     AutoTokenizer_from_pretrained := fun _ => tokenizer;
     AutoModelForCausalLM_from_pretrained := fun _ _ => causal_lm;
     AutoModel_from_pretrained_low_cpu_mem := fun _ _ => auto_model;
     model_to := fun _ _ => moved |}.

(** A machine on which the snapshot listed has since been removed. *)
Definition machine_snapshot_removed : Machine unit unit :=
  {| get_gpu_memory := fun n => firstn (Z.to_nat n) [24 # 1; 25 # 2; 8 # 1];
     path_exists := fun _ => false;
     listdir := fun _ => Return ["abc123"];
     AutoTokenizer_from_pretrained := fun _ => Return tt;
     AutoModelForCausalLM_from_pretrained := fun _ _ => Return tt;
     AutoModel_from_pretrained_low_cpu_mem := fun _ _ => Return tt;
     model_to := fun _ _ => Return tt |}.

End Loader.

(** * Properties *)

(** ** Computations *)

Lemma index_lt {X} (l : list X) (i : nat) :
  (i < length l)%nat -> exists x, index l i = Return x.
Proof.
  intros Hi. unfold index. destruct (nth_error l i) eqn:E; eauto.
  apply nth_error_None in E. lia.
Qed.

Lemma mapM_Return {A B} (f : A -> result B) (g : A -> B) (l : list A) :
  Forall (fun x => f x = Return (g x)) l ->
  mapM f l = Return (map g l).
Proof.
  induction 1 as [|x l Hx _ IH]; simpl; [reflexivity|].
  rewrite Hx. simpl. rewrite IH. reflexivity.
Qed.

Lemma bind_Return {St A B} (m : ST St A) (f : A -> ST St B) (s s'' : St) (b : B) :
  (m ≫= f) s = (Return b, s'') ->
  exists a s', m s = (Return a, s') /\ f a s' = (Return b, s'').
Proof.
  unfold mbind, ST_bind. destruct (m s) as [[a|e] s']; [eauto | discriminate].
Qed.

Lemma lift_Return {St A} (r : result A) (s s' : St) (a : A) :
  lift r s = (Return a, s') -> r = Return a /\ s' = s.
Proof. unfold lift. intros [= -> ->]. auto. Qed.

Lemma mret_Return {St A} (a a' : A) (s s' : St) :
  (mret a : ST St A) s = (Return a', s') -> a' = a /\ s' = s.
Proof. unfold mret, ST_ret. intros [= -> ->]. auto. Qed.

Lemma for_enumerate_cons {St X V} (body : nat -> X -> V -> ST St V)
    (i : nat) (x : X) (xs : list X) (v : V) (s : St) :
  for_enumerate body i (x :: xs) v s =
  match body i x v s with
  | (Return v', s') => for_enumerate body (S i) xs v' s'
  | (Raise e, s') => (Raise e, s')
  end.
Proof. reflexivity. Qed.

Lemma for_enumerate_unfold {St X V} (body : nat -> X -> V -> ST St V)
    (i : nat) (x : X) (xs : list X) (v : V) :
  for_enumerate body i (x :: xs) v
  = (body i x v ≫= fun v' => for_enumerate body (S i) xs v').
Proof. reflexivity. Qed.

Lemma index_ge {X} (l : list X) (i : nat) :
  (length l <= i)%nat -> index l i = Raise IndexError.
Proof.
  intros Hi. unfold index. apply nth_error_None in Hi. rewrite Hi. reflexivity.
Qed.

Lemma firstn_S_index {X} (l : list X) (i : nat) (x : X) :
  index l i = Return x -> firstn (S i) l = firstn i l ++ [x].
Proof.
  unfold index. revert i.
  induction l as [|y l IH]; intros [|i]; simpl; try discriminate.
  - intros [= ->]. reflexivity.
  - intros H. rewrite (IH i H). reflexivity.
Qed.

(** A loop whose rounds, below index [n], all return and keep [Inv]
    returns, with [Inv] at the index it ends on. *)
Lemma for_enumerate_invariant {St X V} (body : nat -> X -> V -> ST St V)
    (Inv : nat -> V -> St -> Prop) (n : nat) :
  (forall i x v s, (i < n)%nat -> Inv i v s ->
     exists v' s', body i x v s = (Return v', s') /\ Inv (S i) v' s') ->
  forall xs i v s, (i + length xs <= n)%nat -> Inv i v s ->
    exists v' s', for_enumerate body i xs v s = (Return v', s')
                  /\ Inv (i + length xs)%nat v' s'.
Proof.
  intros Hstep. induction xs as [|x xs IH]; intros i v s Hn Hinv.
  - exists v, s. simpl length. rewrite Nat.add_0_r.
    split; [reflexivity | assumption].
  - simpl in Hn.
    destruct (Hstep i x v s) as (v' & s' & Hb & Hinv'); [lia | assumption |].
    rewrite for_enumerate_cons, Hb.
    destruct (IH (S i) v' s') as (v'' & s'' & Hrun & Hinv'');
      [lia | assumption |].
    exists v'', s''. split; [assumption|]. simpl length.
    replace (i + S (length xs))%nat with (S i + length xs)%nat by lia.
    assumption.
Qed.

Lemma for_enumerate_app {St X V} (body : nat -> X -> V -> ST St V)
    (i : nat) (xs ys : list X) (v : V) (s : St) :
  for_enumerate body i (xs ++ ys) v s =
  match for_enumerate body i xs v s with
  | (Return v', s') => for_enumerate body (i + length xs) ys v' s'
  | (Raise e, s') => (Raise e, s')
  end.
Proof.
  revert i v s. induction xs as [|x xs IH]; intros i v s.
  - simpl. rewrite Nat.add_0_r. reflexivity.
  - rewrite <- app_comm_cons, !for_enumerate_cons.
    destruct (body i x v s) as [[v'|e] s']; [|reflexivity].
    rewrite IH. simpl length.
    replace (i + S (length xs))%nat with (S i + length xs)%nat by lia.
    reflexivity.
Qed.

Lemma half_even (i : nat) : (i mod 2 = 0 -> S i / 2 = i / 2)%nat.
Proof.
  intros H. pose proof (Nat.div_mod_eq i 2) as Hi.
  symmetry. apply (Nat.div_unique (S i) 2 (i / 2) 1); lia.
Qed.

Lemma half_odd (i : nat) : (i mod 2 <> 0 -> S i / 2 = S (i / 2))%nat.
Proof.
  intros H. pose proof (Nat.div_mod_eq i 2) as Hi.
  pose proof (Nat.mod_upper_bound i 2).
  symmetry. apply (Nat.div_unique (S i) 2 (S (i / 2)) 0); lia.
Qed.

Lemma half_odd_lt (i n : nat) :
  (i mod 2 <> 0 -> i < n -> i / 2 < n / 2)%nat.
Proof.
  intros H Hlt. pose proof (half_odd i H) as Hs.
  assert (S i / 2 <= n / 2)%nat by (apply Nat.Div0.div_le_mono; lia).
  lia.
Qed.

(** ** The retry helper *)

Module BackoffFacts.
Import Backoff.

Section Facts.
Context {A : Type}.
Variable max_retries : Z.
Variable base_delay : R.
Variable func : nat -> result A.
Variable uniform : nat -> R.

(** One iteration of the [while] loop. *)
Lemma wrapper_loop_step (retries : nat) (log : list event) :
  wrapper_loop max_retries base_delay func uniform retries log =
  if Z_lt_dec (Z.of_nat retries) max_retries then
    match func retries with
    | Return r => (Return (Some r), log ++ [Invoke retries])
    | Raise e =>
        if is_Exception e then
          wrapper_loop max_retries base_delay func uniform (S retries)
            (log ++ failed_round base_delay func uniform retries)
        else (Raise e, log ++ [Invoke retries])
    end
  else (Return None, log ++ [PrintMaxRetries]).
Proof.
  rewrite (wrapper_loop_equation_1 _ _ _ _ retries log).
  destruct (Z_lt_dec _ _); simpl; [|reflexivity].
  unfold failed_round. destruct (func retries) eqn:E; simpl; [reflexivity|].
  destruct (is_Exception e); reflexivity.
Qed.

Lemma wrapper_loop_always_fails (n retries : nat) (log : list event) :
  always_fails func ->
  Z.of_nat retries <= max_retries ->
  n = Z.to_nat (max_retries - Z.of_nat retries) ->
  wrapper_loop max_retries base_delay func uniform retries log =
  (Return None,
   log ++ failed_rounds base_delay func uniform retries n ++ [PrintMaxRetries]).
Proof.
  intros Hfail. revert retries log.
  induction n as [|n IH]; intros retries log Hle Hn;
    rewrite wrapper_loop_step.
  - destruct (Z_lt_dec _ _) as [Hlt|_]; [lia | reflexivity].
  - destruct (Z_lt_dec _ _) as [_|Hge]; [|lia].
    destruct (Hfail retries) as (e & He & Hexc).
    rewrite He, Hexc, IH by lia.
    simpl. rewrite <- !app_assoc. reflexivity.
Qed.

Lemma invocations_app (l1 l2 : list event) :
  invocations (l1 ++ l2) = (invocations l1 + invocations l2)%nat.
Proof. unfold invocations. rewrite List.filter_app, length_app. reflexivity. Qed.

Lemma slept_app (l1 l2 : list event) : slept (l1 ++ l2) = slept l1 ++ slept l2.
Proof. unfold slept. apply omap_app. Qed.

Lemma invocations_failed_rounds (retries n : nat) :
  always_fails func ->
  invocations (failed_rounds base_delay func uniform retries n) = n.
Proof.
  intros Hfail. revert retries. induction n as [|n IH]; intros retries.
  - reflexivity.
  - simpl. rewrite invocations_app, IH. unfold failed_round.
    destruct (Hfail retries) as (e & -> & _). reflexivity.
Qed.

Lemma slept_failed_rounds (retries n : nat) :
  always_fails func ->
  slept (failed_rounds base_delay func uniform retries n) =
  map (fun k => (base_delay * 2 ^ S k + uniform k)%R) (seq retries n).
Proof.
  intros Hfail. revert retries. induction n as [|n IH]; intros retries.
  - reflexivity.
  - simpl. rewrite slept_app, IH. unfold failed_round.
    destruct (Hfail retries) as (e & -> & _). reflexivity.
Qed.

(** C6. A wrapped function that fails on every call is invoked exactly
    [max_retries] times; the wrapper then prints the final failure
    message and returns [None] without raising, having slept
    [base_delay * 2^retries + uniform(0,1)] seconds after each failed
    attempt, [retries] being the number of attempts failed so far. *)
Theorem wrapper_always_fails :
  0 <= max_retries ->
  always_fails func ->
  let '(outcome, log) := wrapper max_retries base_delay func uniform in
  outcome = Return None
  /\ Z.of_nat (invocations log) = max_retries
  /\ slept log =
       map (fun k => (base_delay * 2 ^ S k + uniform k)%R)
           (seq 0 (Z.to_nat max_retries))
  /\ log = failed_rounds base_delay func uniform 0 (Z.to_nat max_retries)
             ++ [PrintMaxRetries].
Proof.
  intros Hpos Hfail. unfold wrapper.
  rewrite (wrapper_loop_always_fails (Z.to_nat max_retries) 0 []);
    [ | assumption | simpl; lia | f_equal; simpl; lia ].
  simpl. split; [reflexivity|]. split; [|split; [|reflexivity]].
  - rewrite invocations_app, invocations_failed_rounds by assumption.
    change (invocations [PrintMaxRetries]) with 0%nat. lia.
  - rewrite slept_app, slept_failed_rounds by assumption.
    simpl. apply app_nil_r.
Qed.

(** A negative bound behaves like 0: the loop body never runs. *)
Lemma wrapper_no_attempt :
  max_retries <= 0 ->
  wrapper max_retries base_delay func uniform = (Return None, [PrintMaxRetries]).
Proof.
  intros Hle. unfold wrapper. rewrite wrapper_loop_step.
  destruct (Z_lt_dec _ _); [simpl in *; lia | reflexivity].
Qed.
End Facts.

(** The wrapper around a function that always raises, with 3 retries, a
    base delay of 1 second and random draws of half a second. *)
Lemma wrapper_always_fails_witness :
  let func := fun _ : nat => @Raise unit (RuntimeError "unavailable") in
  let uniform := fun _ : nat => (1 / 2)%R in
  0 <= 3 /\ always_fails func /\
  let '(outcome, log) := wrapper 3 1%R func uniform in
  outcome = Return None
  /\ Z.of_nat (invocations log) = 3
  /\ slept log = map (fun k => (1 * 2 ^ S k + 1 / 2)%R) (seq 0 (Z.to_nat 3))
  /\ log = failed_rounds 1%R func uniform 0 (Z.to_nat 3) ++ [PrintMaxRetries].
Proof.
  intros func uniform.
  assert (Hpos : 0 <= 3) by lia.
  assert (Hfail : always_fails func)
    by (intros n; exists (RuntimeError "unavailable"); split; reflexivity).
  split; [exact Hpos|]. split; [exact Hfail|].
  exact (wrapper_always_fails 3 1%R func uniform Hpos Hfail).
Defined.

(** *** Success, uncaught exceptions, and the bound on invocations *)

Section Outcomes.
Context {A : Type}.
Variable max_retries : Z.
Variable base_delay : R.
Variable func : nat -> result A.
Variable uniform : nat -> R.

(** [n] failed attempts in a row, from attempt number [retries] on. *)
Lemma wrapper_loop_failures (n retries : nat) (log : list event) :
  (forall j, (retries <= j < retries + n)%nat ->
             exists e, func j = Raise e /\ is_Exception e = true) ->
  Z.of_nat (retries + n) <= max_retries ->
  wrapper_loop max_retries base_delay func uniform retries log =
  wrapper_loop max_retries base_delay func uniform (retries + n)
    (log ++ failed_rounds base_delay func uniform retries n).
Proof.
  revert retries log. induction n as [|n IH]; intros retries log Hfail Hle.
  - simpl. rewrite Nat.add_0_r, app_nil_r. reflexivity.
  - rewrite wrapper_loop_step.
    destruct (Z_lt_dec _ _) as [_|Hge]; [|lia].
    destruct (Hfail retries) as (e & He & Hexc); [lia|].
    rewrite He, Hexc, IH; [| intros j Hj; apply Hfail; lia | lia].
    simpl. rewrite <- app_assoc. f_equal. lia.
Qed.

Lemma invocations_rounds (retries n : nat) :
  invocations (failed_rounds base_delay func uniform retries n) = n.
Proof.
  revert retries. induction n as [|n IH]; intros retries; [reflexivity|].
  simpl. rewrite invocations_app, IH. unfold failed_round.
  destruct (func retries); reflexivity.
Qed.

Lemma slept_rounds (retries n : nat) :
  (forall j, (retries <= j < retries + n)%nat ->
             exists e, func j = Raise e /\ is_Exception e = true) ->
  slept (failed_rounds base_delay func uniform retries n) =
  map (fun k => (base_delay * 2 ^ S k + uniform k)%R) (seq retries n).
Proof.
  revert retries. induction n as [|n IH]; intros retries Hfail; [reflexivity|].
  simpl. rewrite slept_app, IH by (intros j Hj; apply Hfail; lia).
  unfold failed_round. destruct (Hfail retries) as (e & -> & _); [lia|].
  reflexivity.
Qed.

(** X1. A call that succeeds at its attempt number [k] (from 0), after [k]
    failures and within the bound, returns the result of that attempt:
    the function was invoked [k + 1] times, the wrapper slept after each
    of the [k] failures and not after the success, and the final failure
    message is not printed. *)
Theorem wrapper_succeeds_after_failures (k : nat) (a : A) :
  Z.of_nat k < max_retries ->
  (forall j, (j < k)%nat -> exists e, func j = Raise e /\ is_Exception e = true) ->
  func k = Return a ->
  let '(outcome, log) := wrapper max_retries base_delay func uniform in
  outcome = Return (Some a)
  /\ invocations log = S k
  /\ slept log = map (fun j => (base_delay * 2 ^ S j + uniform j)%R) (seq 0 k)
  /\ ~ In PrintMaxRetries log.
Proof.
  intros Hk Hfail Hok. unfold wrapper.
  rewrite (wrapper_loop_failures k 0 []);
    [ | intros j Hj; apply Hfail; lia | simpl; lia ].
  simpl. rewrite wrapper_loop_step.
  destruct (Z_lt_dec _ _) as [_|Hge]; [|lia]. rewrite Hok.
  split; [reflexivity|]. split; [|split].
  - rewrite invocations_app, invocations_rounds.
    change (invocations [Invoke k]) with 1%nat. lia.
  - rewrite slept_app, slept_rounds by (intros j Hj; apply Hfail; lia).
    simpl. apply app_nil_r.
  - intros Hin. apply in_app_or in Hin as [Hin|[Hin|[]]]; [|discriminate].
    clear -Hin. revert Hin. generalize 0%nat as r.
    induction k as [|k' IH]; intros r Hin; [destruct Hin|].
    simpl in Hin. apply in_app_or in Hin as [Hin|Hin]; [|eapply IH, Hin].
    unfold failed_round in Hin. destruct (func r); simpl in Hin;
      repeat (destruct Hin as [Hin|Hin]; [discriminate|]); destruct Hin.
Qed.

(** X2. An exception that [except Exception] does not catch leaves the
    wrapper at once, at whatever attempt it is raised: there is no sleep
    after it, no further invocation and no final message. *)
Theorem wrapper_propagates_uncaught (k : nat) (e : exn) :
  Z.of_nat k < max_retries ->
  (forall j, (j < k)%nat -> exists e', func j = Raise e' /\ is_Exception e' = true) ->
  func k = Raise e ->
  is_Exception e = false ->
  wrapper max_retries base_delay func uniform
  = (Raise e, failed_rounds base_delay func uniform 0 k ++ [Invoke k]).
Proof.
  intros Hk Hfail He Hexc. unfold wrapper.
  rewrite (wrapper_loop_failures k 0 []);
    [ | intros j Hj; apply Hfail; lia | simpl; lia ].
  simpl. rewrite wrapper_loop_step.
  destruct (Z_lt_dec _ _) as [_|Hge]; [|lia]. rewrite He, Hexc. reflexivity.
Qed.

Lemma wrapper_loop_invocations (n retries : nat) (log : list event) :
  n = Z.to_nat (max_retries - Z.of_nat retries) ->
  (invocations
     (snd (wrapper_loop max_retries base_delay func uniform retries log))
   <= invocations log + n)%nat.
Proof.
  revert retries log. induction n as [|n IH]; intros retries log Hn;
    rewrite wrapper_loop_step.
  - destruct (Z_lt_dec _ _) as [Hlt|_]; [lia|]. simpl.
    rewrite invocations_app. change (invocations [PrintMaxRetries]) with 0%nat.
    lia.
  - destruct (Z_lt_dec _ _) as [_|Hge]; [|lia].
    destruct (func retries) as [a|e] eqn:Hf; simpl.
    + rewrite invocations_app. change (invocations [Invoke retries]) with 1%nat.
      lia.
    + destruct (is_Exception e); simpl.
      * etransitivity; [apply IH; lia|].
        rewrite invocations_app. unfold failed_round. rewrite Hf.
        change (invocations [Invoke retries; _; _; _]) with 1%nat. lia.
      * rewrite invocations_app.
        change (invocations [Invoke retries]) with 1%nat. lia.
Qed.

(** X3. Whatever the wrapped function does, it is never invoked more than
    [max_retries] times (and not at all for a bound of 0 or less). *)
Theorem wrapper_invocations_bounded :
  (invocations (snd (wrapper max_retries base_delay func uniform))
   <= Z.to_nat max_retries)%nat.
Proof.
  unfold wrapper.
  pose proof (wrapper_loop_invocations (Z.to_nat max_retries) 0 []) as H.
  change (invocations []) with 0%nat in H. apply H. f_equal. simpl. lia.
Qed.
End Outcomes.

(** A function that fails twice and then returns 7, with 5 retries. *)
Lemma wrapper_succeeds_after_failures_witness :
  let func := fun n : nat =>
    if (n <? 2)%nat then Raise (RuntimeError "busy") else Return 7 in
  let uniform := fun _ : nat => (1 / 2)%R in
  Z.of_nat 2 < 5
  /\ (forall j, (j < 2)%nat ->
        exists e, func j = Raise e /\ is_Exception e = true)
  /\ func 2%nat = Return 7
  /\ let '(outcome, log) := wrapper 5 1%R func uniform in
     outcome = Return (Some 7)
     /\ invocations log = 3%nat
     /\ slept log = map (fun j => (1 * 2 ^ S j + 1 / 2)%R) (seq 0 2)
     /\ ~ In PrintMaxRetries log.
Proof.
  intros func uniform.
  assert (H1 : Z.of_nat 2 < 5) by (simpl; lia).
  assert (H2 : forall j, (j < 2)%nat ->
                 exists e, func j = Raise e /\ is_Exception e = true).
  { intros j Hj. exists (RuntimeError "busy"). split; [|reflexivity].
    unfold func. destruct (Nat.ltb_spec j 2); [reflexivity | lia]. }
  assert (H3 : func 2%nat = Return 7) by reflexivity.
  split; [exact H1|]. split; [exact H2|]. split; [exact H3|].
  exact (wrapper_succeeds_after_failures 5 1%R func uniform 2 7 H1 H2 H3).
Defined.

(** A function interrupted from the keyboard at its first invocation. *)
Lemma wrapper_propagates_uncaught_witness :
  let func := fun _ : nat => @Raise unit KeyboardInterrupt in
  let uniform := fun _ : nat => (1 / 2)%R in
  Z.of_nat 0 < 3
  /\ (forall j, (j < 0)%nat ->
        exists e', func j = Raise e' /\ is_Exception e' = true)
  /\ func 0%nat = Raise KeyboardInterrupt
  /\ is_Exception KeyboardInterrupt = false
  /\ wrapper 3 1%R func uniform = (Raise KeyboardInterrupt, [Invoke 0]).
Proof.
  intros func uniform.
  assert (H1 : Z.of_nat 0 < 3) by (simpl; lia).
  assert (H2 : forall j, (j < 0)%nat ->
                 exists e', func j = Raise e' /\ is_Exception e' = true)
    by (intros j Hj; lia).
  assert (H3 : func 0%nat = Raise KeyboardInterrupt) by reflexivity.
  assert (H4 : is_Exception KeyboardInterrupt = false) by reflexivity.
  repeat (split; [assumption|]).
  exact (wrapper_propagates_uncaught 3 1%R func uniform 0 KeyboardInterrupt
           H1 H2 H3 H4).
Defined.

(** A bound of 0: the function, which would succeed, is not invoked. *)
Lemma wrapper_no_attempt_witness :
  0 <= 0
  /\ wrapper 0 1%R (fun _ : nat => Return 7) (fun _ : nat => 0%R)
     = (Return None, [PrintMaxRetries]).
Proof.
  assert (H : 0 <= 0) by lia.
  split; [exact H|].
  exact (wrapper_no_attempt 0 1%R (fun _ : nat => Return 7)
           (fun _ : nat => 0%R) H).
Defined.

End BackoffFacts.

(** ** Dictionaries *)

Section DictFacts.
Context {V : Type}.
Implicit Types (d : odict V) (v : V).

Lemma dict_get_set (k k' : string) v d :
  dict_get k' (dict_set k v d) =
  if String.eqb k k' then Some v else dict_get k' d.
Proof.
  induction d as [|[k0 v0] d IH]; simpl.
  - reflexivity.
  - destruct (String.eqb_spec k0 k) as [->|Hne]; simpl.
    + destruct (String.eqb k k'); reflexivity.
    + rewrite IH. destruct (String.eqb_spec k0 k') as [->|Hne'].
      * destruct (String.eqb_spec k k') as [->|_]; [congruence|reflexivity].
      * reflexivity.
Qed.

Lemma dict_set_idem (k : string) v d :
  dict_set k v (dict_set k v d) = dict_set k v d.
Proof.
  induction d as [|[k0 v0] d IH]; simpl.
  - rewrite String.eqb_refl. reflexivity.
  - destruct (String.eqb_spec k0 k) as [->|Hne]; simpl.
    + rewrite String.eqb_refl. reflexivity.
    + destruct (String.eqb_spec k0 k); [congruence|]. rewrite IH. reflexivity.
Qed.

Lemma elem_of_dict_keys_set (k k' : string) v d :
  k' ∈ dict_keys (dict_set k v d) <-> k' = k \/ k' ∈ dict_keys d.
Proof.
  unfold dict_keys. induction d as [|[k0 v0] d IH]; simpl.
  - rewrite list_elem_of_singleton, elem_of_nil. tauto.
  - destruct (String.eqb_spec k0 k) as [->|Hne]; simpl.
    + rewrite elem_of_cons. tauto.
    + rewrite !elem_of_cons, IH. tauto.
Qed.

Lemma NoDup_dict_keys_set (k : string) v d :
  NoDup (dict_keys d) -> NoDup (dict_keys (dict_set k v d)).
Proof.
  induction d as [|[k0 v0] d IH]; simpl; intros Hd.
  - apply NoDup_singleton.
  - apply NoDup_cons in Hd as [Hnotin Hd].
    destruct (String.eqb_spec k0 k) as [->|Hne]; simpl.
    + apply NoDup_cons. split; assumption.
    + apply NoDup_cons. split; [|apply IH; assumption].
      intros Hin. apply elem_of_dict_keys_set in Hin as [->|Hin]; tauto.
Qed.
End DictFacts.

(** ** The hosted-API client *)

Module ClientFacts.
Import Client.

Section Scan.
Variable valid_tokens : list string.

(** Once the candidate's value is stored, the rest of the inner loop
    changes nothing. *)
Lemma scan_valid_stored (c : TopLogprob) (vs : list string) (output : dict) :
  scan_valid c vs (dict_set (token c) (exp (logprob c) * 100)%R output) =
  dict_set (token c) (exp (logprob c) * 100)%R output.
Proof.
  induction vs as [|v vs IH]; simpl; [reflexivity|].
  destruct (startswith v (upper (token c))); [|exact IH].
  rewrite dict_set_idem. exact IH.
Qed.

(** The inner loop stores the candidate's value once, when the
    candidate matches, and nothing otherwise. *)
Lemma scan_valid_store (c : TopLogprob) (vs : list string) (output : dict) :
  scan_valid c vs output = store_candidate vs output c.
Proof.
  unfold store_candidate, matches.
  revert output. induction vs as [|v vs IH]; intros output; simpl.
  - reflexivity.
  - destruct (startswith v (upper (token c))); simpl.
    + apply scan_valid_stored.
    + apply IH.
Qed.

Lemma stored_snoc (cs : list TopLogprob) (c : TopLogprob) :
  stored valid_tokens (cs ++ [c]) =
  store_candidate valid_tokens (stored valid_tokens cs) c.
Proof. unfold stored. rewrite fold_left_app. reflexivity. Qed.

(** The value read under a text is that of the last matching candidate
    with that text. *)
Lemma dict_get_stored (k : string) (cs : list TopLogprob) :
  dict_get k (stored valid_tokens cs) =
  option_map (fun c => (exp (logprob c) * 100)%R)
             (last_match valid_tokens k cs).
Proof.
  induction cs as [|c cs IH] using rev_ind.
  - reflexivity.
  - rewrite stored_snoc. unfold last_match in *.
    rewrite rev_app_distr. simpl.
    unfold store_candidate.
    destruct (matches valid_tokens c).
    + rewrite dict_get_set, andb_true_r.
      destruct (String.eqb (token c) k); [reflexivity | exact IH].
    + rewrite andb_false_r. exact IH.
Qed.

(** The outer loop, from any point on: it reads candidates up to and
    including the first one after which the number of stored texts
    equals the number of valid tokens. *)
Lemma scan_from (done rest : list TopLogprob) :
  let '(output, unread) := scan valid_tokens rest (stored valid_tokens done) in
  exists scanned,
    rest = scanned ++ unread
    /\ output = stored valid_tokens (done ++ scanned)
    /\ (unread <> [] ->
        length (stored valid_tokens (done ++ scanned)) = length valid_tokens)
    /\ (forall j, (0 < j < length scanned)%nat ->
        length (stored valid_tokens (done ++ firstn j scanned))
        <> length valid_tokens).
Proof.
  revert done. induction rest as [|c rest IH]; intros done; simpl.
  - exists []. rewrite !app_nil_r.
    split; [reflexivity|]. split; [reflexivity|]. split; [congruence|].
    simpl. intros j Hj. lia.
  - rewrite scan_valid_store, <- stored_snoc.
    destruct (Nat.eqb_spec (length (stored valid_tokens (done ++ [c])))
                           (length valid_tokens)) as [Heq|Hne].
    + exists [c].
      split; [reflexivity|]. split; [reflexivity|]. split; [intros _; exact Heq|].
      simpl. intros j Hj. lia.
    + specialize (IH (done ++ [c])).
      destruct (scan valid_tokens rest (stored valid_tokens (done ++ [c])))
        as [output unread].
      destruct IH as (scanned & -> & -> & Hstop & Hgo).
      exists (c :: scanned). rewrite <- !app_assoc in *. simpl in *.
      repeat split; try assumption.
      intros j Hj. destruct j as [|j]; [lia|]. simpl.
      destruct j as [|j].
      * rewrite firstn_O. exact Hne.
      * specialize (Hgo (S j)). rewrite <- app_assoc in Hgo. simpl in Hgo.
        apply Hgo. lia.
Qed.
Lemma NoDup_stored (cs : list TopLogprob) :
  NoDup (dict_keys (stored valid_tokens cs)).
Proof.
  induction cs as [|c cs IH] using rev_ind.
  - apply NoDup_nil_2.
  - rewrite stored_snoc. unfold store_candidate.
    destruct (matches valid_tokens c); [|exact IH].
    apply NoDup_dict_keys_set, IH.
Qed.

(** No candidate matches: nothing is ever stored. *)
Lemma stored_no_match (cs : list TopLogprob) :
  Forall (fun c => matches valid_tokens c = false) cs ->
  stored valid_tokens cs = [].
Proof.
  induction cs as [|c cs IH] using rev_ind; intros Hcs.
  - reflexivity.
  - apply Forall_app in Hcs as [Hcs Hc]. rewrite stored_snoc, (IH Hcs).
    unfold store_candidate.
    apply Forall_inv in Hc. simpl in Hc. rewrite Hc. reflexivity.
Qed.

(** X6. What the scan computes. The loop reads the candidates in order up to
    some point. What it leaves under a text [k] is [exp(logprob) * 100]
    of the last candidate read whose own text is [k] and whose
    upper-cased text is a prefix of a valid token: the value is stored
    under the candidate's text and replaces an earlier one, and a
    candidate that matches no valid token stores nothing. The texts
    stored are distinct, and the loop stops before the end of the
    candidates exactly when their number has reached the number of valid
    tokens: it is equal to it when candidates are left unread, and was
    different from it after every earlier candidate. *)
Theorem scan_stores_by_candidate_text (top_responses : list TopLogprob) :
  let '(output, unread) := scan valid_tokens top_responses [] in
  exists scanned,
    top_responses = scanned ++ unread
    /\ (forall k, dict_get k output =
                  option_map (fun c => (exp (logprob c) * 100)%R)
                             (last_match valid_tokens k scanned))
    /\ NoDup (dict_keys output)
    /\ (unread <> [] -> length (dict_keys output) = length valid_tokens)
    /\ (forall j, (0 < j < length scanned)%nat ->
          length (dict_keys (stored valid_tokens (firstn j scanned)))
          <> length valid_tokens).
Proof.
  pose proof (scan_from [] top_responses) as Hscan.
  change (stored valid_tokens []) with (@nil (string * R)) in Hscan.
  destruct (scan valid_tokens top_responses []) as [output unread].
  destruct Hscan as (scanned & Htop & -> & Hstop & Hgo). simpl in *.
  exists scanned. split; [exact Htop|].
  split; [intros k; apply dict_get_stored|].
  split; [apply NoDup_stored|].
  unfold dict_keys. split.
  - intros Hunread. rewrite length_map. auto.
  - intros j Hj. rewrite length_map. auto.
Qed.
End Scan.

(** C2, evaluated. With valid tokens A and B and the candidates "A", "a",
    "B" in this order, the loop stops after "a": two texts are stored, as
    many as there are valid tokens, and "B" is left unread, so the valid
    token B has received no value; the values are kept under the
    candidates' texts "A" and "a", and the value of "a" is not added to
    that of "A". And a text that comes twice keeps the second value, not
    the sum of both. *)
Theorem scan_case_variant_example :
  let valid_tokens := ["A"; "B"] in
  let top_responses :=
    [candidate "A" (-1)%R; candidate "a" (-2)%R; candidate "B" (-3)%R] in
  scan valid_tokens top_responses [] =
    ([("A", (exp (-1) * 100)%R); ("a", (exp (-2) * 100)%R)],
     [candidate "B" (-3)%R])
  /\ dict_get "B" (fst (scan valid_tokens top_responses [])) = None
  /\ fst (scan valid_tokens [candidate "A" 0%R; candidate "A" (-1)%R] []) =
       [("A", (exp (-1) * 100)%R)]
  /\ (exp (-1) * 100 <> exp 0 * 100 + exp (-1) * 100)%R.
Proof.
  repeat split; try reflexivity.
  rewrite exp_0. lra.
Qed.

Section Answer.
Context {service : Service}.

Lemma scan_no_match (valid_tokens : list string) (cs : list TopLogprob) :
  Forall (fun c => matches valid_tokens c = false) cs ->
  fst (scan valid_tokens cs []) = [].
Proof.
  intros Hcs. pose proof (scan_from valid_tokens [] cs) as Hscan.
  change (stored valid_tokens []) with (@nil (string * R)) in Hscan.
  destruct (scan valid_tokens cs []) as [output unread].
  destruct Hscan as (scanned & -> & -> & _). simpl.
  apply stored_no_match. apply Forall_app in Hcs. tauto.
Qed.

Lemma max_key_no_key (d : dict) :
  dict_keys d = [] -> max_key d = Raise (ValueError "max() arg is an empty sequence").
Proof. unfold max_key. intros ->. reflexivity. Qed.

Lemma answer_of_no_match_raises (valid_tokens : list string)
    (response : Completion) (cs : list TopLogprob) :
  keeps_keys normalize_dict ->
  top_responses_of response = Return cs ->
  Forall (fun c => matches valid_tokens c = false) cs ->
  exists e, answer_of valid_tokens response = Raise e.
Proof.
  intros Hkeys Hresp Hcs. unfold answer_of. rewrite Hresp. simpl.
  rewrite (scan_no_match _ _ Hcs).
  destruct (normalize_dict []) as [d'|e] eqn:Hnorm; simpl.
  - rewrite (max_key_no_key d') by (apply (Hkeys [] d' Hnorm)).
    simpl. eauto.
  - eauto.
Qed.

(** C3, as the code has it. When no candidate matches a valid token the
    dictionary handed to [normalize_dict] is empty; if the rescaling
    returns at all it returns a dictionary without keys, and [max] of it
    raises: [get_answer] raises, it does not return an answer and a
    distribution. *)
Theorem get_answer_no_match_raises (self : GPTClient)
    (valid_tokens : list string) (messages : list message) (model : string)
    (o : options) :
  keeps_keys normalize_dict ->
  no_candidate_matches valid_tokens ->
  exists e, get_answer self valid_tokens messages model o = Raise e.
Proof.
  intros Hkeys Hnone. unfold get_answer.
  destruct (min5 (top_logprobs o)) as [top|e]; simpl; [|eauto].
  unfold get_completion.
  destruct (self_client self) as [c|e]; simpl; [|eauto].
  destruct (chat_completions_create c _) as [response|e] eqn:Hcall; simpl;
    [|eauto].
  destruct (top_responses_of response) as [cs|e] eqn:Hcs.
  - apply (answer_of_no_match_raises _ _ cs Hkeys Hcs).
    apply (Hnone _ _ _ _ Hcall Hcs).
  - unfold answer_of. rewrite Hcs. simpl. eauto.
Qed.

(** C10. A client built from a flag that is neither "azure" nor
    "openai", whatever the case of its letters, is built without an
    exception and without the attribute [client]; every completion call
    on it then fails with an attribute error. *)
Theorem init_unknown_flag (environ : gmap string string) (flag : string) :
  lower flag <> "azure" ->
  lower flag <> "openai" ->
  exists self,
    init environ flag = Return self
    /\ client self = None
    /\ (forall messages model o,
          get_completion self messages model o = Raise (AttributeError "client"))
    /\ (forall messages model o,
          get_explanation self messages model o = Raise (AttributeError "client"))
    /\ (forall valid_tokens messages model o n,
          top_logprobs o = Some n ->
          get_answer self valid_tokens messages model o
          = Raise (AttributeError "client")).
Proof.
  intros Hazure Hopenai. exists {| client := None |}. unfold init.
  destruct (String.eqb_spec (lower flag) "azure") as [|_]; [contradiction|].
  destruct (String.eqb_spec (lower flag) "openai") as [|_]; [contradiction|].
  repeat split.
  intros valid_tokens messages model o n Hn. unfold get_answer.
  rewrite Hn. reflexivity.
Qed.
End Answer.

Lemma keeps_keys_normalize_dict_spec (scale : R) :
  keeps_keys (normalize_dict_spec scale).
Proof.
  intros d d' Hd. unfold normalize_dict_spec in Hd. injection Hd as <-.
  unfold dict_keys. rewrite map_map. reflexivity.
Qed.

(** The candidate "C" for the valid tokens A and B: [get_answer] raises. *)
Lemma get_answer_no_match_raises_witness :
  let service := service_with [candidate "C" (-1)%R] in
  let messages := [{| role := "user"; content := "Which option?" |}] in
  keeps_keys (normalize_dict (Service := service))
  /\ no_candidate_matches (service := service) ["A"; "B"]
  /\ exists e,
       get_answer (service := service) openai_client ["A"; "B"] messages
         "gpt-4" (answer_options 2) = Raise e.
Proof.
  intros service messages.
  assert (H1 : keeps_keys (normalize_dict (Service := service)))
    by apply keeps_keys_normalize_dict_spec.
  assert (H2 : no_candidate_matches (service := service) ["A"; "B"]).
  { intros c request response cs [= <-] [= <-]. repeat constructor. }
  split; [exact H1|]. split; [exact H2|].
  exact (get_answer_no_match_raises (service := service) openai_client
           ["A"; "B"] messages "gpt-4" (answer_options 2) H1 H2).
Defined.

(** The same call through [get_answer], evaluated. *)
Lemma get_answer_no_match_example :
  get_answer (service := service_with [candidate "C" (-1)%R]) openai_client ["A"; "B"]
    [{| role := "user"; content := "Which option?" |}] "gpt-4"
    (answer_options 2)
  = Raise (ValueError "max() arg is an empty sequence").
Proof. reflexivity. Qed.

(** The flag "gpt": no client attribute, and the first call fails. *)
Lemma init_unknown_flag_witness :
  lower "GPT" <> "azure" /\ lower "GPT" <> "openai" /\
  exists self,
    init ∅ "GPT" = Return self
    /\ client self = None
    /\ (forall messages model o,
          get_completion (service := service_with []) self messages model o
          = Raise (AttributeError "client"))
    /\ (forall messages model o,
          get_explanation (service := service_with []) self messages model o
          = Raise (AttributeError "client"))
    /\ (forall valid_tokens messages model o n,
          top_logprobs o = Some n ->
          get_answer (service := service_with []) self valid_tokens messages model o
          = Raise (AttributeError "client")).
Proof.
  assert (H1 : lower "GPT" <> "azure") by (vm_compute; discriminate).
  assert (H2 : lower "GPT" <> "openai") by (vm_compute; discriminate).
  split; [exact H1|]. split; [exact H2|].
  exact (init_unknown_flag (service := service_with []) ∅ "GPT" H1 H2).
Defined.

(** *** Construction, the cap on candidates, and the answer returned *)

(** X4. The constructor returns exactly when the environment variables of the
    service chosen are set, or when the flag names no service. *)
Theorem init_returns_iff (environ : gmap string string) (flag : string) :
  returns (init environ flag) <->
  (lower flag = "azure"
   /\ is_Some (environ !! "AZURE_OPENAI_API_KEY")
   /\ is_Some (environ !! "AZURE_OPENAI_ENDPOINT"))
  \/ (lower flag = "openai" /\ is_Some (environ !! "OPENAI_API_KEY"))
  \/ (lower flag <> "azure" /\ lower flag <> "openai").
Proof.
  unfold init, environ_get, returns.
  destruct (String.eqb_spec (lower flag) "azure") as [Haz|Haz].
  - destruct (environ !! "AZURE_OPENAI_API_KEY") as [k|] eqn:Hk; simpl.
    + destruct (environ !! "AZURE_OPENAI_ENDPOINT") as [e|] eqn:He; simpl.
      * split; [intros _; left; eauto | eauto].
      * split; [intros [a Ha]; discriminate|].
        intros [(_ & _ & [x Hx])|[(Hop & _)|(Hne & _)]];
          [discriminate | rewrite Haz in Hop; discriminate | contradiction].
    + split; [intros [a Ha]; discriminate|].
      intros [(_ & [x Hx] & _)|[(Hop & _)|(Hne & _)]];
        [discriminate | rewrite Haz in Hop; discriminate | contradiction].
  - destruct (String.eqb_spec (lower flag) "openai") as [Hop|Hop].
    + destruct (environ !! "OPENAI_API_KEY") as [k|] eqn:Hk; simpl.
      * split; [intros _; right; left; eauto | eauto].
      * split; [intros [a Ha]; discriminate|].
        intros [(Haz' & _)|[(_ & [x Hx])|(_ & Hne)]];
          [contradiction | discriminate | contradiction].
    + split; [intros _; right; right; auto | eauto].
Qed.

Section Answers.
Context {service : Service}.

(** X5. [get_answer] asks the service for at most 5 candidates: asking it
    for more is asking for 5. And with [top_logprobs] left at its default,
    [None], it raises a [TypeError] whatever the client and the service
    are, since [min] cannot compare 5 with [None]. *)
Theorem get_answer_top_logprobs (self : GPTClient)
    (valid_tokens : list string) (messages : list message) (model : string)
    (o : options) :
  (top_logprobs o = None ->
   get_answer self valid_tokens messages model o = Raise TypeError)
  /\ (forall n,
        top_logprobs o = Some n ->
        5 <= n ->
        get_answer self valid_tokens messages model o
        = get_answer self valid_tokens messages model
            {| max_tokens := max_tokens o; temperature := temperature o;
               stop := stop o; seed := seed o; tools := tools o;
               logprobs := logprobs o; top_logprobs := Some 5 |}).
Proof.
  split.
  - intros Hn. unfold get_answer. rewrite Hn. reflexivity.
  - intros n Hn Hle. unfold get_answer. rewrite Hn. simpl.
    rewrite Z.min_l by assumption. reflexivity.
Qed.

Lemma length_dict_set {V} (k : string) (v : V) (d : odict V) :
  (length d <= length (dict_set k v d) <= S (length d))%nat.
Proof.
  induction d as [|[k0 v0] d IH]; simpl; [lia|].
  destruct (String.eqb k0 k); simpl; lia.
Qed.

Lemma scan_length (valid_tokens : list string) (top_responses : list TopLogprob)
    (output : dict) :
  (length output < length valid_tokens)%nat \/ output = [] ->
  (length (fst (scan valid_tokens top_responses output))
   <= length valid_tokens)%nat.
Proof.
  revert output. induction top_responses as [|c rest IH]; intros output Hout.
  - simpl. destruct Hout as [Hlt| ->]; simpl; lia.
  - simpl. rewrite scan_valid_store.
    destruct (Nat.eqb_spec
                (length (store_candidate valid_tokens output c))
                (length valid_tokens)) as [Heq|Hne]; simpl; [lia|].
    apply IH. unfold store_candidate in *.
    destruct (matches valid_tokens c) eqn:Hm.
    + left.
      pose proof (length_dict_set (token c) (exp (logprob c) * 100)%R output).
      destruct Hout as [Hlt| ->]; [lia|].
      simpl in *. destruct valid_tokens; [discriminate Hm | simpl in *; lia].
    + assumption.
Qed.

(** X7. The dictionary the scan builds never has more entries than there are
    valid tokens. *)
Theorem scan_at_most_valid_tokens (valid_tokens : list string)
    (top_responses : list TopLogprob) :
  (length (fst (scan valid_tokens top_responses []))
   <= length valid_tokens)%nat.
Proof. apply scan_length. right. reflexivity. Qed.

Lemma max_from_spec (d : dict) (best : string) (keys : list string) :
  let r := max_from d best keys in
  (r = best \/ In r keys)
  /\ (key_value d best <= key_value d r)%R
  /\ (forall k, In k keys -> key_value d k <= key_value d r)%R.
Proof.
  revert best. induction keys as [|k keys IH]; intros best; simpl.
  - split; [auto|]. split; [lra | intros k []].
  - destruct (Rlt_dec (key_value d best) (key_value d k)) as [Hlt|Hge].
    + destruct (IH k) as (Hin & Hk & Hall). split.
      { destruct Hin as [Heq|Hin]; [right; left; symmetry; exact Heq | auto]. }
      split; [lra|].
      intros k' [<-|Hk']; [assumption | auto].
    + destruct (IH best) as (Hin & Hb & Hall). split.
      { destruct Hin as [Heq|Hin]; auto. }
      split; [assumption|].
      intros k' [<-|Hk']; [lra | auto].
Qed.

(** [max(output, key=output.get)] on a dictionary that is not empty
    returns one of its keys, and no key has a larger value. *)
Lemma max_key_maximal (d : dict) :
  d <> [] ->
  exists k,
    max_key d = Return k
    /\ In k (dict_keys d)
    /\ forall k', In k' (dict_keys d) -> (key_value d k' <= key_value d k)%R.
Proof.
  intros Hd. unfold max_key. destruct d as [|[k0 v0] d]; [congruence|].
  simpl. exists (max_from ((k0, v0) :: d) k0 (dict_keys d)).
  destruct (max_from_spec ((k0, v0) :: d) k0 (dict_keys d)) as (Hin & Hb & Hall).
  split; [reflexivity|]. split.
  { destruct Hin as [Heq|Hin]; [left; symmetry; exact Heq | right; exact Hin]. }
  intros k' [<-|Hk']; [assumption | auto].
Qed.

Lemma max_key_In (d : dict) (k : string) :
  max_key d = Return k -> In k (dict_keys d).
Proof.
  unfold max_key. destruct (dict_keys d) as [|k0 keys] eqn:Hkeys; [discriminate|].
  intros [= <-].
  destruct (max_from_spec d k0 keys) as ([Heq|Hin] & _);
    [left; symmetry; exact Heq | right; exact Hin].
Qed.

Lemma stored_keys_match (valid_tokens : list string) (cs : list TopLogprob)
    (k : string) :
  In k (dict_keys (stored valid_tokens cs)) ->
  exists c, In c cs /\ token c = k /\ matches valid_tokens c = true.
Proof.
  induction cs as [|c cs IH] using rev_ind; [intros []|].
  rewrite stored_snoc. unfold store_candidate.
  destruct (matches valid_tokens c) eqn:Hm; intros Hin.
  - apply list_elem_of_In, elem_of_dict_keys_set in Hin as [->|Hin].
    + exists c. split; [apply in_or_app; right; left; reflexivity | auto].
    + apply list_elem_of_In, IH in Hin as (c' & Hc' & Hk & Hm').
      exists c'. split; [apply in_or_app; auto | auto].
  - apply IH in Hin as (c' & Hc' & Hk & Hm').
    exists c'. split; [apply in_or_app; auto | auto].
Qed.

(** X8. When [get_answer] has an answer for a response, the token it returns
    is a key of the distribution it returns, with a value that no other
    key exceeds, and it is the text of one of the candidates of the
    response whose upper-cased text is a prefix of a valid token; the
    distribution has at most as many entries as there are valid tokens. *)
Theorem answer_of_returns_candidate (valid_tokens : list string)
    (response : Completion) (cs : list TopLogprob) (best : string)
    (output : dict) :
  keeps_keys normalize_dict ->
  top_responses_of response = Return cs ->
  answer_of valid_tokens response = Return (best, output) ->
  In best (dict_keys output)
  /\ (forall k, In k (dict_keys output) ->
                (key_value output k <= key_value output best)%R)
  /\ (exists c, In c cs /\ token c = best /\ matches valid_tokens c = true)
  /\ (length output <= length valid_tokens)%nat.
Proof.
  intros Hkeys Hresp Hrun. unfold answer_of in Hrun. rewrite Hresp in Hrun.
  simpl in Hrun.
  destruct (normalize_dict (fst (scan valid_tokens cs []))) as [d|] eqn:Hnorm;
    [|discriminate].
  simpl in Hrun. destruct (max_key d) as [k|] eqn:Hmax; [|discriminate].
  injection Hrun as -> ->.
  pose proof (max_key_In _ _ Hmax) as Hin.
  pose proof (Hkeys _ _ Hnorm) as Hsame.
  split; [assumption|]. split; [|split].
  - destruct (max_key_maximal output) as (k & Hk & _ & Hall).
    { intros ->. destruct Hin. }
    rewrite Hmax in Hk. injection Hk as <-. exact Hall.
  - rewrite Hsame in Hin.
    pose proof (scan_from valid_tokens [] cs) as Hscan.
    change (stored valid_tokens []) with (@nil (string * R)) in Hscan.
    destruct (scan valid_tokens cs []) as [out unread].
    destruct Hscan as (scanned & -> & -> & _). simpl in Hin.
    apply stored_keys_match in Hin as (c & Hc & Hk & Hm).
    exists c. split; [apply in_or_app; auto | auto].
  - assert (Hlen : (length (fst (scan valid_tokens cs []))
                    <= length valid_tokens)%nat)
      by (apply scan_length; right; reflexivity).
    assert (Hl : length output = length (fst (scan valid_tokens cs []))).
    { unfold dict_keys in Hsame.
      rewrite <- (length_map fst output), Hsame, length_map. reflexivity. }
    lia.
Qed.
End Answers.

(** Eight candidates asked for: five are requested. *)
Lemma get_answer_top_logprobs_witness :
  get_answer (service := service_with []) openai_client ["A"; "B"] []
    "gpt-4" (answer_options 4)
  = get_answer (service := service_with []) openai_client ["A"; "B"] []
      "gpt-4"
      {| max_tokens := Some 1; temperature := 0%R; stop := None;
         seed := 123; tools := []; logprobs := Some true;
         top_logprobs := Some 5 |}.
Proof.
  assert (H1 : top_logprobs (answer_options 4) = Some 8) by reflexivity.
  assert (H2 : 5 <= 8) by lia.
  exact (proj2 (get_answer_top_logprobs (service := service_with [])
                  openai_client ["A"; "B"] [] "gpt-4" (answer_options 4))
           8 H1 H2).
Defined.

(** The candidates "A" and "C" for the valid tokens A and B: the answer
    is "A", the only candidate that matches. *)
Lemma answer_of_returns_candidate_witness :
  let cs := [candidate "A" (-1)%R; candidate "C" (-2)%R] in
  let output : dict :=
    [("A", (exp (-1) * 100 / (exp (-1) * 100 + 0) * 100)%R)] in
  keeps_keys (normalize_dict (Service := service_with cs))
  /\ top_responses_of (completion_with cs) = Return cs
  /\ answer_of (service := service_with cs) ["A"; "B"] (completion_with cs)
     = Return ("A", output)
  /\ In "A" (dict_keys output)
  /\ (forall k, In k (dict_keys output) ->
                (key_value output k <= key_value output "A")%R)
  /\ (exists c, In c cs /\ token c = "A" /\ matches ["A"; "B"] c = true)
  /\ (length output <= length ["A"; "B"])%nat.
Proof.
  intros cs output.
  assert (H1 : keeps_keys (normalize_dict (Service := service_with cs)))
    by apply keeps_keys_normalize_dict_spec.
  assert (H2 : top_responses_of (completion_with cs) = Return cs)
    by reflexivity.
  assert (H3 : answer_of (service := service_with cs) ["A"; "B"]
                 (completion_with cs) = Return ("A", output)) by reflexivity.
  repeat (split; [assumption|]).
  exact (answer_of_returns_candidate (service := service_with cs) ["A"; "B"]
           (completion_with cs) cs "A" output H1 H2 H3).
Defined.

End ClientFacts.

(** ** The response generation engine *)

Module EngineFacts.
Import Engine.

#[local] Arguments Nat.modulo : simpl never.
#[local] Arguments Nat.div : simpl never.

Ltac run_ST :=
  unfold mbind, ST_bind, mret, ST_ret, lift, raise in *; simpl in *.

Section HostedFacts.
Context {Prefix Prompt : Type} {helpers : Helpers Prefix Prompt}
        {client_object : ClientObject}.
Variables (model : string) (prefix : Prefix)
          (options_lst : list (list string)) (chat_type : string).
Implicit Types questions : list string.

Lemma body_mc_separate questions (i : nat) (question : string)
    (v : list string * list (row dict)) (log : list call) :
  get_response_body model prefix questions "mc-separate" options_lst
    chat_type i question v log =
  match add_question
          (reconstruct_context prefix (firstn i questions) (fst v) chat_type)
          question with
  | Return _ => (Return v, log)
  | Raise e => (Raise e, log)
  end.
Proof.
  destruct v as [outputs parsed]. unfold get_response_body. run_ST.
  destruct (add_question _ _); [|reflexivity].
  rewrite !andb_false_r. reflexivity.
Qed.

Lemma add_question_chat (m : message) (turns : list message) (question : string) :
  returns (add_question (Chat (m :: turns)) question).
Proof.
  unfold add_question. destruct (1 <? length (m :: turns))%nat; eexists; reflexivity.
Qed.

(** In mode "mc-separate" the loop never calls the client: the log of
    calls is left as it was, whether the run ends or raises. *)
Lemma for_enumerate_mc_separate_log questions (i : nat) (qs : list string)
    (v : list string * list (row dict)) (log : list call) :
  snd (for_enumerate
         (get_response_body model prefix questions "mc-separate" options_lst
            chat_type) i qs v log) = log.
Proof.
  revert i v. induction qs as [|q qs IH]; intros i v; simpl.
  - reflexivity.
  - unfold mbind, ST_bind. rewrite body_mc_separate.
    destruct (add_question _ _); simpl; [apply IH | reflexivity].
Qed.

Lemma for_enumerate_mc_separate questions (i : nat) (qs : list string)
    (v : list string * list (row dict)) (log : list call) :
  chat_contexts prefix chat_type ->
  for_enumerate
    (get_response_body model prefix questions "mc-separate" options_lst
       chat_type) i qs v log = (Return v, log).
Proof.
  intros Hctx. revert i. induction qs as [|q qs IH]; intros i; simpl.
  - reflexivity.
  - unfold mbind, ST_bind. rewrite body_mc_separate.
    destruct (Hctx (firstn i questions) (fst v)) as (m & turns & ->).
    destruct (add_question_chat m turns q) as [msgs ->]. apply IH.
Qed.

(** C4. In mode "mc-separate" the hosted entry point calls the client
    for no question and appends no record: it returns the empty list and
    leaves the log of client calls empty. And "mc-separate" is one of
    the question types of the grid the orchestrator sets up. *)
Theorem get_response_mc_separate questions (num_sample : Z) :
  chat_contexts prefix chat_type ->
  get_response model prefix questions "mc-separate" options_lst chat_type []
  = (Return [], [])
  /\ exists params,
       In params (Orchestrator.param_grid num_sample)
       /\ dict_get "question_type" params
          = Some (Orchestrator.VStr "mc-separate").
Proof.
  intros Hctx. split.
  - unfold get_response, mbind, ST_bind.
    rewrite for_enumerate_mc_separate by assumption. reflexivity.
  - eexists. split.
    + unfold Orchestrator.param_grid, Orchestrator.ParameterGrid. simpl.
      right. left. reflexivity.
    + reflexivity.
Qed.

Lemma body_sequential_even questions (question_type : string) (i : nat)
    (question : string) (outputs : list string) (parsed : list (row dict))
    (log : list call) :
  is_sequential question_type = true ->
  (i mod 2 =? 0)%nat = true ->
  get_response_body model prefix questions question_type options_lst
    chat_type i question (outputs, parsed) log =
  match add_question
          (reconstruct_context prefix (firstn i questions) outputs chat_type)
          question with
  | Raise e => (Raise e, log)
  | Return messages =>
      match get_explanation model messages with
      | Raise e => (Raise e, log ++ [GetExplanation model messages])
      | Return output =>
          (Return (outputs ++ [output], parsed),
           log ++ [GetExplanation model messages])
      end
  end.
Proof.
  intros Hseq Heven. unfold get_response_body. run_ST.
  destruct (add_question _ _) as [messages|e]; [|reflexivity].
  rewrite Heven, Hseq.
  apply orb_prop in Hseq as [Hqt|Hqt]; apply String.eqb_eq in Hqt; subst;
    simpl; unfold call_get_explanation;
    destruct (get_explanation model messages); reflexivity.
Qed.

Lemma body_sequential_odd questions (question_type : string) (i : nat)
    (question : string) (outputs : list string) (parsed : list (row dict))
    (log : list call) :
  is_sequential question_type = true ->
  (i mod 2 =? 0)%nat = false ->
  get_response_body model prefix questions question_type options_lst
    chat_type i question (outputs, parsed) log =
  match add_question
          (reconstruct_context prefix (firstn i questions) outputs chat_type)
          question with
  | Raise e => (Raise e, log)
  | Return messages =>
      match index (get_option_letters options_lst) (i / 2) with
      | Raise e => (Raise e, log)
      | Return valid_tokens =>
          match index options_lst (i / 2) with
          | Raise e => (Raise e, log)
          | Return options =>
              let top := Z.of_nat (length options) * 2 in
              let log' :=
                log ++ [GetAnswer valid_tokens model messages 1 true top] in
              match get_answer valid_tokens model messages 1 true top with
              | Raise e => (Raise e, log')
              | Return (answer, probs) =>
                  match index (outputs ++ [answer]) (i - 1) with
                  | Raise e => (Raise e, log')
                  | Return explanation =>
                      (Return (outputs ++ [answer],
                               parsed ++ [(explanation, answer, probs)]),
                       log')
                  end
              end
          end
      end
  end.
Proof.
  intros Hseq Hodd.
  assert (Hodd' : (i mod 2 =? 1)%nat = true).
  { apply Nat.eqb_neq in Hodd. apply Nat.eqb_eq.
    pose proof (Nat.mod_upper_bound i 2). lia. }
  unfold get_response_body. run_ST.
  destruct (add_question _ _) as [messages|e]; [|reflexivity].
  rewrite Hodd, Hodd', Hseq.
  apply orb_prop in Hseq as [Hqt|Hqt]; apply String.eqb_eq in Hqt; subst;
    simpl;
    (destruct (index (get_option_letters options_lst) (i / 2))
       as [valid_tokens|e]; [|reflexivity]);
    (destruct (index options_lst (i / 2)) as [options|e]; [|reflexivity]);
    unfold call_get_answer;
    (destruct (get_answer _ _ _ _ _ _) as [[answer probs]|e]; [|reflexivity]);
    destruct (index (outputs ++ [answer]) (i - 1)); reflexivity.
Qed.

Lemma get_response_sequential_round questions (question_type : string) :
  is_sequential question_type = true ->
  sequential_round
    (get_response_body model prefix questions question_type options_lst
       chat_type).
Proof.
  intros Hseq i question outputs parsed log outputs' parsed' log' Hlen Hrun.
  destruct (i mod 2 =? 0)%nat eqn:Hpar.
  - rewrite body_sequential_even in Hrun by assumption.
    destruct (add_question _ _); [|discriminate].
    destruct (get_explanation _ _); [|discriminate].
    injection Hrun as <- <- <-. eauto.
  - rewrite body_sequential_odd in Hrun by assumption.
    destruct (add_question _ _); [|discriminate].
    destruct (index (get_option_letters _) _); [|discriminate].
    destruct (index options_lst _); [|discriminate].
    simpl in Hrun.
    destruct (get_answer _ _ _ _ _ _) as [[answer probs]|]; [|discriminate].
    destruct (index (outputs ++ [answer]) (i - 1)) as [explanation|] eqn:Hidx;
      [|discriminate].
    injection Hrun as <- <- <-.
    exists explanation, answer, probs. split; [|split; reflexivity].
    unfold index in Hidx. rewrite nth_error_app1 in Hidx.
    + destruct (nth_error outputs (i - 1)); congruence.
    + apply Nat.eqb_neq in Hpar.
      destruct i; [rewrite Nat.Div0.mod_0_l in Hpar; congruence | lia].
Qed.

Ltac use_context Hrun Hctx :=
  match type of Hrun with
  | context [reconstruct_context ?p ?qs ?outs ?ct] =>
      let Hc := fresh in
      destruct (Hctx qs outs) as (? & ? & Hc); rewrite Hc in Hrun; clear Hc
  end;
  match type of Hrun with
  | context [add_question (Chat (?m :: ?turns)) ?q] =>
      let Ha := fresh in
      destruct (add_question_chat m turns q) as [? Ha];
      rewrite Ha in Hrun; clear Ha
  end.

Lemma get_response_unfold questions question_type (log : list call) :
  get_response model prefix questions question_type options_lst chat_type log =
  match for_enumerate
          (get_response_body model prefix questions question_type
             options_lst chat_type) 0 questions ([], []) log with
  | (Return v, log') => (Return (transpose_rows (snd v)), log')
  | (Raise e, log') => (Raise e, log')
  end.
Proof.
  unfold get_response, mbind, ST_bind.
  destruct (for_enumerate _ _ _ _ _) as [[[outputs parsed]|e] log']; reflexivity.
Qed.

Ltac explain_round Hrun Hseq Hctx Hexp :=
  rewrite for_enumerate_cons in Hrun;
  rewrite body_sequential_even in Hrun by (assumption || reflexivity);
  use_context Hrun Hctx;
  match type of Hrun with
  | context [get_explanation ?mo ?ms] =>
      let He := fresh "Hexplained" in
      destruct (Hexp mo ms) as [? He]; rewrite He in Hrun
  end;
  cbv beta iota in Hrun.

Ltac use_index Hrun l i :=
  let Hi := fresh in
  destruct (index_lt l i) as [? Hi];
  [ | rewrite Hi in Hrun; clear Hi ].

Ltac answer_round Hrun Hseq Hctx Hans :=
  rewrite for_enumerate_cons in Hrun;
  rewrite body_sequential_odd in Hrun by (assumption || reflexivity);
  use_context Hrun Hctx;
  match type of Hrun with
  | context [index (get_option_letters ?o) ?i] =>
      let n := eval compute in i in
      change i with n in Hrun;
      use_index Hrun (get_option_letters o) n;
      [ unfold get_option_letters; rewrite length_map; lia | ];
      use_index Hrun o n; [ lia | ]
  end;
  cbv zeta in Hrun;
  match type of Hrun with
  | context [get_answer ?v ?m ?ms ?k ?b ?t] =>
      let Ha := fresh "Hanswered" in
      destruct (Hans v m ms k b t) as [[? ?] Ha]; rewrite Ha in Hrun
  end;
  cbn [app index nth_error Nat.sub] in Hrun.

Lemma get_response_four (question_type q0 q1 q2 q3 : string) :
  is_sequential question_type = true ->
  chat_contexts prefix chat_type ->
  client_returns ->
  (2 <= length options_lst)%nat ->
  exists m0 e0 v1 m1 t1 a1 p1 m2 e2 v3 m3 t3 a3 p3,
    get_response model prefix [q0; q1; q2; q3] question_type options_lst
      chat_type []
    = (Return [[Text e0; Text e2]; [Text a1; Text a3]; [Probs p1; Probs p3]],
       [GetExplanation model m0; GetAnswer v1 model m1 1 true t1;
        GetExplanation model m2; GetAnswer v3 model m3 1 true t3])
    /\ get_explanation model m0 = Return e0
    /\ get_answer v1 model m1 1 true t1 = Return (a1, p1)
    /\ get_explanation model m2 = Return e2
    /\ get_answer v3 model m3 1 true t3 = Return (a3, p3).
Proof.
  intros Hseq Hctx [Hans Hexp] Hlen.
  destruct (get_response model prefix [q0; q1; q2; q3] question_type
              options_lst chat_type []) as [r log] eqn:Hrun.
  rewrite get_response_unfold in Hrun.
  explain_round Hrun Hseq Hctx Hexp.
  answer_round Hrun Hseq Hctx Hans.
  explain_round Hrun Hseq Hctx Hexp.
  answer_round Hrun Hseq Hctx Hans.
  cbn in Hrun. injection Hrun as <- <-.
  repeat eexists; eassumption.
Qed.
End HostedFacts.

Section LocalFacts.
Context {Prefix Prompt P : Type} {helpers : Helpers Prefix Prompt}
        {local_model : LocalModel Prompt P}.
Variables (prefix : Prefix) (options_lst : list (list string))
          (chat_type : string).
Implicit Types questions : list string.

Lemma hf_body_sequential_even questions (question_type : string) (i : nat)
    (question : string) (outputs : list string) (parsed : list (row P))
    (log : list (hf_call Prompt)) :
  is_sequential question_type = true ->
  (i mod 2 =? 0)%nat = true ->
  get_response_hf_body prefix questions question_type options_lst chat_type
    i question (outputs, parsed) log =
  let prompt :=
    append_question
      (reconstruct_context prefix (firstn i questions) outputs chat_type)
      question chat_type in
  match HF_RESPONSE_explanation prompt chat_type with
  | Raise e => (Raise e, log ++ [HFExplanation prompt chat_type])
  | Return output =>
      (Return (outputs ++ [output], parsed),
       log ++ [HFExplanation prompt chat_type])
  end.
Proof.
  intros Hseq Heven. unfold get_response_hf_body. run_ST.
  rewrite Heven, Hseq.
  apply orb_prop in Hseq as [Hqt|Hqt]; apply String.eqb_eq in Hqt; subst;
    simpl; unfold call_hf_explanation;
    destruct (HF_RESPONSE_explanation _ _); reflexivity.
Qed.

Lemma hf_body_sequential_odd questions (question_type : string) (i : nat)
    (question : string) (outputs : list string) (parsed : list (row P))
    (log : list (hf_call Prompt)) :
  is_sequential question_type = true ->
  (i mod 2 =? 0)%nat = false ->
  get_response_hf_body prefix questions question_type options_lst chat_type
    i question (outputs, parsed) log =
  let prompt :=
    append_question
      (reconstruct_context prefix (firstn i questions) outputs chat_type)
      question chat_type in
  match index options_lst i with
  | Raise e => (Raise e, log)
  | Return options =>
      let log' := log ++ [HFAnswer "mc" prompt options chat_type] in
      match HF_RESPONSE_answer "mc" prompt options chat_type with
      | Raise e => (Raise e, log')
      | Return (answer, probs) =>
          match index (outputs ++ [answer]) (i - 1) with
          | Raise e => (Raise e, log')
          | Return explanation =>
              (Return (outputs ++ [answer],
                       parsed ++ [(explanation, answer, probs)]),
               log')
          end
      end
  end.
Proof.
  intros Hseq Hodd.
  assert (Hodd' : (i mod 2 =? 1)%nat = true).
  { apply Nat.eqb_neq in Hodd. apply Nat.eqb_eq.
    pose proof (Nat.mod_upper_bound i 2). lia. }
  unfold get_response_hf_body. run_ST.
  rewrite Hodd, Hodd', Hseq.
  apply orb_prop in Hseq as [Hqt|Hqt]; apply String.eqb_eq in Hqt; subst;
    simpl;
    (destruct (index options_lst i) as [options|e]; [|reflexivity]);
    unfold call_hf_answer;
    (destruct (HF_RESPONSE_answer _ _ _ _) as [[answer probs]|e];
     [|reflexivity]);
    destruct (index (outputs ++ [answer]) (i - 1)); reflexivity.
Qed.

Lemma get_response_hf_sequential_round questions (question_type : string) :
  is_sequential question_type = true ->
  sequential_round
    (get_response_hf_body prefix questions question_type options_lst
       chat_type).
Proof.
  intros Hseq i question outputs parsed log outputs' parsed' log' Hlen Hrun.
  destruct (i mod 2 =? 0)%nat eqn:Hpar.
  - rewrite hf_body_sequential_even in Hrun by assumption. simpl in Hrun.
    destruct (HF_RESPONSE_explanation _ _); [|discriminate].
    injection Hrun as <- <- <-. eauto.
  - rewrite hf_body_sequential_odd in Hrun by assumption. simpl in Hrun.
    destruct (index options_lst _); [|discriminate].
    destruct (HF_RESPONSE_answer _ _ _ _) as [[answer probs]|]; [|discriminate].
    destruct (index (outputs ++ [answer]) (i - 1)) as [explanation|] eqn:Hidx;
      [|discriminate].
    injection Hrun as <- <- <-.
    exists explanation, answer, probs. split; [|split; reflexivity].
    unfold index in Hidx. rewrite nth_error_app1 in Hidx.
    + destruct (nth_error outputs (i - 1)); congruence.
    + apply Nat.eqb_neq in Hpar.
      destruct i; [rewrite Nat.Div0.mod_0_l in Hpar; congruence | lia].
Qed.

Lemma get_response_hf_unfold questions question_type
    (log : list (hf_call Prompt)) :
  get_response_hf prefix questions question_type options_lst chat_type log =
  match for_enumerate
          (get_response_hf_body prefix questions question_type options_lst
             chat_type) 0 questions ([], []) log with
  | (Return v, log') => (Return (transpose_rows (snd v)), log')
  | (Raise e, log') => (Raise e, log')
  end.
Proof.
  unfold get_response_hf, mbind, ST_bind.
  destruct (for_enumerate _ _ _ _ _) as [[[outputs parsed]|e] log']; reflexivity.
Qed.

Ltac hf_explain_round Hrun Hexp :=
  rewrite for_enumerate_cons in Hrun;
  rewrite hf_body_sequential_even in Hrun by (assumption || reflexivity);
  cbv zeta in Hrun;
  match type of Hrun with
  | context [HF_RESPONSE_explanation ?p ?c] =>
      let He := fresh "Hexplained" in
      destruct (Hexp p c) as [? He]; rewrite He in Hrun
  end;
  cbv beta iota in Hrun.

Ltac hf_answer_round Hrun Hans :=
  rewrite for_enumerate_cons in Hrun;
  rewrite hf_body_sequential_odd in Hrun by (assumption || reflexivity);
  cbv zeta in Hrun;
  match type of Hrun with
  | context [index options_lst ?i] =>
      let Hi := fresh in
      destruct (index_lt options_lst i) as [? Hi];
      [ lia | rewrite Hi in Hrun; clear Hi ]
  end;
  match type of Hrun with
  | context [HF_RESPONSE_answer ?m ?p ?o ?c] =>
      let Ha := fresh "Hanswered" in
      destruct (Hans m p o c) as [[? ?] Ha]; rewrite Ha in Hrun
  end;
  cbn [app index nth_error Nat.sub] in Hrun.

Lemma get_response_hf_four (question_type q0 q1 q2 q3 : string) :
  is_sequential question_type = true ->
  local_model_returns ->
  (4 <= length options_lst)%nat ->
  exists pr0 e0 o1 pr1 a1 p1 pr2 e2 o3 pr3 a3 p3,
    get_response_hf prefix [q0; q1; q2; q3] question_type options_lst
      chat_type []
    = (Return [[Text e0; Text e2]; [Text a1; Text a3]; [Probs p1; Probs p3]],
       [HFExplanation pr0 chat_type; HFAnswer "mc" pr1 o1 chat_type;
        HFExplanation pr2 chat_type; HFAnswer "mc" pr3 o3 chat_type])
    /\ HF_RESPONSE_explanation pr0 chat_type = Return e0
    /\ HF_RESPONSE_answer "mc" pr1 o1 chat_type = Return (a1, p1)
    /\ HF_RESPONSE_explanation pr2 chat_type = Return e2
    /\ HF_RESPONSE_answer "mc" pr3 o3 chat_type = Return (a3, p3).
Proof.
  intros Hseq [Hans Hexp] Hlen.
  destruct (get_response_hf prefix [q0; q1; q2; q3] question_type
              options_lst chat_type []) as [r log] eqn:Hrun.
  rewrite get_response_hf_unfold in Hrun.
  hf_explain_round Hrun Hexp.
  hf_answer_round Hrun Hans.
  hf_explain_round Hrun Hexp.
  hf_answer_round Hrun Hans.
  cbn in Hrun. injection Hrun as <- <-.
  repeat eexists; eassumption.
Qed.
End LocalFacts.

Section BothEntryPoints.
Context {Prefix Prompt P : Type} {helpers : Helpers Prefix Prompt}
        {client_object : ClientObject} {local_model : LocalModel Prompt P}.

(** C5. In a sequential mode, over four questions, each entry point
    returns two records: the calls made are an explanation, an answer,
    an explanation and an answer, at indices 0 to 3, and the records
    pair the explanation of index 0 with the answer and probabilities of
    index 1, and that of index 2 with those of index 3. Whatever the
    questions, a round at an even index appends no record and a round at
    an odd index [i] appends one, made of the output recorded at index
    [i - 1] and of the answer and probabilities obtained at index [i]. *)
Theorem sequential_emission (model : string) (prefix : Prefix)
    (options_lst : list (list string)) (chat_type question_type : string)
    (q0 q1 q2 q3 : string) :
  is_sequential question_type = true ->
  chat_contexts prefix chat_type ->
  client_returns ->
  local_model_returns ->
  (4 <= length options_lst)%nat ->
  (exists m0 e0 v1 m1 t1 a1 p1 m2 e2 v3 m3 t3 a3 p3,
     get_response model prefix [q0; q1; q2; q3] question_type options_lst
       chat_type []
     = (Return [[Text e0; Text e2]; [Text a1; Text a3]; [Probs p1; Probs p3]],
        [GetExplanation model m0; GetAnswer v1 model m1 1 true t1;
         GetExplanation model m2; GetAnswer v3 model m3 1 true t3])
     /\ get_explanation model m0 = Return e0
     /\ get_answer v1 model m1 1 true t1 = Return (a1, p1)
     /\ get_explanation model m2 = Return e2
     /\ get_answer v3 model m3 1 true t3 = Return (a3, p3))
  /\ (exists pr0 e0 o1 pr1 a1 p1 pr2 e2 o3 pr3 a3 p3,
       get_response_hf prefix [q0; q1; q2; q3] question_type options_lst
         chat_type []
       = (Return [[Text e0; Text e2]; [Text a1; Text a3]; [Probs p1; Probs p3]],
          [HFExplanation pr0 chat_type; HFAnswer "mc" pr1 o1 chat_type;
           HFExplanation pr2 chat_type; HFAnswer "mc" pr3 o3 chat_type])
       /\ HF_RESPONSE_explanation pr0 chat_type = Return e0
       /\ HF_RESPONSE_answer "mc" pr1 o1 chat_type = Return (a1, p1)
       /\ HF_RESPONSE_explanation pr2 chat_type = Return e2
       /\ HF_RESPONSE_answer "mc" pr3 o3 chat_type = Return (a3, p3))
  /\ (forall questions,
       sequential_round
         (get_response_body model prefix questions question_type options_lst
            chat_type))
  /\ (forall questions,
       sequential_round
         (get_response_hf_body prefix questions question_type options_lst
            chat_type)).
Proof.
  intros Hseq Hctx Hclient Hlocal Hlen.
  split; [apply get_response_four; (assumption || lia)|].
  split; [apply get_response_hf_four; assumption|].
  split; intros questions.
  - apply get_response_sequential_round, Hseq.
  - apply get_response_hf_sequential_round, Hseq.
Qed.

(** C9, as the code has it. In a sequential mode, a round at an odd index
    [i] that completes has asked for one constrained answer: the hosted
    entry point over the letters of the options at index [i / 2], the
    local entry point over the options at index [i]; and [i / 2] is
    never [i]. *)
Theorem sequential_answer_options (model : string) (prefix : Prefix)
    (questions : list string) (options_lst : list (list string))
    (chat_type question_type : string) (i : nat) (question : string)
    (outputs : list string) :
  is_sequential question_type = true ->
  (i mod 2 =? 0)%nat = false ->
  (forall parsed log v' log',
     get_response_body model prefix questions question_type options_lst
       chat_type i question (outputs, parsed) log = (Return v', log') ->
     exists valid_tokens messages top,
       log' = log ++ [GetAnswer valid_tokens model messages 1 true top]
       /\ nth_error (get_option_letters options_lst) (i / 2)
          = Some valid_tokens)
  /\ (forall parsed log v' log',
        get_response_hf_body prefix questions question_type options_lst
          chat_type i question (outputs, parsed) log = (Return v', log') ->
        exists prompt options,
          log' = log ++ [HFAnswer "mc" prompt options chat_type]
          /\ nth_error options_lst i = Some options)
  /\ (i / 2 < i)%nat.
Proof.
  intros Hseq Hodd. split; [|split].
  - intros parsed log v' log' Hrun.
    rewrite body_sequential_odd in Hrun by assumption.
    destruct (add_question _ _) as [messages|]; [|discriminate].
    unfold index in Hrun at 1.
    destruct (nth_error (get_option_letters options_lst) (i / 2))
      as [valid_tokens|]; [|discriminate].
    destruct (index options_lst (i / 2)) as [options|]; [|discriminate].
    simpl in Hrun.
    destruct (get_answer _ _ _ _ _ _) as [[answer probs]|]; [|discriminate].
    destruct (index (outputs ++ [answer]) (i - 1)); [|discriminate].
    injection Hrun as _ <-. eauto.
  - intros parsed log v' log' Hrun.
    rewrite hf_body_sequential_odd in Hrun by assumption.
    unfold index in Hrun at 1.
    destruct (nth_error options_lst i) as [options|]; [|discriminate].
    simpl in Hrun.
    destruct (HF_RESPONSE_answer _ _ _ _) as [[answer probs]|]; [|discriminate].
    destruct (index (outputs ++ [answer]) (i - 1)); [|discriminate].
    injection Hrun as _ <-. eauto.
  - apply Nat.eqb_neq in Hodd.
    destruct i; [rewrite Nat.Div0.mod_0_l in Hodd; congruence|].
    apply Nat.div_lt; lia.
Qed.
End BothEntryPoints.

(** The round at index 1 of the example: the hosted entry point asks over
    A and B, the letters of the two options at index 0; the local entry
    point over the three options at index 1. *)
Lemma sequential_answer_options_witness :
  is_sequential "sequential-hidden" = true
  /\ (1 mod 2 =? 0)%nat = false
  /\ (forall parsed log v' log',
        get_response_body (helpers := example_helpers)
          (client_object := example_client) "gpt-4" [] example_questions
          "sequential-hidden" example_options "chat" 1 "Answer Q0."
          (["Because."], parsed) log = (Return v', log') ->
        exists valid_tokens messages top,
          log' = log ++ [GetAnswer valid_tokens "gpt-4" messages 1 true top]
          /\ Some ["A"; "B"] = Some valid_tokens)
  /\ (forall parsed log v' log',
        get_response_hf_body (helpers := example_helpers)
          (local_model := example_local_model) [] example_questions
          "sequential-hidden" example_options "chat" 1 "Answer Q0."
          (["Because."], parsed) log = (Return v', log') ->
        exists prompt options,
          log' = log ++ [HFAnswer "mc" prompt options "chat"]
          /\ Some ["red"; "green"; "blue"] = Some options)
  /\ (1 / 2 < 1)%nat.
Proof.
  assert (H1 : is_sequential "sequential-hidden" = true) by reflexivity.
  assert (H2 : (1 mod 2 =? 0)%nat = false) by reflexivity.
  split; [exact H1|]. split; [exact H2|].
  exact (sequential_answer_options (helpers := example_helpers)
           (client_object := example_client)
           (local_model := example_local_model) "gpt-4" [] example_questions
           example_options "chat" "sequential-hidden" 1 "Answer Q0."
           ["Because."] H1 H2).
Defined.

(** The example context builder and client, on the four example
    questions, for a grid of 5 samples. *)
Lemma get_response_mc_separate_witness :
  chat_contexts (helpers := example_helpers) [] "chat"
  /\ get_response (helpers := example_helpers) (client_object := example_client)
       "gpt-4" [] example_questions "mc-separate" example_options "chat" []
     = (Return [], [])
  /\ exists params,
       In params (Orchestrator.param_grid 5)
       /\ dict_get "question_type" params
          = Some (Orchestrator.VStr "mc-separate").
Proof.
  assert (H1 : chat_contexts (helpers := example_helpers) [] "chat")
    by (intros qs outs; eexists; eexists; reflexivity).
  split; [exact H1|].
  exact (get_response_mc_separate (helpers := example_helpers)
           (client_object := example_client) "gpt-4" [] example_options "chat"
           example_questions 5 H1).
Defined.

(** The example backends, mode "sequential-hidden", the four example
    questions with their four lists of options. *)
Lemma sequential_emission_witness :
  is_sequential "sequential-hidden" = true
  /\ chat_contexts (helpers := example_helpers) [] "chat"
  /\ client_returns (client_object := example_client)
  /\ local_model_returns (local_model := example_local_model)
  /\ (4 <= length example_options)%nat
  /\ (exists m0 e0 v1 m1 t1 a1 p1 m2 e2 v3 m3 t3 a3 p3,
       get_response (helpers := example_helpers)
         (client_object := example_client) "gpt-4" []
         ["Explain Q0."; "Answer Q0."; "Explain Q1."; "Answer Q1."]
         "sequential-hidden" example_options "chat" []
       = (Return [[Text e0; Text e2]; [Text a1; Text a3]; [Probs p1; Probs p3]],
          [GetExplanation "gpt-4" m0; GetAnswer v1 "gpt-4" m1 1 true t1;
           GetExplanation "gpt-4" m2; GetAnswer v3 "gpt-4" m3 1 true t3])
       /\ get_explanation (ClientObject := example_client) "gpt-4" m0 = Return e0
       /\ get_answer (ClientObject := example_client) v1 "gpt-4" m1 1 true t1
          = Return (a1, p1)
       /\ get_explanation (ClientObject := example_client) "gpt-4" m2 = Return e2
       /\ get_answer (ClientObject := example_client) v3 "gpt-4" m3 1 true t3
          = Return (a3, p3))
  /\ (exists pr0 e0 o1 pr1 a1 p1 pr2 e2 o3 pr3 a3 p3,
       get_response_hf (helpers := example_helpers)
         (local_model := example_local_model) []
         ["Explain Q0."; "Answer Q0."; "Explain Q1."; "Answer Q1."]
         "sequential-hidden" example_options "chat" []
       = (Return [[Text e0; Text e2]; [Text a1; Text a3]; [Probs p1; Probs p3]],
          [HFExplanation pr0 "chat"; HFAnswer "mc" pr1 o1 "chat";
           HFExplanation pr2 "chat"; HFAnswer "mc" pr3 o3 "chat"])
       /\ HF_RESPONSE_explanation (LocalModel := example_local_model) pr0 "chat"
          = Return e0
       /\ HF_RESPONSE_answer (LocalModel := example_local_model) "mc" pr1 o1
            "chat" = Return (a1, p1)
       /\ HF_RESPONSE_explanation (LocalModel := example_local_model) pr2 "chat"
          = Return e2
       /\ HF_RESPONSE_answer (LocalModel := example_local_model) "mc" pr3 o3
            "chat" = Return (a3, p3))
  /\ (forall questions,
       sequential_round
         (get_response_body (helpers := example_helpers)
            (client_object := example_client) "gpt-4" [] questions
            "sequential-hidden" example_options "chat"))
  /\ (forall questions,
       sequential_round
         (get_response_hf_body (helpers := example_helpers)
            (local_model := example_local_model) [] questions
            "sequential-hidden" example_options "chat")).
Proof.
  assert (H1 : is_sequential "sequential-hidden" = true) by reflexivity.
  assert (H2 : chat_contexts (helpers := example_helpers) [] "chat")
    by (intros qs outs; eexists; eexists; reflexivity).
  assert (H3 : client_returns (client_object := example_client))
    by (split; intros; eexists; reflexivity).
  assert (H4 : local_model_returns (local_model := example_local_model))
    by (split; intros; eexists; reflexivity).
  assert (H5 : (4 <= length example_options)%nat) by (simpl; lia).
  repeat (split; [assumption|]).
  exact (sequential_emission (helpers := example_helpers)
           (client_object := example_client)
           (local_model := example_local_model)
           "gpt-4" [] example_options "chat" "sequential-hidden"
           "Explain Q0." "Answer Q0." "Explain Q1." "Answer Q1."
           H1 H2 H3 H4 H5).
Defined.

(** The four example questions in mode "sequential-hidden", evaluated:
    the hosted entry point restricts the answer at index 1 to the letters
    of the options at index 0, and the answer at index 3 to those of the
    options at index 1, where the local entry point answers over the
    options at index 1 and at index 3. *)
Lemma sequential_answer_options_example :
  answer_tokens
    (snd (get_response (helpers := example_helpers)
            (client_object := example_client) "gpt-4" [] example_questions
            "sequential-hidden" example_options "chat" []))
  = [["A"; "B"]; ["A"; "B"; "C"]]
  /\ hf_answer_options
       (snd (get_response_hf (helpers := example_helpers)
               (local_model := example_local_model) [] example_questions
               "sequential-hidden" example_options "chat" []))
     = [["red"; "green"; "blue"]; ["one"; "two"; "three"; "four"; "five"]]
  /\ get_option_letters example_options
     = [["A"; "B"]; ["A"; "B"; "C"]; ["A"; "B"; "C"; "D"];
        ["A"; "B"; "C"; "D"; "E"]].
Proof. repeat split; reflexivity. Qed.

(** The hosted entry point with a [GPTClient] behind it: in mode "mc", a
    question whose candidates match none of its option letters ends the
    run with the [ValueError] of [get_answer]. *)
Lemma get_response_no_match_example :
  fst (get_response (helpers := example_helpers)
         (client_object :=
            GPTClient_object
              (service := Client.service_with [Client.candidate "C" (-1)%R])
              Client.openai_client)
         "gpt-4" [] ["Which one?"] "mc" [["yes"; "no"]] "chat" [])
  = Raise (ValueError "max() arg is an empty sequence").
Proof. reflexivity. Qed.

(** *** Whole runs, for any number of questions *)

Section HostedRuns.
Context {Prefix Prompt : Type} {helpers : Helpers Prefix Prompt}
        {client_object : ClientObject}.
Variables (model : string) (prefix : Prefix)
          (options_lst : list (list string)) (chat_type : string).
Implicit Types questions : list string.

Lemma body_mc questions (i : nat) (question : string)
    (outputs : list string) (parsed : list (row dict)) (log : list call) :
  get_response_body model prefix questions "mc" options_lst chat_type i
    question (outputs, parsed) log =
  match add_question
          (reconstruct_context prefix (firstn i questions) outputs chat_type)
          question with
  | Raise e => (Raise e, log)
  | Return messages =>
      match index (get_option_letters options_lst) i with
      | Raise e => (Raise e, log)
      | Return valid_tokens =>
          match index options_lst i with
          | Raise e => (Raise e, log)
          | Return options =>
              let top := Z.of_nat (length options) * 2 in
              let log' :=
                log ++ [GetAnswer valid_tokens model messages 1 true top] in
              match get_answer valid_tokens model messages 1 true top with
              | Raise e => (Raise e, log')
              | Return (answer, probs) =>
                  (Return (outputs ++ [answer],
                           parsed ++ [("", answer, probs)]), log')
              end
          end
      end
  end.
Proof.
  unfold get_response_body. run_ST.
  destruct (add_question _ _) as [messages|e]; [|reflexivity].
  destruct (index (get_option_letters options_lst) i) as [valid_tokens|e];
    [|reflexivity].
  destruct (index options_lst i) as [options|e]; [|reflexivity].
  unfold call_get_answer.
  destruct (get_answer _ _ _ _ _ _) as [[answer probs]|e]; reflexivity.
Qed.

Lemma body_explanation questions (i : nat) (question : string)
    (outputs : list string) (parsed : list (row dict)) (log : list call) :
  get_response_body model prefix questions "explanation" options_lst
    chat_type i question (outputs, parsed) log =
  match add_question
          (reconstruct_context prefix (firstn i questions) outputs chat_type)
          question with
  | Raise e => (Raise e, log)
  | Return messages =>
      match get_explanation model messages with
      | Raise e => (Raise e, log ++ [GetExplanation model messages])
      | Return output =>
          (Return (outputs ++ [output],
                   parsed ++ [(fst (parse_response output options_lst i),
                               snd (parse_response output options_lst i),
                               [])]),
           log ++ [GetExplanation model messages])
      end
  end.
Proof.
  unfold get_response_body. run_ST.
  destruct (add_question _ _) as [messages|e]; [|reflexivity].
  unfold call_get_explanation.
  destruct (get_explanation model messages) as [output|e]; [|reflexivity].
  destruct (parse_response output options_lst i). reflexivity.
Qed.

Lemma body_unrecognised questions (question_type : string) (i : nat)
    (question : string) (v : list string * list (row dict))
    (log : list call) :
  question_type <> "mc" ->
  question_type <> "explanation" ->
  is_sequential question_type = false ->
  get_response_body model prefix questions question_type options_lst
    chat_type i question v log =
  match add_question
          (reconstruct_context prefix (firstn i questions) (fst v) chat_type)
          question with
  | Return _ => (Return v, log)
  | Raise e => (Raise e, log)
  end.
Proof.
  intros Hmc Hexp Hseq. destruct v as [outputs parsed].
  unfold get_response_body. run_ST.
  destruct (add_question _ _); [|reflexivity].
  apply String.eqb_neq in Hmc, Hexp. rewrite Hmc, Hexp, Hseq.
  rewrite !andb_false_r. reflexivity.
Qed.

Lemma index_get_option_letters (i : nat) (options : list string) :
  index options_lst i = Return options ->
  index (get_option_letters options_lst) i
  = Return (firstn (length options) OPTIONS).
Proof.
  unfold index, get_option_letters. rewrite nth_error_map.
  destruct (nth_error options_lst i); simpl; [|discriminate].
  intros [= ->]. reflexivity.
Qed.

Lemma answer_tokens_snoc (log : list call) (c : call) :
  answer_tokens (log ++ [c])
  = answer_tokens log
    ++ match c with
       | GetAnswer valid_tokens _ _ _ _ _ => [valid_tokens]
       | GetExplanation _ _ => []
       end.
Proof.
  unfold answer_tokens. rewrite omap_app. destruct c; reflexivity.
Qed.

(** X9. In mode "mc", with options for every question, the run asks one
    constrained answer per question, over the letters of that question's
    options and in the order of the questions, and returns one record per
    question, whose explanation is the empty string. *)
Theorem get_response_mc questions :
  chat_contexts prefix chat_type ->
  client_returns ->
  (length questions <= length options_lst)%nat ->
  exists rows log,
    get_response model prefix questions "mc" options_lst chat_type []
    = (Return (transpose_rows rows), log)
    /\ length rows = length questions
    /\ Forall (fun r => fst (fst r) = "") rows
    /\ length log = length questions
    /\ answer_tokens log
       = firstn (length questions) (get_option_letters options_lst).
Proof.
  intros Hctx [Hans Hexp] Hlen.
  pose (Inv := fun (i : nat) (v : list string * list (row dict))
                   (log : list call) =>
          length (snd v) = i
          /\ Forall (fun r => fst (fst r) = "") (snd v)
          /\ length log = i
          /\ answer_tokens log = firstn i (get_option_letters options_lst)).
  destruct (for_enumerate_invariant
              (get_response_body model prefix questions "mc" options_lst
                 chat_type) Inv (length questions)) with
    (xs := questions) (i := 0%nat)
    (v := ([] : list string, [] : list (row dict))) (s := [] : list call)
    as ([outputs rows] & log & Hrun & Hrows & Hempty & Hlog & Htokens).
  - intros i question [outputs parsed] log Hi (Hp & Hall & Hl & Ht).
    simpl in Hp, Hall. rewrite body_mc.
    destruct (Hctx (firstn i questions) outputs) as (m & turns & ->).
    destruct (add_question_chat m turns question) as [messages ->].
    destruct (index_lt options_lst i) as [options Hopt]; [lia|].
    rewrite (index_get_option_letters _ _ Hopt), Hopt. cbv zeta.
    destruct (Hans (firstn (length options) OPTIONS) model messages 1 true
                (Z.of_nat (length options) * 2)) as [[answer probs] ->].
    eexists; eexists. split; [reflexivity|].
    unfold Inv; simpl. rewrite !length_app, answer_tokens_snoc. simpl.
    split; [lia|]. split.
    { apply Forall_app. split; [assumption | repeat constructor]. }
    split; [lia|].
    rewrite Ht.
    symmetry. apply (firstn_S_index (get_option_letters options_lst)).
    apply index_get_option_letters, Hopt.
  - simpl. lia.
  - unfold Inv; simpl. repeat split; constructor.
  - exists rows, log. rewrite get_response_unfold, Hrun. simpl in *.
    repeat split; assumption.
Qed.

(** X10. In mode "mc", with fewer lists of options than questions, the run
    asks the constrained answers of the questions that have options and
    then ends with an [IndexError]: no record is returned. *)
Theorem get_response_mc_short_options questions :
  chat_contexts prefix chat_type ->
  client_returns ->
  (length options_lst < length questions)%nat ->
  exists log,
    get_response model prefix questions "mc" options_lst chat_type []
    = (Raise IndexError, log)
    /\ length log = length options_lst
    /\ answer_tokens log = get_option_letters options_lst.
Proof.
  intros Hctx [Hans Hexp] Hlen.
  pose (Inv := fun (i : nat) (v : list string * list (row dict))
                   (log : list call) =>
          length log = i
          /\ answer_tokens log = firstn i (get_option_letters options_lst)).
  set (k := length options_lst) in *.
  assert (Hfirst : length (firstn k questions) = k)
    by (rewrite length_firstn; lia).
  destruct (for_enumerate_invariant
              (get_response_body model prefix questions "mc" options_lst
                 chat_type) Inv k) with
    (xs := firstn k questions) (i := 0%nat)
    (v := ([] : list string, [] : list (row dict))) (s := [] : list call)
    as ([outputs rows] & log & Hrun & Hlog & Htokens).
  - intros i question [outputs parsed] log Hi (Hl & Ht).
    rewrite body_mc.
    destruct (Hctx (firstn i questions) outputs) as (m & turns & ->).
    destruct (add_question_chat m turns question) as [messages ->].
    destruct (index_lt options_lst i) as [options Hopt]; [exact Hi|].
    rewrite (index_get_option_letters _ _ Hopt), Hopt. cbv zeta.
    destruct (Hans (firstn (length options) OPTIONS) model messages 1 true
                (Z.of_nat (length options) * 2)) as [[answer probs] ->].
    eexists; eexists. split; [reflexivity|].
    unfold Inv. rewrite !length_app, answer_tokens_snoc. simpl.
    split; [lia|].
    rewrite Ht.
    symmetry. apply (firstn_S_index (get_option_letters options_lst)).
    apply index_get_option_letters, Hopt.
  - rewrite Hfirst. simpl. lia.
  - unfold Inv; simpl. split; reflexivity.
  - rewrite Hfirst in Hlog, Htokens. simpl in Hlog, Htokens.
    exists log. rewrite get_response_unfold.
    rewrite <- (firstn_skipn k questions) at 2.
    rewrite for_enumerate_app, Hrun, Hfirst. simpl Nat.add.
    destruct (skipn k questions) as [|question rest] eqn:Hrest.
    { apply (f_equal (@length string)) in Hrest.
      rewrite length_skipn in Hrest. simpl in Hrest. lia. }
    rewrite for_enumerate_cons, body_mc.
    destruct (Hctx (firstn k questions) outputs) as (m & turns & ->).
    destruct (add_question_chat m turns question) as [messages ->].
    rewrite index_ge
      by (unfold get_option_letters; rewrite length_map; fold k; lia).
    split; [reflexivity|]. split; [assumption|].
    rewrite Htokens. apply firstn_all2.
    unfold get_option_letters. rewrite length_map. fold k. lia.
Qed.

(** X11. In mode "explanation" the run asks one explanation per question and
    no constrained answer, whatever the lists of options are, and the
    probabilities of every record it returns are empty. *)
Theorem get_response_explanation questions :
  chat_contexts prefix chat_type ->
  client_returns ->
  exists rows log,
    get_response model prefix questions "explanation" options_lst chat_type []
    = (Return (transpose_rows rows), log)
    /\ length rows = length questions
    /\ Forall (fun r => snd r = []) rows
    /\ length log = length questions
    /\ answer_tokens log = [].
Proof.
  intros Hctx [Hans Hexp].
  pose (Inv := fun (i : nat) (v : list string * list (row dict))
                   (log : list call) =>
          length (snd v) = i
          /\ Forall (fun r => snd r = []) (snd v)
          /\ length log = i
          /\ answer_tokens log = []).
  destruct (for_enumerate_invariant
              (get_response_body model prefix questions "explanation"
                 options_lst chat_type) Inv (length questions)) with
    (xs := questions) (i := 0%nat)
    (v := ([] : list string, [] : list (row dict))) (s := [] : list call)
    as ([outputs rows] & log & Hrun & Hrows & Hempty & Hlog & Htokens).
  - intros i question [outputs parsed] log Hi (Hp & Hall & Hl & Ht).
    simpl in Hp, Hall. rewrite body_explanation.
    destruct (Hctx (firstn i questions) outputs) as (m & turns & ->).
    destruct (add_question_chat m turns question) as [messages ->].
    destruct (Hexp model messages) as [output ->].
    eexists; eexists. split; [reflexivity|].
    unfold Inv; simpl. rewrite !length_app, answer_tokens_snoc. simpl.
    split; [lia|]. split.
    { apply Forall_app. split; [assumption | repeat constructor]. }
    split; [lia|]. rewrite Ht. reflexivity.
  - simpl. lia.
  - unfold Inv; simpl. repeat split; constructor.
  - exists rows, log. rewrite get_response_unfold, Hrun. simpl in *.
    repeat split; assumption.
Qed.

(** X12. In a sequential mode, over any number [n] of questions with options
    for the first [n / 2] pairs, the run makes [n] calls and returns
    [n / 2] records; the constrained answers are asked over the letters
    of the first [n / 2] lists of options, in order. *)
Theorem get_response_sequential_counts questions (question_type : string) :
  is_sequential question_type = true ->
  chat_contexts prefix chat_type ->
  client_returns ->
  (length questions / 2 <= length options_lst)%nat ->
  exists rows log,
    get_response model prefix questions question_type options_lst chat_type []
    = (Return (transpose_rows rows), log)
    /\ length rows = (length questions / 2)%nat
    /\ length log = length questions
    /\ answer_tokens log
       = firstn (length questions / 2) (get_option_letters options_lst).
Proof.
  intros Hseq Hctx [Hans Hexp] Hlen.
  pose (Inv := fun (i : nat) (v : list string * list (row dict))
                   (log : list call) =>
          length (fst v) = i
          /\ length (snd v) = (i / 2)%nat
          /\ length log = i
          /\ answer_tokens log
             = firstn (i / 2) (get_option_letters options_lst)).
  destruct (for_enumerate_invariant
              (get_response_body model prefix questions question_type
                 options_lst chat_type) Inv (length questions)) with
    (xs := questions) (i := 0%nat)
    (v := ([] : list string, [] : list (row dict))) (s := [] : list call)
    as ([outputs rows] & log & Hrun & Houts & Hrows & Hlog & Htokens).
  - intros i question [outputs parsed] log Hi (Ho & Hp & Hl & Ht).
    simpl in Ho, Hp.
    destruct (i mod 2 =? 0)%nat eqn:Hpar.
    + rewrite body_sequential_even by assumption.
      destruct (Hctx (firstn i questions) outputs) as (m & turns & ->).
      destruct (add_question_chat m turns question) as [messages ->].
      destruct (Hexp model messages) as [output ->].
      eexists; eexists. split; [reflexivity|].
      apply Nat.eqb_eq in Hpar.
      unfold Inv; simpl. rewrite !length_app, answer_tokens_snoc. simpl.
      rewrite (half_even i Hpar), app_nil_r.
      repeat split; (assumption || lia).
    + rewrite body_sequential_odd by assumption.
      apply Nat.eqb_neq in Hpar.
      destruct (Hctx (firstn i questions) outputs) as (m & turns & ->).
      destruct (add_question_chat m turns question) as [messages ->].
      destruct (index_lt options_lst (i / 2)) as [options Hopt].
      { pose proof (half_odd_lt i (length questions) Hpar Hi). lia. }
      rewrite (index_get_option_letters _ _ Hopt), Hopt. cbv zeta.
      destruct (Hans (firstn (length options) OPTIONS) model messages 1 true
                  (Z.of_nat (length options) * 2)) as [[answer probs] ->].
      destruct (index_lt (outputs ++ [answer]) (i - 1)) as [explanation ->].
      { rewrite length_app. simpl. lia. }
      eexists; eexists. split; [reflexivity|].
      unfold Inv; simpl. rewrite !length_app, answer_tokens_snoc. simpl.
      rewrite (half_odd i Hpar).
      split; [lia|]. split; [lia|]. split; [lia|].
      rewrite Ht.
      symmetry. apply (firstn_S_index (get_option_letters options_lst)).
      apply index_get_option_letters, Hopt.
  - simpl. lia.
  - unfold Inv; simpl. repeat split; reflexivity.
  - exists rows, log. rewrite get_response_unfold, Hrun. simpl in *.
    repeat split; assumption.
Qed.

Lemma for_enumerate_unrecognised questions (question_type : string)
    (i : nat) (qs : list string) (v : list string * list (row dict))
    (log : list call) :
  question_type <> "mc" ->
  question_type <> "explanation" ->
  is_sequential question_type = false ->
  chat_contexts prefix chat_type ->
  for_enumerate
    (get_response_body model prefix questions question_type options_lst
       chat_type) i qs v log = (Return v, log).
Proof.
  intros Hmc Hexp Hseq Hctx. revert i.
  induction qs as [|q qs IH]; intros i; simpl.
  - reflexivity.
  - unfold mbind, ST_bind. rewrite body_unrecognised by assumption.
    destruct (Hctx (firstn i questions) (fst v)) as (m & turns & ->).
    destruct (add_question_chat m turns q) as [msgs ->]. apply IH.
Qed.

(** X13. A question type that is none of "mc", "explanation" and the two
    sequential ones is not refused: the run calls the client for no
    question and returns the empty list. *)
Theorem get_response_unrecognised_type questions (question_type : string) :
  question_type <> "mc" ->
  question_type <> "explanation" ->
  is_sequential question_type = false ->
  chat_contexts prefix chat_type ->
  get_response model prefix questions question_type options_lst chat_type []
  = (Return [], []).
Proof.
  intros Hmc Hexp Hseq Hctx. rewrite get_response_unfold.
  rewrite for_enumerate_unrecognised by assumption. reflexivity.
Qed.

(** X14. When the context builder hands back a string, as a chat type without
    turns has it, the run ends at the first question, before any call of
    the client: a string has no [append], and its characters no key. *)
Theorem get_response_string_context (question : string) (rest : list string)
    (question_type text : string) :
  reconstruct_context prefix [] [] chat_type = Flat text ->
  get_response model prefix (question :: rest) question_type options_lst
    chat_type []
  = (Raise (if (1 <? String.length text)%nat then AttributeError "append"
            else if (String.length text =? 0)%nat then IndexError
            else TypeError), []).
Proof.
  intros Hflat. rewrite get_response_unfold, for_enumerate_cons.
  unfold get_response_body. run_ST. rewrite Hflat. simpl.
  destruct (1 <? String.length text)%nat; [reflexivity|].
  destruct (String.length text =? 0)%nat; reflexivity.
Qed.
End HostedRuns.

Section LocalRuns.
Context {Prefix Prompt P : Type} {helpers : Helpers Prefix Prompt}
        {local_model : LocalModel Prompt P}.
Variables (prefix : Prefix) (options_lst : list (list string))
          (chat_type : string).
Implicit Types questions : list string.

Lemma hf_body_mc questions (question_type : string) (i : nat)
    (question : string) (outputs : list string) (parsed : list (row P))
    (log : list (hf_call Prompt)) :
  question_type = "mc" \/ question_type = "mc-separate" ->
  get_response_hf_body prefix questions question_type options_lst chat_type
    i question (outputs, parsed) log =
  let prompt :=
    append_question
      (reconstruct_context prefix (firstn i questions) outputs chat_type)
      question chat_type in
  match index options_lst i with
  | Raise e => (Raise e, log)
  | Return options =>
      let log' := log ++ [HFAnswer question_type prompt options chat_type] in
      match HF_RESPONSE_answer question_type prompt options chat_type with
      | Raise e => (Raise e, log')
      | Return (answer, probs) =>
          (Return (outputs ++ [answer], parsed ++ [("", answer, probs)]),
           log')
      end
  end.
Proof.
  intros [->| ->]; unfold get_response_hf_body; run_ST;
    (destruct (index options_lst i) as [options|e]; [|reflexivity]);
    unfold call_hf_answer;
    destruct (HF_RESPONSE_answer _ _ _ _) as [[answer probs]|e]; reflexivity.
Qed.

Lemma hf_body_unrecognised questions (question_type : string) (i : nat)
    (question : string) (v : list string * list (row P))
    (log : list (hf_call Prompt)) :
  question_type <> "mc" ->
  question_type <> "mc-separate" ->
  question_type <> "explanation" ->
  is_sequential question_type = false ->
  get_response_hf_body prefix questions question_type options_lst chat_type
    i question v log = (Return v, log).
Proof.
  intros Hmc Hsep Hexp Hseq. destruct v as [outputs parsed].
  unfold get_response_hf_body. run_ST.
  apply String.eqb_neq in Hmc, Hsep, Hexp. rewrite Hmc, Hsep, Hexp, Hseq.
  rewrite !andb_false_r. reflexivity.
Qed.

Lemma hf_answer_options_snoc (log : list (hf_call Prompt))
    (c : hf_call Prompt) :
  hf_answer_options (log ++ [c])
  = hf_answer_options log
    ++ match c with
       | HFAnswer _ _ options _ => [options]
       | _ => []
       end.
Proof.
  unfold hf_answer_options. rewrite omap_app. destruct c; reflexivity.
Qed.

(** X15. The local entry point serves "mc-separate" as it serves "mc": with
    options for every question, it asks one answer per question, in the
    mode it was given and over that question's options, and returns one
    record per question, whose explanation is the empty string. *)
Theorem get_response_hf_mc questions (question_type : string) :
  question_type = "mc" \/ question_type = "mc-separate" ->
  local_model_returns ->
  (length questions <= length options_lst)%nat ->
  exists rows log,
    get_response_hf prefix questions question_type options_lst chat_type []
    = (Return (transpose_rows rows), log)
    /\ length rows = length questions
    /\ Forall (fun r => fst (fst r) = "") rows
    /\ Forall (fun c => exists prompt options,
                 c = HFAnswer question_type prompt options chat_type) log
    /\ hf_answer_options log = firstn (length questions) options_lst.
Proof.
  intros Hqt [Hans Hexp] Hlen.
  pose (Inv := fun (i : nat) (v : list string * list (row P))
                   (log : list (hf_call Prompt)) =>
          length (snd v) = i
          /\ Forall (fun r => fst (fst r) = "") (snd v)
          /\ Forall (fun c => exists prompt options,
                       c = HFAnswer question_type prompt options chat_type)
               log
          /\ hf_answer_options log = firstn i options_lst).
  destruct (for_enumerate_invariant
              (get_response_hf_body prefix questions question_type
                 options_lst chat_type) Inv (length questions)) with
    (xs := questions) (i := 0%nat)
    (v := ([] : list string, [] : list (row P)))
    (s := [] : list (hf_call Prompt))
    as ([outputs rows] & log & Hrun & Hrows & Hempty & Hcalls & Hopts).
  - intros i question [outputs parsed] log Hi (Hp & Hall & Hc & Ho).
    simpl in Hp, Hall. rewrite hf_body_mc by assumption. cbv zeta.
    destruct (index_lt options_lst i) as [options Hopt]; [lia|].
    rewrite Hopt.
    destruct (Hans question_type
                (append_question
                   (reconstruct_context prefix (firstn i questions) outputs
                      chat_type) question chat_type)
                options chat_type) as [[answer probs] ->].
    eexists; eexists. split; [reflexivity|].
    unfold Inv; simpl. rewrite !length_app, hf_answer_options_snoc. simpl.
    split; [lia|]. split.
    { apply Forall_app. split; [assumption | repeat constructor]. }
    split.
    { apply Forall_app. split; [assumption|]. constructor; [eauto|constructor]. }
    rewrite Ho. symmetry. apply firstn_S_index, Hopt.
  - simpl. lia.
  - unfold Inv; simpl. repeat split; constructor.
  - exists rows, log. unfold get_response_hf, mbind, ST_bind.
    rewrite Hrun. simpl in *. repeat split; assumption.
Qed.

(** X16. The local entry point, given a question type it does not know, does
    nothing with any question: no call of the model, the empty list
    returned. *)
Theorem get_response_hf_unrecognised_type questions (question_type : string) :
  question_type <> "mc" ->
  question_type <> "mc-separate" ->
  question_type <> "explanation" ->
  is_sequential question_type = false ->
  get_response_hf prefix questions question_type options_lst chat_type []
  = (Return [], []).
Proof.
  intros Hmc Hsep Hexp Hseq.
  assert (Hloop : forall qs i v log,
            for_enumerate
              (get_response_hf_body prefix questions question_type
                 options_lst chat_type) i qs v log = (Return v, log)).
  { induction qs as [|q qs IH]; intros i v log; [reflexivity|].
    rewrite for_enumerate_cons, hf_body_unrecognised by assumption.
    apply IH. }
  unfold get_response_hf, mbind, ST_bind. rewrite Hloop. reflexivity.
Qed.
End LocalRuns.

Ltac example_backends :=
  first [ intros qs outs; eexists; eexists; reflexivity
        | split; intros; eexists; reflexivity ].

(** The four example questions, each with its own options, in mode "mc". *)
Lemma get_response_mc_witness :
  chat_contexts (helpers := example_helpers) [] "chat"
  /\ client_returns (client_object := example_client)
  /\ (length example_questions <= length example_options)%nat
  /\ exists rows log,
       get_response (helpers := example_helpers)
         (client_object := example_client) "gpt-4" [] example_questions "mc"
         example_options "chat" []
       = (Return (transpose_rows rows), log)
       /\ length rows = length example_questions
       /\ Forall (fun r => fst (fst r) = "") rows
       /\ length log = length example_questions
       /\ answer_tokens log
          = firstn (length example_questions)
              (get_option_letters example_options).
Proof.
  assert (H1 : chat_contexts (helpers := example_helpers) [] "chat")
    by example_backends.
  assert (H2 : client_returns (client_object := example_client))
    by example_backends.
  assert (H3 : (length example_questions <= length example_options)%nat)
    by (simpl; lia).
  repeat (split; [assumption|]).
  exact (get_response_mc (helpers := example_helpers)
           (client_object := example_client) "gpt-4" [] example_options
           "chat" example_questions H1 H2 H3).
Defined.

(** The four example questions with options for the first one only. *)
Lemma get_response_mc_short_options_witness :
  chat_contexts (helpers := example_helpers) [] "chat"
  /\ client_returns (client_object := example_client)
  /\ (length [["yes"; "no"]] < length example_questions)%nat
  /\ exists log,
       get_response (helpers := example_helpers)
         (client_object := example_client) "gpt-4" [] example_questions "mc"
         [["yes"; "no"]] "chat" []
       = (Raise IndexError, log)
       /\ length log = length [["yes"; "no"]]
       /\ answer_tokens log = get_option_letters [["yes"; "no"]].
Proof.
  assert (H1 : chat_contexts (helpers := example_helpers) [] "chat")
    by example_backends.
  assert (H2 : client_returns (client_object := example_client))
    by example_backends.
  assert (H3 : (length [["yes"; "no"]] < length example_questions)%nat)
    by (simpl; lia).
  repeat (split; [assumption|]).
  exact (get_response_mc_short_options (helpers := example_helpers)
           (client_object := example_client) "gpt-4" [] [["yes"; "no"]]
           "chat" example_questions H1 H2 H3).
Defined.

(** The four example questions in mode "explanation", with no options. *)
Lemma get_response_explanation_witness :
  chat_contexts (helpers := example_helpers) [] "chat"
  /\ client_returns (client_object := example_client)
  /\ exists rows log,
       get_response (helpers := example_helpers)
         (client_object := example_client) "gpt-4" [] example_questions
         "explanation" [] "chat" []
       = (Return (transpose_rows rows), log)
       /\ length rows = length example_questions
       /\ Forall (fun r => snd r = []) rows
       /\ length log = length example_questions
       /\ answer_tokens log = [].
Proof.
  assert (H1 : chat_contexts (helpers := example_helpers) [] "chat")
    by example_backends.
  assert (H2 : client_returns (client_object := example_client))
    by example_backends.
  repeat (split; [assumption|]).
  exact (get_response_explanation (helpers := example_helpers)
           (client_object := example_client) "gpt-4" [] [] "chat"
           example_questions H1 H2).
Defined.

(** Five questions, two lists of options: five calls, two records. *)
Lemma get_response_sequential_counts_witness :
  let questions := example_questions ++ ["Explain Q2."] in
  let options_lst := [["yes"; "no"]; ["red"; "green"; "blue"]] in
  is_sequential "sequential-shown" = true
  /\ chat_contexts (helpers := example_helpers) [] "chat"
  /\ client_returns (client_object := example_client)
  /\ (length questions / 2 <= length options_lst)%nat
  /\ exists rows log,
       get_response (helpers := example_helpers)
         (client_object := example_client) "gpt-4" [] questions
         "sequential-shown" options_lst "chat" []
       = (Return (transpose_rows rows), log)
       /\ length rows = (length questions / 2)%nat
       /\ length log = length questions
       /\ answer_tokens log
          = firstn (length questions / 2) (get_option_letters options_lst).
Proof.
  intros questions options_lst.
  assert (H1 : is_sequential "sequential-shown" = true) by reflexivity.
  assert (H2 : chat_contexts (helpers := example_helpers) [] "chat")
    by example_backends.
  assert (H3 : client_returns (client_object := example_client))
    by example_backends.
  assert (H4 : (length questions / 2 <= length options_lst)%nat)
    by (vm_compute; lia).
  repeat (split; [assumption|]).
  exact (get_response_sequential_counts (helpers := example_helpers)
           (client_object := example_client) "gpt-4" [] options_lst "chat"
           questions "sequential-shown" H1 H2 H3 H4).
Defined.

(** The question type "free-text", which the engine has no branch for. *)
Lemma get_response_unrecognised_type_witness :
  "free-text" <> "mc"
  /\ "free-text" <> "explanation"
  /\ is_sequential "free-text" = false
  /\ chat_contexts (helpers := example_helpers) [] "chat"
  /\ get_response (helpers := example_helpers)
       (client_object := example_client) "gpt-4" [] example_questions
       "free-text" example_options "chat" []
     = (Return [], []).
Proof.
  assert (H1 : "free-text" <> "mc") by discriminate.
  assert (H2 : "free-text" <> "explanation") by discriminate.
  assert (H3 : is_sequential "free-text" = false) by reflexivity.
  assert (H4 : chat_contexts (helpers := example_helpers) [] "chat")
    by example_backends.
  repeat (split; [assumption|]).
  exact (get_response_unrecognised_type (helpers := example_helpers)
           (client_object := example_client) "gpt-4" [] example_options
           "chat" example_questions "free-text" H1 H2 H3 H4).
Defined.

(** A context builder that joins everything into one string: the run
    ends on the missing [append]. *)
Lemma get_response_string_context_witness :
  reconstruct_context (Helpers := flat_helpers) "Answer the questions." [] []
    "completion"
  = Flat "Answer the questions."
  /\ get_response (helpers := flat_helpers) (client_object := example_client)
       "gpt-4" "Answer the questions." ["Which one?"; "Why?"] "mc"
       [["yes"; "no"]] "completion" []
     = (Raise (AttributeError "append"), []).
Proof.
  assert (H1 : reconstruct_context (Helpers := flat_helpers)
                 "Answer the questions." [] [] "completion"
               = Flat "Answer the questions.") by reflexivity.
  split; [exact H1|].
  exact (get_response_string_context (helpers := flat_helpers)
           (client_object := example_client) "gpt-4" "Answer the questions."
           [["yes"; "no"]] "completion" "Which one?" ["Why?"] "mc"
           "Answer the questions." H1).
Defined.

(** The local example model in mode "mc-separate". *)
Lemma get_response_hf_mc_witness :
  ("mc-separate" = "mc" \/ "mc-separate" = "mc-separate")
  /\ local_model_returns (local_model := example_local_model)
  /\ (length example_questions <= length example_options)%nat
  /\ exists rows log,
       get_response_hf (helpers := example_helpers)
         (local_model := example_local_model) [] example_questions
         "mc-separate" example_options "chat" []
       = (Return (transpose_rows rows), log)
       /\ length rows = length example_questions
       /\ Forall (fun r => fst (fst r) = "") rows
       /\ Forall (fun c => exists prompt options,
                    c = HFAnswer "mc-separate" prompt options "chat") log
       /\ hf_answer_options log
          = firstn (length example_questions) example_options.
Proof.
  assert (H1 : "mc-separate" = "mc" \/ "mc-separate" = "mc-separate")
    by (right; reflexivity).
  assert (H2 : local_model_returns (local_model := example_local_model))
    by example_backends.
  assert (H3 : (length example_questions <= length example_options)%nat)
    by (simpl; lia).
  repeat (split; [assumption|]).
  exact (get_response_hf_mc (helpers := example_helpers)
           (local_model := example_local_model) [] example_options "chat"
           example_questions "mc-separate" H1 H2 H3).
Defined.

(** The same question type, asked of the local example model. *)
Lemma get_response_hf_unrecognised_type_witness :
  "free-text" <> "mc"
  /\ "free-text" <> "mc-separate"
  /\ "free-text" <> "explanation"
  /\ is_sequential "free-text" = false
  /\ get_response_hf (helpers := example_helpers)
       (local_model := example_local_model) [] example_questions "free-text"
       example_options "chat" []
     = (Return [], []).
Proof.
  assert (H1 : "free-text" <> "mc") by discriminate.
  assert (H2 : "free-text" <> "mc-separate") by discriminate.
  assert (H3 : "free-text" <> "explanation") by discriminate.
  assert (H4 : is_sequential "free-text" = false) by reflexivity.
  repeat (split; [assumption|]).
  exact (get_response_hf_unrecognised_type (helpers := example_helpers)
           (local_model := example_local_model) [] example_options "chat"
           example_questions "free-text" H1 H2 H3 H4).
Defined.

End EngineFacts.

(** ** The orchestrator *)

Module OrchestratorFacts.
Import Orchestrator.

Section RecordsFacts.
Context {Perms : Type} {scoring : Scoring Perms}.

(** The reference returned is the one received. *)
Lemma create_results_dict_same_ref (params : ref) (task_name model_name : value)
    (base_id : string) (sub_id : nat)
    (permuted_answer model_answer model_explanation probabilities : value)
    (permutations : Perms) (h h' : store) (r : ref) :
  create_results_dict params task_name model_name base_id sub_id
    permuted_answer model_answer model_explanation probabilities permutations h
  = (Return r, h') ->
  r = params.
Proof.
  unfold create_results_dict. intros Hrun.
  repeat (apply bind_Return in Hrun as (? & ? & _ & Hrun)).
  apply mret_Return in Hrun as [-> _]. reflexivity.
Qed.

Lemma build_results_from (result_params : ref) (task_name model_name : value)
    (base_id : string)
    (permuted_answers model_answers model_explanations probabilities
       : list value)
    (permutations : Perms) (i : nat) (acc results : list ref) (h h' : store) :
  for_enumerate
    (fun i permuted_answer results =>
       model_answer ← lift (index model_answers i);
       model_explanation ← lift (index model_explanations i);
       probabilities_i ← lift (index probabilities i);
       r ← create_results_dict result_params task_name model_name base_id i
             permuted_answer model_answer model_explanation probabilities_i
             permutations;
       mret (results ++ [r]))
    i permuted_answers acc h = (Return results, h') ->
  results = acc ++ repeat result_params (length permuted_answers).
Proof.
  revert i acc h. induction permuted_answers as [|pa pas IH]; intros i acc h Hrun.
  - apply mret_Return in Hrun as [-> _]. simpl. symmetry. apply app_nil_r.
  - simpl in Hrun. apply bind_Return in Hrun as (acc' & h1 & Hbody & Hrun).
    apply IH in Hrun as ->.
    do 3 (apply bind_Return in Hbody as (? & ? & _ & Hbody)).
    apply bind_Return in Hbody as (r & ? & Hr & Hbody).
    apply create_results_dict_same_ref in Hr as ->.
    apply mret_Return in Hbody as [-> _].
    rewrite <- app_assoc. reflexivity.
Qed.

Lemma deref_Return (r : ref) (h h' : store) (d : record) :
  deref r h = (Return d, h') -> h !! r = Some d /\ h' = h.
Proof.
  unfold deref. destruct (h !! r); intros [= <- <-]; auto.
Qed.

(** Reading a list of references that are all the same gives as many
    copies of one row. *)
Lemma from_records_repeat (r : ref) (k : nat) (h h' : store) (rows : table) :
  from_records (repeat r k) h = (Return rows, h') ->
  exists row, h !! r = Some row /\ rows = repeat row k \/ k = 0%nat /\ rows = [].
Proof.
  unfold from_records. revert rows h'. induction k as [|k IH]; intros rows h' Hrun.
  - apply mret_Return in Hrun as [-> _]. exists []. right. auto.
  - simpl in Hrun. apply bind_Return in Hrun as (row & h1 & Hrow & Hrun).
    apply deref_Return in Hrow as [Hrow ->].
    apply bind_Return in Hrun as (rows' & h2 & Hrows & Hrun).
    apply mret_Return in Hrun as [-> _].
    exists row. left. split; [assumption|].
    apply IH in Hrows as (row' & [[Hrow' ->] | [-> ->]]).
    + simpl. congruence.
    + reflexivity.
Qed.

Lemma setitem_Return (r : ref) (key : string) (v : value) (h h' : store)
    (u : unit) :
  setitem r key v h = (Return u, h') ->
  field r key h' = Some v
  /\ forall key', key' <> key -> field r key' h' = field r key' h.
Proof.
  unfold setitem, update, field. destruct (h !! r) as [d|] eqn:Hd; [|discriminate].
  intros [= _ <-]. unfold store, ref in *.
  pose proof (lookup_lt_Some _ _ _ Hd) as Hlt.
  rewrite list_lookup_insert_eq by assumption. simpl. split.
  - rewrite dict_get_set, String.eqb_refl. reflexivity.
  - intros key' Hne. rewrite dict_get_set.
    destruct (String.eqb_spec key key'); [congruence | reflexivity].
Qed.

Lemma getitem_Return (r : ref) (key : string) (v : value) (h h' : store) :
  getitem r key h = (Return v, h') -> h' = h.
Proof.
  unfold getitem. intros Hrun.
  apply bind_Return in Hrun as (d & h1 & Hd & Hrun).
  apply deref_Return in Hd as [_ ->].
  destruct (dict_get key d); [|discriminate].
  apply mret_Return in Hrun as [_ ->]. reflexivity.
Qed.

Ltac run_create Hrun :=
  repeat
    (let H := fresh "Hstep" in
     apply bind_Return in Hrun as (? & ? & H & Hrun);
     first [ apply setitem_Return in H as [? ?]
           | apply getitem_Return in H as ->
           | apply lift_Return in H as [_ ->] ]);
  apply mret_Return in Hrun as [-> ->].

Ltac read_field :=
  repeat match goal with
         | H : forall key', key' <> ?key -> field ?r key' ?h' = field ?r key' ?h
           |- context [field ?r ?k ?h'] => rewrite (H k) by discriminate
         end;
  assumption.

(** When [create_results_dict] returns, the dictionary it was given holds
    the id and the answers of the sub-question it was called for. *)
Lemma create_results_dict_fields (params : ref) (task_name model_name : value)
    (base_id : string) (sub_id : nat)
    (permuted_answer model_answer model_explanation probabilities : value)
    (permutations : Perms) (h h' : store) (r : ref) :
  create_results_dict params task_name model_name base_id sub_id
    permuted_answer model_answer model_explanation probabilities permutations h
  = (Return r, h') ->
  field params "question_id" h'
    = Some (VStr (base_id +:+ "_" +:+ str_of_nat sub_id))
  /\ field params "permuted_answer" h' = Some permuted_answer
  /\ field params "model_answer" h' = Some model_answer
  /\ field params "model_explanation" h' = Some model_explanation
  /\ field params "probabilities" h' = Some probabilities.
Proof.
  unfold create_results_dict. intros Hrun. run_create Hrun.
  repeat split; read_field.
Qed.

(** After the comprehension, the one dictionary holds what the last
    sub-question left in it. *)
Lemma build_results_last (result_params : ref) (task_name model_name : value)
    (base_id : string)
    (permuted_answers model_answers model_explanations probabilities
       : list value)
    (permutations : Perms) (i : nat) (acc results : list ref) (h h' : store) :
  permuted_answers <> [] ->
  for_enumerate
    (fun i permuted_answer results =>
       model_answer ← lift (index model_answers i);
       model_explanation ← lift (index model_explanations i);
       probabilities_i ← lift (index probabilities i);
       r ← create_results_dict result_params task_name model_name base_id i
             permuted_answer model_answer model_explanation probabilities_i
             permutations;
       mret (results ++ [r]))
    i permuted_answers acc h = (Return results, h') ->
  let last := (i + length permuted_answers - 1)%nat in
  field result_params "question_id" h'
    = Some (VStr (base_id +:+ "_" +:+ str_of_nat last))
  /\ field result_params "permuted_answer" h'
     = nth_error permuted_answers (length permuted_answers - 1)
  /\ field result_params "model_answer" h' = nth_error model_answers last
  /\ field result_params "model_explanation" h'
     = nth_error model_explanations last
  /\ field result_params "probabilities" h' = nth_error probabilities last.
Proof.
  revert i acc h.
  induction permuted_answers as [|pa pas IH]; intros i acc h Hne Hrun;
    [congruence|].
  rewrite for_enumerate_unfold in Hrun.
  apply bind_Return in Hrun as (acc' & h1 & Hbody & Hrun).
  destruct pas as [|pa' pas].
  - apply mret_Return in Hrun as [_ ->].
    apply bind_Return in Hbody as (ma & ? & Hma & Hbody).
    apply lift_Return in Hma as [Hma ->].
    apply bind_Return in Hbody as (me & ? & Hme & Hbody).
    apply lift_Return in Hme as [Hme ->].
    apply bind_Return in Hbody as (pr & ? & Hpr & Hbody).
    apply lift_Return in Hpr as [Hpr ->].
    apply bind_Return in Hbody as (r & ? & Hr & Hbody).
    apply mret_Return in Hbody as [_ ->].
    apply create_results_dict_fields in Hr as (Hq & Hpa & Hm & He & Hp).
    simpl. replace (i + 1 - 1)%nat with i by lia.
    unfold index in Hma, Hme, Hpr.
    destruct (nth_error model_answers i); [|discriminate].
    destruct (nth_error model_explanations i); [|discriminate].
    destruct (nth_error probabilities i); [|discriminate].
    injection Hma as ->. injection Hme as ->. injection Hpr as ->.
    auto.
  - apply IH in Hrun; [|discriminate].
    simpl in Hrun |- *.
    replace (i + S (S (length pas)) - 1)%nat
      with (S i + S (length pas) - 1)%nat by lia.
    replace (length pas - 0)%nat with (length pas) in Hrun by lia.
    exact Hrun.
Qed.

(** C1, as the code has it. The rows appended for one base question are
    [k] copies of one record, [k] being the number of answered
    sub-questions, and that record is the one the last sub-question left:
    its question id is [base_id] followed by [k - 1], and its permuted
    answer, model answer, explanation and probabilities are the last
    ones. *)
Theorem store_results_rows_alias (params : ref)
    (task_data : list (string * value)) (task_name model_name : value)
    (base_id : string)
    (permuted_answers model_answers model_explanations probabilities
       : list value)
    (permutations : Perms) (results_df df' : table) (h h' : store) :
  permuted_answers <> [] ->
  store_results params task_data task_name model_name base_id
    permuted_answers model_answers model_explanations probabilities
    permutations results_df h = (Return df', h') ->
  let k := length permuted_answers in
  exists row,
    df' = results_df ++ repeat row k
    /\ dict_get "question_id" row
       = Some (VStr (base_id +:+ "_" +:+ str_of_nat (k - 1)))
    /\ dict_get "permuted_answer" row = nth_error permuted_answers (k - 1)
    /\ dict_get "model_answer" row = nth_error model_answers (k - 1)
    /\ dict_get "model_explanation" row = nth_error model_explanations (k - 1)
    /\ dict_get "probabilities" row = nth_error probabilities (k - 1).
Proof.
  unfold store_results. intros Hne Hrun.
  apply bind_Return in Hrun as (result_params & ? & _ & Hrun).
  do 2 (apply bind_Return in Hrun as (? & ? & _ & Hrun)).
  apply bind_Return in Hrun as (results & hf & Hresults & Hrun).
  apply bind_Return in Hrun as (rows & ? & Hrows & Hrun).
  apply mret_Return in Hrun as [-> _].
  destruct (build_results_last _ _ _ _ _ _ _ _ _ _ _ _ _ _ Hne Hresults)
    as (Hq & Hpa & Hm & He & Hp).
  apply build_results_from in Hresults as ->. simpl in Hrows.
  apply from_records_repeat in Hrows as (row & [[Hrow ->] | [Hk _]]).
  - exists row. unfold field in *. rewrite Hrow in *. simpl in *.
    replace (0 + length permuted_answers - 1)%nat
      with (length permuted_answers - 1)%nat in * by lia.
    auto 10.
  - destruct permuted_answers; [congruence | discriminate].
Qed.
End RecordsFacts.

(** The base question "7" with two answered sub-questions: the table
    receives two rows, and both are the record of sub-question 1. Nothing
    of sub-question 0 is left in the table. *)
Lemma store_results_rows_alias_witness :
  [VStr "C"; VStr "D"] <> []
  /\ example_run [example_params]
     = (Return [example_row; example_row], [example_params; example_row])
  /\ exists row,
       [example_row; example_row] = [] ++ repeat row 2
       /\ dict_get "question_id" row = Some (VStr "7_1")
       /\ dict_get "permuted_answer" row = Some (VStr "D")
       /\ dict_get "model_answer" row = Some (VStr "B")
       /\ dict_get "model_explanation" row = Some (VStr "")
       /\ dict_get "probabilities" row = Some (VDict []).
Proof.
  assert (H1 : [VStr "C"; VStr "D"] <> []) by discriminate.
  assert (H2 : example_run [example_params]
               = (Return [example_row; example_row],
                  [example_params; example_row])) by reflexivity.
  split; [exact H1|]. split; [exact H2|].
  exact (store_results_rows_alias (scoring := example_scoring) 0%nat
           example_task_data (VStr "steer") (VStr "gpt-4") "7"
           [VStr "C"; VStr "D"] [VStr "A"; VStr "B"] [VStr ""; VStr ""]
           [VDict []; VDict []] tt [] [example_row; example_row]
           [example_params] [example_params; example_row] H1 H2).
Defined.

(** *** Scores, the copy of the parameters, and the metadata *)

Section DictDelFacts.
Context {V : Type}.
Implicit Types (d : odict V).

Lemma dict_get_del_ne (k k' : string) d :
  k' <> k -> dict_get k' (dict_del k d) = dict_get k' d.
Proof.
  intros Hne. induction d as [|[k0 v0] d IH]; simpl; [reflexivity|].
  destruct (String.eqb_spec k0 k) as [->|Hk]; simpl.
  - destruct (String.eqb_spec k k'); [congruence | reflexivity].
  - rewrite IH. reflexivity.
Qed.

Lemma dict_get_None_keys (k : string) d :
  ~ In k (dict_keys d) -> dict_get k d = None.
Proof.
  induction d as [|[k0 v0] d IH]; simpl; [reflexivity|]. intros Hnot.
  destruct (String.eqb_spec k0 k) as [->|Hk]; [tauto | apply IH; tauto].
Qed.

Lemma dict_get_del (k : string) d :
  NoDup (dict_keys d) -> dict_get k (dict_del k d) = None.
Proof.
  induction d as [|[k0 v0] d IH]; simpl; [reflexivity|]. intros Hd.
  apply NoDup_cons in Hd as [Hnotin Hd].
  destruct (String.eqb_spec k0 k) as [->|Hk]; simpl.
  - apply dict_get_None_keys. intros Hin. apply Hnotin, list_elem_of_In, Hin.
  - destruct (String.eqb_spec k0 k); [congruence | apply IH, Hd].
Qed.
End DictDelFacts.

Section StoreFacts.
Context {Perms : Type} {scoring : Scoring Perms}.

Lemma lookup_insert_here (r : ref) (d : record) (h : store) :
  (r < length h)%nat -> (<[r := d]> h : store) !! r = Some d.
Proof. unfold store, ref in *. intros Hr. apply list_lookup_insert_eq, Hr. Qed.

Lemma setitem_insert (r : ref) (key : string) (v : value) (d : record)
    (h : store) :
  (r < length h)%nat ->
  setitem r key v (<[r := d]> h) = (Return tt, <[r := dict_set key v d]> h).
Proof.
  intros Hr. unfold setitem, update. rewrite lookup_insert_here by assumption.
  unfold store, ref in *. rewrite list_insert_insert_eq. reflexivity.
Qed.

Lemma getitem_insert (r : ref) (key : string) (d : record) (h : store) :
  (r < length h)%nat ->
  getitem r key (<[r := d]> h) =
  match dict_get key d with
  | Some v => (Return v, <[r := d]> h)
  | None => (Raise (KeyError key), <[r := d]> h)
  end.
Proof.
  intros Hr. unfold getitem, deref, mbind, ST_bind.
  rewrite lookup_insert_here by assumption.
  destruct (dict_get key d); reflexivity.
Qed.

(** [create_results_dict] on the dictionary [d]: it returns when the
    accuracy minus the random accuracy is a number, and raises, with
    eight keys already assigned, when it is not. *)
Lemma create_results_dict_insert (params : ref) (task_name model_name : value)
    (base_id : string) (sub_id : nat)
    (permuted_answer model_answer model_explanation probabilities : value)
    (permutations : Perms) (d : record) (h : store) :
  (params < length h)%nat ->
  let question_id := VStr (base_id +:+ "_" +:+ str_of_nat sub_id) in
  let accuracy := get_correct question_id permuted_answer in
  let d8 :=
    dict_set "accuracy" accuracy
      (dict_set "probabilities" probabilities
         (dict_set "model_explanation" model_explanation
            (dict_set "model_answer" model_answer
               (dict_set "permuted_answer" permuted_answer
                  (dict_set "question_id" question_id
                     (dict_set "model" model_name
                        (dict_set "task_name" task_name d))))))) in
  create_results_dict params task_name model_name base_id sub_id
    permuted_answer model_answer model_explanation probabilities permutations
    (<[params := d]> h) =
  match value_sub accuracy (get_random_acc question_id) with
  | Return normalized =>
      (Return params,
       <[params :=
           dict_set "expected_calibration"
             (compute_ece
                (convert_probabilities probabilities sub_id permutations)
                (get_true_labels question_id))
             (dict_set "normalized_accuracy" normalized d8)]> h)
  | Raise e => (Raise e, <[params := d8]> h)
  end.
Proof.
  intros Hr question_id accuracy d8. subst d8.
  unfold create_results_dict, mbind, ST_bind.
  do 7 (rewrite setitem_insert by assumption; cbv beta iota).
  rewrite getitem_insert by assumption. rewrite !dict_get_set. simpl.
  rewrite setitem_insert by assumption; cbv beta iota.
  rewrite getitem_insert by assumption. rewrite !dict_get_set. simpl.
  rewrite getitem_insert by assumption. rewrite !dict_get_set. simpl.
  unfold lift. fold question_id. fold accuracy.
  destruct (value_sub accuracy (get_random_acc question_id)) as [n|e];
    [|reflexivity].
  rewrite setitem_insert by assumption; cbv beta iota.
  rewrite getitem_insert by assumption. rewrite !dict_get_set. simpl.
  rewrite setitem_insert by assumption. reflexivity.
Qed.

Ltac other_key Hnot :=
  rewrite !dict_get_set;
  repeat match goal with
         | |- context [String.eqb ?k ?key] =>
             destruct (String.eqb_spec k key) as [<-|_];
             [exfalso; apply Hnot; unfold results_keys; simpl; tauto|]
         end;
  reflexivity.

(** X17. When the accuracy minus the random accuracy is a number,
    [create_results_dict] returns the reference it was given, and the
    dictionary then holds the three scores, computed for the id of the
    sub-question; the keys it does not assign keep their values, and no
    other dictionary changes. *)
Theorem create_results_dict_scores (params : ref)
    (task_name model_name : value) (base_id : string) (sub_id : nat)
    (permuted_answer model_answer model_explanation probabilities : value)
    (permutations : Perms) (d : record) (h : store) (normalized : value) :
  let question_id := VStr (base_id +:+ "_" +:+ str_of_nat sub_id) in
  h !! params = Some d ->
  value_sub (get_correct question_id permuted_answer)
    (get_random_acc question_id) = Return normalized ->
  exists d',
    create_results_dict params task_name model_name base_id sub_id
      permuted_answer model_answer model_explanation probabilities
      permutations h
    = (Return params, <[params := d']> h)
    /\ dict_get "accuracy" d' = Some (get_correct question_id permuted_answer)
    /\ dict_get "normalized_accuracy" d' = Some normalized
    /\ dict_get "expected_calibration" d'
       = Some (compute_ece
                 (convert_probabilities probabilities sub_id permutations)
                 (get_true_labels question_id))
    /\ forall key, ~ In key results_keys -> dict_get key d' = dict_get key d.
Proof.
  intros question_id Hd Hsub.
  pose proof (lookup_lt_Some _ _ _ Hd) as Hr.
  eexists. split.
  - rewrite <- (list_insert_id h params d Hd) at 1.
    rewrite create_results_dict_insert by assumption. cbv zeta.
    fold question_id. rewrite Hsub. reflexivity.
  - split; [rewrite !dict_get_set; reflexivity|].
    split; [rewrite !dict_get_set; reflexivity|].
    split; [rewrite !dict_get_set; reflexivity|].
    intros key Hnot. other_key Hnot.
Qed.

Lemma build_results_insert (result_params : ref)
    (task_name model_name : value) (base_id : string)
    (permuted_answers model_answers model_explanations probabilities
       : list value)
    (permutations : Perms) (i : nat) (acc results : list ref)
    (d : record) (h h' : store) :
  (result_params < length h)%nat ->
  for_enumerate
    (fun i permuted_answer results =>
       model_answer ← lift (index model_answers i);
       model_explanation ← lift (index model_explanations i);
       probabilities_i ← lift (index probabilities i);
       r ← create_results_dict result_params task_name model_name base_id i
             permuted_answer model_answer model_explanation probabilities_i
             permutations;
       mret (results ++ [r]))
    i permuted_answers acc (<[result_params := d]> h) = (Return results, h') ->
  exists d',
    h' = <[result_params := d']> h
    /\ forall key, ~ In key results_keys -> dict_get key d' = dict_get key d.
Proof.
  intros Hr. revert i acc d.
  induction permuted_answers as [|pa pas IH]; intros i acc d Hrun.
  - apply mret_Return in Hrun as [_ ->]. exists d. auto.
  - rewrite for_enumerate_unfold in Hrun.
    apply bind_Return in Hrun as (acc' & h1 & Hbody & Hrun).
    do 3 (let H := fresh in
          apply bind_Return in Hbody as (? & ? & H & Hbody);
          apply lift_Return in H as [_ ->]).
    apply bind_Return in Hbody as (r & h2 & Hcreate & Hbody).
    apply mret_Return in Hbody as [_ ->].
    rewrite create_results_dict_insert in Hcreate by assumption.
    cbv zeta in Hcreate.
    destruct (value_sub _ _) as [n|e]; [|discriminate].
    injection Hcreate as _ <-.
    apply IH in Hrun as (d' & -> & Hframe).
    exists d'. split; [reflexivity|].
    intros key Hnot. rewrite (Hframe key Hnot). other_key Hnot.
Qed.

Lemma from_records_store (results : list ref) (rows : table) (h h' : store) :
  from_records results h = (Return rows, h') ->
  h' = h /\ length rows = length results.
Proof.
  unfold from_records. revert rows h'.
  induction results as [|r results IH]; intros rows h' Hrun.
  - apply mret_Return in Hrun as [-> ->]. auto.
  - simpl in Hrun. apply bind_Return in Hrun as (row & h1 & Hrow & Hrun).
    apply deref_Return in Hrow as [_ ->].
    apply bind_Return in Hrun as (rows' & h2 & Hrows & Hrun).
    apply mret_Return in Hrun as [-> ->].
    apply IH in Hrows as [-> Hlen]. simpl. auto.
Qed.

Lemma update_from_insert (r : ref) (task_data : list (string * value))
    (d : record) (h : store) :
  (r < length h)%nat ->
  update_from r task_data (<[r := d]> h)
  = (Return tt,
     <[r := fold_left (fun d kv => dict_set (fst kv) (snd kv) d) task_data d]>
       h).
Proof.
  intros Hr. revert d.
  induction task_data as [|[data v] rest IH]; intros d; [reflexivity|].
  simpl. unfold mbind, ST_bind. rewrite setitem_insert by assumption.
  apply IH.
Qed.

Lemma NoDup_update_from (task_data : list (string * value)) (d : record) :
  NoDup (dict_keys d) ->
  NoDup (dict_keys
           (fold_left (fun d kv => dict_set (fst kv) (snd kv) d) task_data d)).
Proof.
  revert d. induction task_data as [|[data v] rest IH]; intros d Hd;
    [assumption|].
  simpl. apply IH, NoDup_dict_keys_set, Hd.
Qed.

Lemma dict_get_update_from (key : string) (task_data : list (string * value))
    (d : record) :
  Forall (fun kv => fst kv <> key) task_data ->
  dict_get key
    (fold_left (fun d kv => dict_set (fst kv) (snd kv) d) task_data d)
  = dict_get key d.
Proof.
  intros Hall. revert d.
  induction Hall as [|[data v] rest Hne _ IH]; intros d; [reflexivity|].
  simpl. rewrite IH, dict_get_set. simpl in Hne.
  destruct (String.eqb_spec data key); [contradiction | reflexivity].
Qed.

Lemma pop_insert (r : ref) (key : string) (d : record) (h : store) :
  (r < length h)%nat ->
  pop r key (<[r := d]> h) =
  match dict_get key d with
  | Some v => (Return v, <[r := dict_del key d]> h)
  | None => (Raise (KeyError key), <[r := d]> h)
  end.
Proof.
  intros Hr. unfold pop, mbind at 1, ST_bind.
  rewrite getitem_insert by assumption.
  destruct (dict_get key d); [|reflexivity].
  unfold mbind, ST_bind, update. rewrite lookup_insert_here by assumption.
  unfold store, ref in *. rewrite list_insert_insert_eq. reflexivity.
Qed.

Lemma copy_run (params : ref) (h : store) :
  copy params h =
  match h !! params with
  | Some d => (Return (length h), <[length h := d]> (h ++ [d]))
  | None => (Raise (RuntimeError "dangling reference"), h)
  end.
Proof.
  unfold copy, deref, alloc, mbind, ST_bind.
  destruct (h !! params) as [d|]; [|reflexivity].
  unfold store, ref in *.
  rewrite list_insert_id; [reflexivity|].
  rewrite lookup_app_r by lia. rewrite Nat.sub_diag. reflexivity.
Qed.

Lemma insert_last (d d' : record) (h : store) :
  <[length h := d']> (h ++ [d]) = h ++ [d'].
Proof.
  unfold store in *.
  rewrite <- (Nat.add_0_r (length h)) at 1. rewrite insert_app_r. reflexivity.
Qed.

(** X18. [store_results] works on a copy: when it returns, the store is the
    one it started from followed by one new dictionary, so that the
    combination of the grid is as it was, with its [num_sample]; the new
    dictionary has no key [num_sample]; and the table has grown by one
    row for each permuted answer. *)
Theorem store_results_copy (params : ref)
    (task_data : list (string * value)) (task_name model_name : value)
    (base_id : string)
    (permuted_answers model_answers model_explanations probabilities
       : list value)
    (permutations : Perms) (results_df df' : table) (h h' : store) :
  (forall d, h !! params = Some d -> NoDup (dict_keys d)) ->
  store_results params task_data task_name model_name base_id
    permuted_answers model_answers model_explanations probabilities
    permutations results_df h = (Return df', h') ->
  exists d',
    h' = h ++ [d']
    /\ dict_get "num_sample" d' = None
    /\ length df' = (length results_df + length permuted_answers)%nat.
Proof.
  intros Hkeys Hrun. unfold store_results in Hrun.
  apply bind_Return in Hrun as (result_params & h1 & Hcopy & Hrun).
  rewrite copy_run in Hcopy.
  destruct (h !! params) as [d|] eqn:Hd; [|discriminate].
  injection Hcopy as <- <-.
  assert (Hr : (length h < length (h ++ [d]))%nat)
    by (rewrite length_app; simpl; lia).
  apply bind_Return in Hrun as (u & h2 & Hupdate & Hrun).
  rewrite update_from_insert in Hupdate by assumption.
  injection Hupdate as _ <-.
  apply bind_Return in Hrun as (v & h3 & Hpop & Hrun).
  rewrite pop_insert in Hpop by assumption.
  destruct (dict_get "num_sample" _) as [v'|]; [|discriminate].
  injection Hpop as _ <-.
  apply bind_Return in Hrun as (results & h4 & Hresults & Hrun).
  apply bind_Return in Hrun as (rows & h5 & Hrows & Hrun).
  apply mret_Return in Hrun as [-> ->].
  apply from_records_store in Hrows as [-> Hlen].
  pose proof Hresults as Hrefs. apply build_results_from in Hrefs.
  unfold build_results in Hresults.
  apply build_results_insert in Hresults as (d' & -> & Hframe);
    [|assumption].
  exists d'. split; [apply insert_last|]. split.
  - rewrite Hframe by (unfold results_keys; simpl; intuition discriminate).
    apply dict_get_del, NoDup_update_from, (Hkeys d eq_refl).
  - rewrite length_app, Hlen, Hrefs. simpl. rewrite repeat_length. reflexivity.
Qed.

(** X19. Without a key [num_sample], in the parameters and in the task data,
    [store_results] raises the [KeyError] of [pop], whatever the answers
    are; the dictionary the parameters refer to is left as it was. *)
Theorem store_results_missing_num_sample (params : ref)
    (task_data : list (string * value)) (task_name model_name : value)
    (base_id : string)
    (permuted_answers model_answers model_explanations probabilities
       : list value)
    (permutations : Perms) (results_df : table) (d : record) (h : store) :
  h !! params = Some d ->
  dict_get "num_sample" d = None ->
  Forall (fun kv => fst kv <> "num_sample") task_data ->
  exists h',
    store_results params task_data task_name model_name base_id
      permuted_answers model_answers model_explanations probabilities
      permutations results_df h = (Raise (KeyError "num_sample"), h')
    /\ h' !! params = Some d.
Proof.
  intros Hd Hnone Hdata.
  assert (Hr : (length h < length (h ++ [d]))%nat)
    by (rewrite length_app; simpl; lia).
  eexists. split.
  - unfold store_results, mbind at 1, ST_bind. rewrite copy_run, Hd.
    unfold mbind at 1, ST_bind. rewrite update_from_insert by assumption.
    unfold mbind at 1, ST_bind. rewrite pop_insert by assumption.
    rewrite dict_get_update_from, Hnone by assumption. reflexivity.
  - rewrite insert_last. unfold store, ref in *.
    rewrite lookup_app_l by (eapply lookup_lt_Some; eassumption).
    assumption.
Qed.
End StoreFacts.

Section MetadataFacts.
Context {Perm : Type}.

Lemma append_inj (prefix a b : string) :
  prefix +:+ a = prefix +:+ b -> a = b.
Proof.
  induction prefix as [|c prefix IH]; simpl; [auto|].
  intros [= H]. apply IH, H.
Qed.

Lemma to_int_not_nil (z : Z) :
  Z.to_int z <> Decimal.Pos Decimal.Nil
  /\ Z.to_int z <> Decimal.Neg Decimal.Nil.
Proof.
  pose proof (DecimalZ.to_of (Z.to_int z)) as H.
  rewrite DecimalZ.of_to in H.
  split; intros Hnil; rewrite Hnil in H; discriminate H.
Qed.

Lemma str_of_nat_inj (i j : nat) : str_of_nat i = str_of_nat j -> i = j.
Proof.
  unfold str_of_nat, str_of_Z. intros H.
  apply (f_equal NilZero.int_of_string) in H.
  rewrite !NilZero.isi in H by apply to_int_not_nil.
  injection H as H. apply DecimalZ.to_int_inj in H. lia.
Qed.

(** X20. The metadata of a base question has one row per permutation, and the
    question ids of its rows are [base_id] followed by 0, 1, ... in
    order: no two rows have the same id. *)
Theorem result_metadata_question_ids (args_task_name model : value)
    (base_id : string) (permutations : list Perm)
    (test_questions : list string) (elapsed : R) :
  let rows :=
    result_metadata args_task_name model base_id permutations test_questions
      elapsed in
  length rows = length permutations
  /\ question_id <$> rows
     = (fun i => base_id +:+ "_" +:+ str_of_nat i)
       <$> seq 0 (length permutations)
  /\ NoDup (question_id <$> rows).
Proof.
  intros rows. subst rows. unfold result_metadata.
  assert (Hids : question_id <$>
                   imap (fun i permutation_i =>
                           {| task_name := args_task_name;
                              model_name := model;
                              question_id := base_id +:+ "_" +:+ str_of_nat i;
                              permutation := permutation_i;
                              prompt := test_questions;
                              inference_time := elapsed |}) permutations
                 = (fun i => base_id +:+ "_" +:+ str_of_nat i)
                   <$> seq 0 (length permutations)).
  { rewrite fmap_imap.
    apply (imap_seq_0 permutations
             (fun i => base_id +:+ "_" +:+ str_of_nat i)). }
  split; [apply length_imap|]. split; [exact Hids|].
  rewrite Hids. apply NoDup_fmap_2; [|apply NoDup_seq].
  intros i j H. apply append_inj, append_inj in H.
  apply str_of_nat_inj, H.
Qed.
End MetadataFacts.

(** Sub-question 1 of base question "7", scored in the first combination
    of the grid: accuracy 1, minus a random accuracy of 0. *)
Lemma create_results_dict_scores_witness :
  let question_id := VStr "7_1" in
  ([example_params] : store) !! 0%nat = Some example_params
  /\ value_sub
       (get_correct (Scoring := example_scoring) question_id (VStr "D"))
       (get_random_acc (Scoring := example_scoring) question_id)
     = Return (VInt 1)
  /\ exists d',
       create_results_dict (scoring := example_scoring) 0%nat (VStr "steer")
         (VStr "gpt-4") "7" 1 (VStr "D") (VStr "B") (VStr "") (VDict []) tt
         [example_params]
       = (Return 0%nat, <[0%nat := d']> [example_params])
       /\ dict_get "accuracy" d' = Some (VInt 1)
       /\ dict_get "normalized_accuracy" d' = Some (VInt 1)
       /\ dict_get "expected_calibration" d' = Some (VInt 0)
       /\ forall key, ~ In key results_keys ->
                      dict_get key d' = dict_get key example_params.
Proof.
  intros question_id.
  assert (H1 : ([example_params] : store) !! 0%nat = Some example_params)
    by reflexivity.
  assert (H2 : value_sub
                 (get_correct (Scoring := example_scoring) question_id
                    (VStr "D"))
                 (get_random_acc (Scoring := example_scoring) question_id)
               = Return (VInt 1)) by reflexivity.
  split; [exact H1|]. split; [exact H2|].
  exact (create_results_dict_scores (scoring := example_scoring) 0%nat
           (VStr "steer") (VStr "gpt-4") "7" 1 (VStr "D") (VStr "B")
           (VStr "") (VDict []) tt example_params [example_params] (VInt 1)
           H1 H2).
Defined.

(** The example run: the combination of the grid is still the first
    dictionary of the store, and the record is a second one. *)
Lemma store_results_copy_witness :
  (forall d, ([example_params] : store) !! 0%nat = Some d ->
             NoDup (dict_keys d))
  /\ example_run [example_params]
     = (Return [example_row; example_row], [example_params; example_row])
  /\ exists d',
       [example_params; example_row] = [example_params] ++ [d']
       /\ dict_get "num_sample" d' = None
       /\ length [example_row; example_row] = (length (@nil record) + 2)%nat.
Proof.
  assert (H1 : forall d, ([example_params] : store) !! 0%nat = Some d ->
                         NoDup (dict_keys d)).
  { intros d [= <-]. apply (bool_decide_unpack _). vm_compute. exact I. }
  assert (H2 : example_run [example_params]
               = (Return [example_row; example_row],
                  [example_params; example_row])) by reflexivity.
  split; [exact H1|]. split; [exact H2|].
  exact (store_results_copy (scoring := example_scoring) 0%nat
           example_task_data (VStr "steer") (VStr "gpt-4") "7"
           [VStr "C"; VStr "D"] [VStr "A"; VStr "B"] [VStr ""; VStr ""]
           [VDict []; VDict []] tt [] [example_row; example_row]
           [example_params] [example_params; example_row] H1 H2).
Defined.

(** Parameters that hold nothing but a number of shots. *)
Lemma store_results_missing_num_sample_witness :
  let d : record := [("num_shots", VInt 0)] in
  ([d] : store) !! 0%nat = Some d
  /\ dict_get "num_sample" d = None
  /\ Forall (fun kv => fst kv <> "num_sample") example_task_data
  /\ exists h',
       store_results (scoring := example_scoring) 0%nat example_task_data
         (VStr "steer") (VStr "gpt-4") "7" [VStr "C"; VStr "D"]
         [VStr "A"; VStr "B"] [VStr ""; VStr ""] [VDict []; VDict []] tt []
         [d]
       = (Raise (KeyError "num_sample"), h')
       /\ h' !! 0%nat = Some d.
Proof.
  intros d.
  assert (H1 : ([d] : store) !! 0%nat = Some d) by reflexivity.
  assert (H2 : dict_get "num_sample" d = None) by reflexivity.
  assert (H3 : Forall (fun kv : string * value => fst kv <> "num_sample")
                 example_task_data)
    by (repeat constructor; discriminate).
  split; [exact H1|]. split; [exact H2|]. split; [exact H3|].
  exact (store_results_missing_num_sample (scoring := example_scoring) 0%nat
           example_task_data (VStr "steer") (VStr "gpt-4") "7"
           [VStr "C"; VStr "D"] [VStr "A"; VStr "B"] [VStr ""; VStr ""]
           [VDict []; VDict []] tt [] d [d] H1 H2 H3).
Defined.

End OrchestratorFacts.

(** ** The local model loader *)

Module LoaderFacts.
Import Loader.

Lemma range_bounds (n i : Z) : In i (range n) -> 0 <= i < n.
Proof.
  unfold range. rewrite in_map_iff. intros (k & <- & Hk).
  apply in_seq in Hk. lia.
Qed.

Section BuildKwargs.
Context {Model Tokenizer : Type} {machine : Machine Model Tokenizer}.

(** C7, as the code has it. A CPU target gets 32-bit weights and no
    placement, whatever the number of devices. An accelerator target
    gets 16-bit weights, and a placement exactly when the number of
    devices is not 1 (so also for 0 devices): with an explicit cap,
    placement "auto" and that cap for each device of [range(num_gpus)];
    without one, placement "sequential" and for device [i] the whole
    number of GiB in 85% of its free memory, provided the memory of
    every device was reported. Any other device string is a
    [ValueError]. *)
Theorem build_kwargs_placement :
  (forall num_gpus max_gpu_mem,
     build_kwargs "cpu" num_gpus max_gpu_mem
     = Return {| torch_dtype := float32; device_map := None;
                 max_memory := None |})
  /\ (forall max_gpu_mem,
        build_kwargs "cuda" 1 max_gpu_mem
        = Return {| torch_dtype := float16; device_map := None;
                    max_memory := None |})
  /\ (forall num_gpus cap,
        num_gpus <> 1 ->
        build_kwargs "cuda" num_gpus (Some cap)
        = Return {| torch_dtype := float16; device_map := Some "auto";
                    max_memory :=
                      Some (map (fun i => (i, cap)) (range num_gpus)) |})
  /\ (forall num_gpus,
        num_gpus <> 1 ->
        (Z.to_nat num_gpus <= length (get_gpu_memory num_gpus))%nat ->
        build_kwargs "cuda" num_gpus None
        = Return {| torch_dtype := float16; device_map := Some "sequential";
                    max_memory :=
                      Some (map (fun i =>
                                   (i, cap_of (nth (Z.to_nat i)
                                                   (get_gpu_memory num_gpus)
                                                   0%Q)))
                                (range num_gpus)) |})
  /\ build_kwargs "cuda" 3 (Some "10GiB")
     = Return {| torch_dtype := float16; device_map := Some "auto";
                 max_memory :=
                   Some [(0, "10GiB"); (1, "10GiB"); (2, "10GiB")] |}
  /\ (forall device num_gpus max_gpu_mem,
        device <> "cpu" -> device <> "cuda" ->
        build_kwargs device num_gpus max_gpu_mem
        = Raise (ValueError ("Invalid device: " +:+ device))).
Proof.
  repeat split.
  - intros num_gpus cap Hn. unfold build_kwargs. simpl.
    destruct (Z.eqb_spec num_gpus 1); [contradiction | reflexivity].
  - intros num_gpus Hn Hmem. unfold build_kwargs. simpl.
    destruct (Z.eqb_spec num_gpus 1); [contradiction|]. simpl.
    rewrite (mapM_Return _
               (fun i => (i, cap_of (nth (Z.to_nat i)
                                         (get_gpu_memory num_gpus) 0%Q)))).
    + reflexivity.
    + apply Forall_forall. intros i Hi.
      apply list_elem_of_In, range_bounds in Hi.
      unfold index.
      rewrite (nth_error_nth' _ 0%Q) by lia. reflexivity.
  - intros device num_gpus cap Hcpu Hcuda. unfold build_kwargs.
    destruct (String.eqb_spec device "cpu"); [contradiction|].
    destruct (String.eqb_spec device "cuda"); [contradiction|].
    reflexivity.
Qed.
End BuildKwargs.

(** Three devices with 24, 12.5 and 8 GiB free: caps of 20, 10 and 6 GiB. *)
Lemma build_kwargs_placement_witness :
  3 <> 1
  /\ (Z.to_nat 3 <= length (get_gpu_memory (Machine := machine_with (Return [])) 3))%nat
  /\ build_kwargs (machine := machine_with (Return [])) "cuda" 3 None
     = Return {| torch_dtype := float16; device_map := Some "sequential";
                 max_memory := Some [(0, "20GiB"); (1, "10GiB"); (2, "6GiB")] |}.
Proof.
  assert (H1 : 3 <> 1) by lia.
  assert (H2 : (Z.to_nat 3 <= length (get_gpu_memory
                  (Machine := machine_with (Return [])) 3))%nat)
    by (vm_compute; lia).
  split; [exact H1|]. split; [exact H2|].
  exact (proj1 (proj2 (proj2 (proj2
           (build_kwargs_placement (machine := machine_with (Return []))))))
           3 H1 H2).
Defined.

(** C7, as stated, fails. For 0 devices, which is not more than one, the
    options of an accelerator target have a placement all the same:
    "sequential" with no cap at all, or "auto" under an explicit cap. *)
Lemma build_kwargs_no_device_counterexample :
  build_kwargs (machine := machine_with (Return [])) "cuda" 0 None
  = Return {| torch_dtype := float16; device_map := Some "sequential";
              max_memory := Some [] |}
  /\ build_kwargs (machine := machine_with (Return [])) "cuda" 0 (Some "10GiB")
     = Return {| torch_dtype := float16; device_map := Some "auto";
                 max_memory := Some [] |}.
Proof. split; reflexivity. Qed.

Section LoadModelTokenizer.
Context {Model Tokenizer : Type} {machine : Machine Model Tokenizer}.

(** An exception of [load_model] that [except Exception] catches is
    printed and turned into the pair [(False, False)]. *)
Lemma try_load_model_catches (model_path : string) (kw : kwargs)
    (out out' : list printed) (error : exn) :
  load_model model_path kw out = (Raise error, out') ->
  is_Exception error = true ->
  try_load_model model_path kw out
  = (Return FalseFalse, out' ++ [ErrorLoadingModel error]).
Proof.
  intros Hload Hexc. unfold try_load_model. rewrite Hload, Hexc. reflexivity.
Qed.

Lemma load_model_tokenizer_load_raises (model_path device : string)
    (num_gpus : Z) (max_gpu_mem : option string) (kw : kwargs)
    (entries : list string) (first : string) (out out' : list printed)
    (error : exn) :
  build_kwargs device num_gpus max_gpu_mem = Return kw ->
  listdir (path_join model_path "snapshots/") = Return (first :: entries) ->
  load_model (path_join (path_join model_path "snapshots/") first) kw
    (out ++ [LoadingModelFrom
               (path_join (path_join model_path "snapshots/") first)])
  = (Raise error, out') ->
  is_Exception error = true ->
  load_model_tokenizer model_path device num_gpus max_gpu_mem out
  = (Return FalseFalse, out' ++ [ErrorLoadingModel error]).
Proof.
  intros Hkw Hdir Hload Hexc. unfold load_model_tokenizer.
  unfold mbind, ST_bind, lift, print. rewrite Hkw, Hdir. simpl.
  rewrite (try_load_model_catches _ _ _ _ _ Hload Hexc). reflexivity.
Qed.

(** An exception raised while the "snapshots" directory is listed is
    raised by [load_model_tokenizer]: nothing is printed and no pair is
    returned. *)
Lemma load_model_tokenizer_listdir_raises (model_path device : string)
    (num_gpus : Z) (max_gpu_mem : option string) (kw : kwargs)
    (out : list printed) (error : exn) :
  build_kwargs device num_gpus max_gpu_mem = Return kw ->
  listdir (path_join model_path "snapshots/") = Raise error ->
  load_model_tokenizer model_path device num_gpus max_gpu_mem out
  = (Raise error, out).
Proof.
  intros Hkw Hdir. unfold load_model_tokenizer.
  unfold mbind, ST_bind, lift. rewrite Hkw, Hdir. reflexivity.
Qed.

(** So is the index error of an empty "snapshots" directory. *)
Lemma load_model_tokenizer_no_entry (model_path device : string)
    (num_gpus : Z) (max_gpu_mem : option string) (kw : kwargs)
    (out : list printed) :
  build_kwargs device num_gpus max_gpu_mem = Return kw ->
  listdir (path_join model_path "snapshots/") = Return [] ->
  load_model_tokenizer model_path device num_gpus max_gpu_mem out
  = (Raise IndexError, out).
Proof.
  intros Hkw Hdir. unfold load_model_tokenizer.
  unfold mbind, ST_bind, lift. rewrite Hkw, Hdir. reflexivity.
Qed.
(** C8, as the code has it. The options being built (a valid device
    string), whatever exception the listing of the "snapshots" directory
    raises is raised by [load_model_tokenizer], and an empty directory
    makes it raise an index error: either way nothing is printed and no
    pair [(False, False)] is returned. Both come before the [try]. *)
Theorem load_model_tokenizer_resolution_raises (model_path device : string)
    (num_gpus : Z) (max_gpu_mem : option string) (kw : kwargs)
    (out : list printed) :
  build_kwargs device num_gpus max_gpu_mem = Return kw ->
  (forall error,
     listdir (path_join model_path "snapshots/") = Raise error ->
     load_model_tokenizer model_path device num_gpus max_gpu_mem out
     = (Raise error, out))
  /\ (listdir (path_join model_path "snapshots/") = Return [] ->
      load_model_tokenizer model_path device num_gpus max_gpu_mem out
      = (Raise IndexError, out)).
Proof.
  intros Hkw. split.
  - intros error Hdir.
    apply (load_model_tokenizer_listdir_raises _ _ _ _ kw); assumption.
  - intros Hdir. apply (load_model_tokenizer_no_entry _ _ _ _ kw); assumption.
Qed.
End LoadModelTokenizer.

(** A model directory without "snapshots", on an accelerator target with
    two devices: the call raises the file-not-found error of
    [os.listdir]. *)
Lemma load_model_tokenizer_resolution_raises_witness :
  let kw := {| torch_dtype := float16; device_map := Some "sequential";
               max_memory := Some [(0, "20GiB"); (1, "10GiB")] |} in
  build_kwargs (machine := machine_without_snapshots) "cuda" 2 None = Return kw
  /\ listdir (Machine := machine_without_snapshots)
       (path_join "/models/gpt2" "snapshots/")
     = Raise (FileNotFoundError "/models/gpt2/snapshots/")
  /\ load_model_tokenizer (machine := machine_without_snapshots)
       "/models/gpt2" "cuda" 2 None []
     = (Raise (FileNotFoundError "/models/gpt2/snapshots/"), []).
Proof.
  intros kw.
  assert (H1 : build_kwargs (machine := machine_without_snapshots) "cuda" 2 None
               = Return kw) by reflexivity.
  assert (H2 : listdir (Machine := machine_without_snapshots)
                 (path_join "/models/gpt2" "snapshots/")
               = Raise (FileNotFoundError "/models/gpt2/snapshots/"))
    by reflexivity.
  split; [exact H1|]. split; [exact H2|].
  exact (proj1 (load_model_tokenizer_resolution_raises
                  (machine := machine_without_snapshots)
                  "/models/gpt2" "cuda" 2 None kw [] H1) _ H2).
Defined.

(** The same call, and the call for an empty "snapshots" directory,
    evaluated. *)
Lemma load_model_tokenizer_missing_snapshots :
  load_model_tokenizer (machine := machine_without_snapshots)
    "/models/gpt2" "cuda" 2 None []
  = (Raise (FileNotFoundError "/models/gpt2/snapshots/"), [])
  /\ load_model_tokenizer (machine := machine_with (Return []))
       "/models/gpt2" "cuda" 2 None []
     = (Raise IndexError, []).
Proof. split; reflexivity. Qed.

(** *** What happens once the snapshot is resolved *)

Lemma mapM_Raise {A B} (f : A -> result B) (e : exn) (l : list A) :
  Forall (fun x => f x = Raise e \/ returns (f x)) l ->
  Exists (fun x => f x = Raise e) l ->
  mapM f l = Raise e.
Proof.
  induction 1 as [|x l Hx _ IH]; intros Hex; [inversion Hex|].
  simpl. destruct Hx as [Hx|[y Hy]].
  - rewrite Hx. reflexivity.
  - rewrite Hy. simpl. inversion Hex as [? ? Hhere|? ? Hlater]; subst.
    + congruence.
    + rewrite (IH Hlater). reflexivity.
Qed.

Section Resolved.
Context {Model Tokenizer : Type} {machine : Machine Model Tokenizer}.
Variables (model_path device : string) (num_gpus : Z)
          (max_gpu_mem : option string).

(** The path of the checkpoint: the first entry listed under
    "snapshots/". *)
Local Abbreviation snapshot first :=
  (path_join (path_join model_path "snapshots/") first).

Lemma load_model_tokenizer_resolved (kw : kwargs) (first : string)
    (entries : list string) (out : list printed) :
  build_kwargs device num_gpus max_gpu_mem = Return kw ->
  listdir (path_join model_path "snapshots/") = Return (first :: entries) ->
  load_model_tokenizer model_path device num_gpus max_gpu_mem out =
  match try_load_model (snapshot first) kw
          (out ++ [LoadingModelFrom (snapshot first)]) with
  | (Return (Loaded model tokenizer), out') =>
      if String.eqb device "cuda" && (num_gpus =? 1) then
        match model_to model device with
        | Return _ => (Return (Loaded model tokenizer), out')
        | Raise e => (Raise e, out')
        end
      else (Return (Loaded model tokenizer), out')
  | (Return FalseFalse, out') => (Return FalseFalse, out')
  | (Raise e, out') => (Raise e, out')
  end.
Proof.
  intros Hkw Hdir. unfold load_model_tokenizer.
  unfold mbind, ST_bind, lift, print. rewrite Hkw, Hdir. simpl.
  destruct (try_load_model _ _ _) as [[[model tokenizer|]|e] out'];
    try reflexivity.
  destruct (String.eqb device "cuda" && (num_gpus =? 1)); [|reflexivity].
  destruct (model_to model device); reflexivity.
Qed.

Lemma load_model_found (base_path : string) (kw : kwargs)
    (out : list printed) :
  path_exists base_path = true ->
  load_model base_path kw out =
  match AutoTokenizer_from_pretrained base_path with
  | Raise e => (Raise e, out)
  | Return tokenizer =>
      match AutoModelForCausalLM_from_pretrained base_path kw with
      | Return model => (Return (Loaded model tokenizer), out)
      | Raise NameError =>
          match AutoModel_from_pretrained_low_cpu_mem base_path kw with
          | Return model => (Return (Loaded model tokenizer), out)
          | Raise e => (Raise e, out)
          end
      | Raise e => (Raise e, out)
      end
  end.
Proof.
  intros Hexists. unfold load_model. rewrite Hexists. simpl.
  unfold mbind, ST_bind, lift.
  destruct (AutoTokenizer_from_pretrained base_path); [|reflexivity].
  destruct (AutoModelForCausalLM_from_pretrained base_path kw) as [model|e];
    [reflexivity|].
  destruct e; try reflexivity.
Qed.

(** X21. The checkpoint is the first entry listed. When it loads, the pair is
    returned and the only line printed is the path; the model is the one
    of the causal-LM loader, or, when that loader raises a [NameError],
    the one of the generic loader. The move to the device is asked for a
    single accelerator only. *)
Theorem load_model_tokenizer_loads (kw : kwargs) (first : string)
    (entries : list string) (out : list printed) (model : Model)
    (tokenizer : Tokenizer) :
  build_kwargs device num_gpus max_gpu_mem = Return kw ->
  listdir (path_join model_path "snapshots/") = Return (first :: entries) ->
  path_exists (snapshot first) = true ->
  AutoTokenizer_from_pretrained (snapshot first) = Return tokenizer ->
  AutoModelForCausalLM_from_pretrained (snapshot first) kw = Return model
  \/ (AutoModelForCausalLM_from_pretrained (snapshot first) kw
      = Raise NameError
      /\ AutoModel_from_pretrained_low_cpu_mem (snapshot first) kw
         = Return model) ->
  (device = "cuda" -> num_gpus = 1 -> returns (model_to model device)) ->
  load_model_tokenizer model_path device num_gpus max_gpu_mem out
  = (Return (Loaded model tokenizer),
     out ++ [LoadingModelFrom (snapshot first)]).
Proof.
  intros Hkw Hdir Hexists Htok Hmodel Hmove.
  rewrite (load_model_tokenizer_resolved kw first entries) by assumption.
  unfold try_load_model. rewrite load_model_found by assumption.
  rewrite Htok.
  assert (Hload :
            match AutoModelForCausalLM_from_pretrained (snapshot first) kw with
            | Return model => (Return (Loaded model tokenizer),
                               out ++ [LoadingModelFrom (snapshot first)])
            | Raise NameError =>
                match AutoModel_from_pretrained_low_cpu_mem (snapshot first) kw
                with
                | Return model => (Return (Loaded model tokenizer),
                                   out ++ [LoadingModelFrom (snapshot first)])
                | Raise e => (Raise e,
                              out ++ [LoadingModelFrom (snapshot first)])
                end
            | Raise e => (Raise e, out ++ [LoadingModelFrom (snapshot first)])
            end
            = (Return (Loaded model tokenizer),
               out ++ [LoadingModelFrom (snapshot first)])).
  { destruct Hmodel as [-> | [-> ->]]; reflexivity. }
  rewrite Hload.
  destruct (String.eqb_spec device "cuda") as [Hcuda|_]; [|reflexivity].
  destruct (Z.eqb_spec num_gpus 1) as [Hone|_]; [|reflexivity]. simpl.
  destruct (Hmove Hcuda Hone) as [[] ->]. reflexivity.
Qed.

(** X22. An exception raised while the tokenizer or the model is loaded does
    not reach the caller when [except Exception] catches it: it is
    printed and the pair [(False, False)] is returned, also for a single
    accelerator. One that derives from [BaseException] only is raised
    by [load_model_tokenizer]. *)
Theorem load_model_tokenizer_load_error (kw : kwargs) (first : string)
    (entries : list string) (out out' : list printed) (error : exn) :
  build_kwargs device num_gpus max_gpu_mem = Return kw ->
  listdir (path_join model_path "snapshots/") = Return (first :: entries) ->
  load_model (snapshot first) kw (out ++ [LoadingModelFrom (snapshot first)])
  = (Raise error, out') ->
  load_model_tokenizer model_path device num_gpus max_gpu_mem out
  = if is_Exception error
    then (Return FalseFalse, out' ++ [ErrorLoadingModel error])
    else (Raise error, out').
Proof.
  intros Hkw Hdir Hload.
  rewrite (load_model_tokenizer_resolved kw first entries) by assumption.
  unfold try_load_model. rewrite Hload.
  destruct (is_Exception error); reflexivity.
Qed.

(** X23. A checkpoint path that does not exist is no error: a line says the
    model is skipped and the pair [(False, False)] is returned, without
    any move to the device. *)
Theorem load_model_tokenizer_missing_checkpoint (kw : kwargs)
    (first : string) (entries : list string) (out : list printed) :
  build_kwargs device num_gpus max_gpu_mem = Return kw ->
  listdir (path_join model_path "snapshots/") = Return (first :: entries) ->
  path_exists (snapshot first) = false ->
  load_model_tokenizer model_path device num_gpus max_gpu_mem out
  = (Return FalseFalse,
     out ++ [LoadingModelFrom (snapshot first); SkippingModel (snapshot first)]).
Proof.
  intros Hkw Hdir Hexists.
  rewrite (load_model_tokenizer_resolved kw first entries) by assumption.
  unfold try_load_model, load_model, print. rewrite Hexists. simpl.
  rewrite <- app_assoc. reflexivity.
Qed.
End Resolved.

Section SingleAccelerator.
Context {Model Tokenizer : Type} {machine : Machine Model Tokenizer}.

(** X24. On a single accelerator, an exception of the move to the device is
    raised by [load_model_tokenizer], whatever its class: the move comes
    after the [try]. *)
Theorem load_model_tokenizer_move_raises (model_path : string)
    (max_gpu_mem : option string) (first : string) (entries : list string)
    (out : list printed) (model : Model) (tokenizer : Tokenizer)
    (error : exn) :
  let base_path := path_join (path_join model_path "snapshots/") first in
  let kw := {| torch_dtype := float16; device_map := None;
               max_memory := None |} in
  listdir (path_join model_path "snapshots/") = Return (first :: entries) ->
  path_exists base_path = true ->
  AutoTokenizer_from_pretrained base_path = Return tokenizer ->
  AutoModelForCausalLM_from_pretrained base_path kw = Return model ->
  model_to model "cuda" = Raise error ->
  load_model_tokenizer model_path "cuda" 1 max_gpu_mem out
  = (Raise error, out ++ [LoadingModelFrom base_path]).
Proof.
  intros base_path kw Hdir Hexists Htok Hmodel Hmove.
  rewrite (load_model_tokenizer_resolved model_path "cuda" 1 max_gpu_mem kw
             first entries) by (assumption || reflexivity).
  unfold try_load_model. fold base_path.
  rewrite load_model_found by assumption.
  rewrite Htok, Hmodel. simpl. rewrite Hmove. reflexivity.
Qed.

(** X25. A device string other than "cpu" and "cuda" ends
    [load_model_tokenizer] with the [ValueError] of [build_kwargs]: on
    every machine, and with nothing printed. *)
Theorem load_model_tokenizer_invalid_device (model_path device : string)
    (num_gpus : Z) (max_gpu_mem : option string) (out : list printed) :
  device <> "cpu" ->
  device <> "cuda" ->
  load_model_tokenizer model_path device num_gpus max_gpu_mem out
  = (Raise (ValueError ("Invalid device: " +:+ device)), out).
Proof.
  intros Hcpu Hcuda. unfold load_model_tokenizer, build_kwargs.
  apply String.eqb_neq in Hcpu, Hcuda.
  unfold mbind, ST_bind, lift. rewrite Hcpu, Hcuda. reflexivity.
Qed.

(** X26. Without an explicit cap, when the free memory of fewer devices than
    [num_gpus] is reported, [build_kwargs] raises an [IndexError]. *)
Theorem build_kwargs_memory_not_reported (num_gpus : Z) :
  num_gpus <> 1 ->
  (length (get_gpu_memory num_gpus) < Z.to_nat num_gpus)%nat ->
  build_kwargs "cuda" num_gpus None = Raise IndexError.
Proof.
  intros Hn Hmem. unfold build_kwargs. simpl.
  destruct (Z.eqb_spec num_gpus 1); [contradiction|]. simpl.
  rewrite (mapM_Raise _ IndexError); [reflexivity| |].
  - apply Forall_forall. intros i _. unfold index.
    destruct (nth_error (get_gpu_memory num_gpus) (Z.to_nat i));
      [right; eexists; reflexivity | left; reflexivity].
  - apply Exists_exists.
    exists (Z.of_nat (length (get_gpu_memory num_gpus))). split.
    + apply list_elem_of_In. unfold range. apply in_map, in_seq. lia.
    + rewrite index_ge by lia. reflexivity.
Qed.
End SingleAccelerator.

(** One accelerator, the snapshot "abc123", and the causal-LM loader
    raising a [NameError]: the model of the generic loader is returned. *)
Lemma load_model_tokenizer_loads_witness :
  let machine :=
    machine_loading (Return tt) (Raise NameError) (Return tt) (Return tt) in
  let kw := {| torch_dtype := float16; device_map := None;
               max_memory := None |} in
  let base_path := "/models/gpt2/snapshots/abc123" in
  build_kwargs (machine := machine) "cuda" 1 None = Return kw
  /\ listdir (Machine := machine) (path_join "/models/gpt2" "snapshots/")
     = Return ["abc123"]
  /\ path_exists (Machine := machine) base_path = true
  /\ AutoTokenizer_from_pretrained (Machine := machine) base_path = Return tt
  /\ (AutoModelForCausalLM_from_pretrained (Machine := machine) base_path kw
      = Return tt
      \/ (AutoModelForCausalLM_from_pretrained (Machine := machine) base_path
            kw = Raise NameError
          /\ AutoModel_from_pretrained_low_cpu_mem (Machine := machine)
               base_path kw = Return tt))
  /\ ("cuda" = "cuda" -> 1 = 1 ->
      returns (model_to (Machine := machine) tt "cuda"))
  /\ load_model_tokenizer (machine := machine) "/models/gpt2" "cuda" 1 None []
     = (Return (Loaded tt tt), [LoadingModelFrom base_path]).
Proof.
  intros machine kw base_path.
  assert (H1 : build_kwargs (machine := machine) "cuda" 1 None = Return kw)
    by reflexivity.
  assert (H2 : listdir (Machine := machine)
                 (path_join "/models/gpt2" "snapshots/") = Return ["abc123"])
    by reflexivity.
  assert (H3 : path_exists (Machine := machine) base_path = true)
    by reflexivity.
  assert (H4 : AutoTokenizer_from_pretrained (Machine := machine) base_path
               = Return tt) by reflexivity.
  assert (H5 : AutoModelForCausalLM_from_pretrained (Machine := machine)
                 base_path kw = Return tt
               \/ (AutoModelForCausalLM_from_pretrained (Machine := machine)
                     base_path kw = Raise NameError
                   /\ AutoModel_from_pretrained_low_cpu_mem
                        (Machine := machine) base_path kw = Return tt))
    by (right; split; reflexivity).
  assert (H6 : "cuda" = "cuda" -> 1 = 1 ->
               returns (model_to (Machine := machine) tt "cuda"))
    by (intros _ _; eexists; reflexivity).
  repeat (split; [assumption|]).
  exact (load_model_tokenizer_loads (machine := machine) "/models/gpt2" "cuda"
           1 None kw "abc123" [] [] tt tt H1 H2 H3 H4 H5 H6).
Defined.

(** Two accelerators, and a tokenizer whose files cannot be read. *)
Lemma load_model_tokenizer_load_error_witness :
  let error := RuntimeError "cannot read the tokenizer" in
  let machine :=
    machine_loading (Raise error) (Return tt) (Return tt) (Return tt) in
  let kw := {| torch_dtype := float16; device_map := Some "auto";
               max_memory := Some [(0, "10GiB"); (1, "10GiB")] |} in
  let base_path := "/models/gpt2/snapshots/abc123" in
  build_kwargs (machine := machine) "cuda" 2 (Some "10GiB") = Return kw
  /\ listdir (Machine := machine) (path_join "/models/gpt2" "snapshots/")
     = Return ["abc123"]
  /\ load_model (machine := machine) base_path kw [LoadingModelFrom base_path]
     = (Raise error, [LoadingModelFrom base_path])
  /\ load_model_tokenizer (machine := machine) "/models/gpt2" "cuda" 2
       (Some "10GiB") []
     = (Return FalseFalse,
        [LoadingModelFrom base_path; ErrorLoadingModel error]).
Proof.
  intros error machine kw base_path.
  assert (H1 : build_kwargs (machine := machine) "cuda" 2 (Some "10GiB")
               = Return kw) by reflexivity.
  assert (H2 : listdir (Machine := machine)
                 (path_join "/models/gpt2" "snapshots/") = Return ["abc123"])
    by reflexivity.
  assert (H3 : load_model (machine := machine) base_path kw
                 [LoadingModelFrom base_path]
               = (Raise error, [LoadingModelFrom base_path])) by reflexivity.
  repeat (split; [assumption|]).
  exact (load_model_tokenizer_load_error (machine := machine) "/models/gpt2"
           "cuda" 2 (Some "10GiB") kw "abc123" [] []
           [LoadingModelFrom base_path] error H1 H2 H3).
Defined.

(** The snapshot listed is no longer there, on the CPU. *)
Lemma load_model_tokenizer_missing_checkpoint_witness :
  let kw := {| torch_dtype := float32; device_map := None;
               max_memory := None |} in
  let base_path := "/models/gpt2/snapshots/abc123" in
  build_kwargs (machine := machine_snapshot_removed) "cpu" 0 None = Return kw
  /\ listdir (Machine := machine_snapshot_removed)
       (path_join "/models/gpt2" "snapshots/") = Return ["abc123"]
  /\ path_exists (Machine := machine_snapshot_removed) base_path = false
  /\ load_model_tokenizer (machine := machine_snapshot_removed) "/models/gpt2"
       "cpu" 0 None []
     = (Return FalseFalse,
        [LoadingModelFrom base_path; SkippingModel base_path]).
Proof.
  intros kw base_path.
  assert (H1 : build_kwargs (machine := machine_snapshot_removed) "cpu" 0 None
               = Return kw) by reflexivity.
  assert (H2 : listdir (Machine := machine_snapshot_removed)
                 (path_join "/models/gpt2" "snapshots/") = Return ["abc123"])
    by reflexivity.
  assert (H3 : path_exists (Machine := machine_snapshot_removed) base_path
               = false) by reflexivity.
  repeat (split; [assumption|]).
  exact (load_model_tokenizer_missing_checkpoint
           (machine := machine_snapshot_removed) "/models/gpt2" "cpu" 0 None
           kw "abc123" [] [] H1 H2 H3).
Defined.

(** One accelerator that is out of memory when the model is moved. *)
Lemma load_model_tokenizer_move_raises_witness :
  let error := RuntimeError "CUDA out of memory" in
  let machine :=
    machine_loading (Return tt) (Return tt) (Return tt) (Raise error) in
  let kw := {| torch_dtype := float16; device_map := None;
               max_memory := None |} in
  let base_path := "/models/gpt2/snapshots/abc123" in
  listdir (Machine := machine) (path_join "/models/gpt2" "snapshots/")
  = Return ["abc123"]
  /\ path_exists (Machine := machine) base_path = true
  /\ AutoTokenizer_from_pretrained (Machine := machine) base_path = Return tt
  /\ AutoModelForCausalLM_from_pretrained (Machine := machine) base_path kw
     = Return tt
  /\ model_to (Machine := machine) tt "cuda" = Raise error
  /\ load_model_tokenizer (machine := machine) "/models/gpt2" "cuda" 1 None []
     = (Raise error, [LoadingModelFrom base_path]).
Proof.
  intros error machine kw base_path.
  assert (H1 : listdir (Machine := machine)
                 (path_join "/models/gpt2" "snapshots/") = Return ["abc123"])
    by reflexivity.
  assert (H2 : path_exists (Machine := machine) base_path = true)
    by reflexivity.
  assert (H3 : AutoTokenizer_from_pretrained (Machine := machine) base_path
               = Return tt) by reflexivity.
  assert (H4 : AutoModelForCausalLM_from_pretrained (Machine := machine)
                 base_path kw = Return tt) by reflexivity.
  assert (H5 : model_to (Machine := machine) tt "cuda" = Raise error)
    by reflexivity.
  repeat (split; [assumption|]).
  exact (load_model_tokenizer_move_raises (machine := machine) "/models/gpt2"
           None "abc123" [] [] tt tt error H1 H2 H3 H4 H5).
Defined.

(** The device string "gpu". *)
Lemma load_model_tokenizer_invalid_device_witness :
  "gpu" <> "cpu"
  /\ "gpu" <> "cuda"
  /\ load_model_tokenizer (machine := machine_with (Return ["abc123"]))
       "/models/gpt2" "gpu" 2 None []
     = (Raise (ValueError "Invalid device: gpu"), []).
Proof.
  assert (H1 : "gpu" <> "cpu") by discriminate.
  assert (H2 : "gpu" <> "cuda") by discriminate.
  split; [exact H1|]. split; [exact H2|].
  exact (load_model_tokenizer_invalid_device
           (machine := machine_with (Return ["abc123"])) "/models/gpt2" "gpu"
           2 None [] H1 H2).
Defined.

(** Four devices asked for on the machine that reports three. *)
Lemma build_kwargs_memory_not_reported_witness :
  4 <> 1
  /\ (length (get_gpu_memory (Machine := machine_with (Return [])) 4)
      < Z.to_nat 4)%nat
  /\ build_kwargs (machine := machine_with (Return [])) "cuda" 4 None
     = Raise IndexError.
Proof.
  assert (H1 : 4 <> 1) by lia.
  assert (H2 : (length (get_gpu_memory (Machine := machine_with (Return [])) 4)
                < Z.to_nat 4)%nat) by (vm_compute; lia).
  split; [exact H1|]. split; [exact H2|].
  exact (build_kwargs_memory_not_reported (machine := machine_with (Return []))
           4 H1 H2).
Defined.

End LoaderFacts.
